(** * PoWFaucet, CosmWasm claim settlement: a shallow embedding

    The development follows the TypeScript sources
    - [src/cw/interfaces.ts]                (the records below)
    - [src/cw/CwWalletManager.ts]           (module [Wallet])
    - [src/cw/CwClaimNotificationClient.ts] (module [Hub])
    - [src/cw/CwClaimManager.ts]            (module [ClaimManager])
    - [src/cw/CwWalletRefill.ts]            (module [Refill])

    JavaScript values are modelled as follows: [bigint] and integral
    [number]s are [Z]; strings are [string]; an object used as a
    dictionary is a [gmap] (keys are taken not to be names of
    [Object.prototype] members); the [ClaimInfo] objects, which the
    queue and the dictionaries share and which are updated in place,
    live in a store and are referred to by reference; the wallet state
    is read through the wallet manager at every use, except by the
    loop of [processQueue], which keeps the object it fetched; an
    exception is a value of [Exn]; the IEEE-754 doubles of
    [readableAmount] are [spec_float]s at precision 53.

    Every [await] is a point where the outside answers: the answer is
    an argument of the function or a field of [World], so each
    operation is a function of the state and of those answers.  In the
    event system an operation runs to its end before the next one
    starts, with one exception, [awaitTxConfirmation], which is split
    at its [await]: the call registers a watcher, and the answer of
    [getTx] is an event of its own, so that confirmations complete in
    any order and at any time between the other operations.  The two
    operations that wait in their middle, [processQueue] for the chain
    and [createSessionClaim] for the hooks and the database, are given
    a second time with the events that happen while they wait:
    [Interleaved.processQueue_during] and [createSessionClaim_during]. *)

From Stdlib Require Import ZArith List String Ascii Lia Bool SpecFloat.
From Stdlib Require Import DecimalString Sorting.Sorted Sorting.Permutation.
From Stdlib Require DecimalPos DecimalZ.
From stdpp Require Import gmap strings list fin_maps.

Open Scope Z_scope.

(** * JavaScript primitives *)
Module JS.

(** Exceptions: the faucet's own [FaucetError(code, message)] and the
    built-in errors ([Error], [TypeError], [SyntaxError]), for which
    only [toString()] is ever observed; [JsError] carries that text. *)
Inductive Exn :=
| FaucetError (code : string) (message : string)
| JsError (text : string).

(** Modelled from the spec: [FaucetError] ([common/FaucetError.ts] is
    not among the sources) is an [Error] with a code; its [toString()]
    is taken to be the one it inherits, under its own name. *)
Definition Exn_toString (e : Exn) : string :=
  match e with
  | FaucetError code message => "FaucetError: " +:+ message
  | JsError text => text
  end.

(** A computation that returns or throws. *)
Definition Res (A : Type) : Type := Exn + A.

Definition ok {A} (a : A) : Res A := inr a.
Definition throw {A} (e : Exn) : Res A := inl e.

(** ToBoolean on an optional string: [undefined] and [""] are falsy. *)
Definition truthy (o : option string) : bool :=
  match o with
  | Some s => negb (String.eqb s "")
  | None => false
  end.

(** ** [BigInt(string)] (StringToBigInt) *)

(** StrWhiteSpaceChar, restricted to one-byte characters. *)
Definition is_ws (c : ascii) : bool :=
  let n := nat_of_ascii c in
  ((n =? 9) || (n =? 10) || (n =? 11) || (n =? 12) || (n =? 13) || (n =? 32))%nat.

Fixpoint trim_start (s : string) : string :=
  match s with
  | String c s' => if is_ws c then trim_start s' else s
  | EmptyString => EmptyString
  end.

Fixpoint trim_end (s : string) : string :=
  match s with
  | String c s' =>
      match trim_end s' with
      | EmptyString => if is_ws c then EmptyString else String c EmptyString
      | t => String c t
      end
  | EmptyString => EmptyString
  end.

Definition digit_value (c : ascii) : option Z :=
  let n := Z.of_nat (nat_of_ascii c) in
  if (48 <=? n) && (n <=? 57) then Some (n - 48)
  else if (97 <=? n) && (n <=? 102) then Some (n - 87)
  else if (65 <=? n) && (n <=? 70) then Some (n - 55)
  else None.

(** The digits of [s] in [base], most significant first, on top of the
    value [acc] read so far; [None] on a character that is no digit. *)
Fixpoint digits_value (base : Z) (s : string) (acc : Z) : option Z :=
  match s with
  | EmptyString => Some acc
  | String c s' =>
      match digit_value c with
      | Some d => if d <? base then digits_value base s' (base * acc + d) else None
      | None => None
      end
  end.

(** One digit at least. *)
Definition number_value (base : Z) (s : string) : option Z :=
  match s with
  | EmptyString => None
  | _ => digits_value base s 0
  end.

(** StrIntegerLiteral: a signed decimal, or an unsigned literal with a
    radix prefix. *)
Definition integer_literal (s : string) : option Z :=
  match s with
  | String "0" (String "x" r) | String "0" (String "X" r) => number_value 16 r
  | String "0" (String "o" r) | String "0" (String "O" r) => number_value 8 r
  | String "0" (String "b" r) | String "0" (String "B" r) => number_value 2 r
  | String "-" r => option_map Z.opp (number_value 10 r)
  | String "+" r => number_value 10 r
  | _ => number_value 10 s
  end.

(** [BigInt(s)] for a string [s]: surrounding white space is dropped,
    the empty string is [0n], anything that is no integer literal is a
    SyntaxError ([None]). *)
Definition parseBigInt (s : string) : option Z :=
  match trim_end (trim_start s) with
  | EmptyString => Some 0
  | t => integer_literal t
  end.

Definition BigInt (s : string) : Res Z :=
  match parseBigInt s with
  | Some z => ok z
  | None => throw (JsError ("SyntaxError: Cannot convert " +:+ s +:+ " to a BigInt"))
  end.

(** [BigInt(undefined)] is a TypeError. *)
Definition BigInt_opt (o : option string) : Res Z :=
  match o with
  | Some s => BigInt s
  | None => throw (JsError "TypeError: Cannot convert undefined to a BigInt")
  end.

(** [bigint.toString()]. *)
Definition Z_toString (z : Z) : string := NilZero.string_of_int (Z.to_int z).

End JS.
Import JS.

(** * JavaScript numbers: IEEE-754 binary64 *)
Module Double.

Definition prec : Z := 53.
Definition emax : Z := 1024.

(** [Number(z)] for a bigint [z]: the nearest double, ties to even. *)
Definition of_Z (z : Z) : spec_float := binary_normalize prec emax z 0 false.

Definition div (x y : spec_float) : spec_float := SFdiv prec emax x y.
Definition mul (x y : spec_float) : spec_float := SFmul prec emax x y.

(** [Math.pow(10, d)] for a natural [d]: the double nearest to [10^d]
    (which is [10^d] itself up to [d = 22]). *)
Definition pow10 (d : nat) : spec_float := of_Z (10 ^ Z.of_nat d).

(** The integer part, rounded down, of a finite double. *)
Definition floorZ (s : bool) (m : positive) (e : Z) : Z :=
  let v := if s then Zneg m else Zpos m in
  if 0 <=? e then v * 2 ^ e else v / 2 ^ (- e).

(** [Math.floor] *)
Definition floor (x : spec_float) : spec_float :=
  match x with
  | S754_finite s m e => binary_normalize prec emax (floorZ s m e) 0 s
  | _ => x
  end.

(** ** [Number.prototype.toString()] (Number::toString, radix 10) *)

(** The double nearest to [s * 10^j], for [s > 0]. *)
Definition of_decimal (s : positive) (j : Z) : spec_float :=
  if 0 <=? j then of_Z (Zpos s * 10 ^ j)
  else
    match 10 ^ (- j) with
    | Zpos q => div (S754_finite false s 0) (S754_finite false q 0)
    | _ => S754_nan
    end.

(** Comparison of [m * 2^e] with [10^n]. *)
Definition lt_pow10 (m : positive) (e : Z) (n : Z) : bool :=
  Zpos m * 2 ^ (Z.max e 0) * 10 ^ (Z.max (- n) 0) <? 10 ^ (Z.max n 0) * 2 ^ (Z.max (- e) 0).

(** The least [n], from [lo] on and within [fuel] steps, with
    [m * 2^e < 10^n]. *)
Fixpoint magnitude (fuel : nat) (m : positive) (e : Z) (lo : Z) : Z :=
  match fuel with
  | O => lo
  | S fuel' => if lt_pow10 m e lo then lo else magnitude fuel' m e (lo + 1)
  end.

(** [| m * 2^e - s * 10^j |], in units of [2^min(e,0) * 10^min(j,0)]. *)
Definition distance (m : positive) (e : Z) (s : Z) (j : Z) : Z :=
  Z.abs (Zpos m * 2 ^ (Z.max e 0) * 10 ^ (Z.max (- j) 0)
         - s * 10 ^ (Z.max j 0) * 2 ^ (Z.max (- e) 0)).

(** [floor (m * 2^e / 10^j)] *)
Definition scaled_floor (m : positive) (e : Z) (j : Z) : Z :=
  (Zpos m * 2 ^ (Z.max e 0) * 10 ^ (Z.max (- j) 0))
  / (10 ^ (Z.max j 0) * 2 ^ (Z.max (- e) 0)).

Definition reads_as (m : positive) (e : Z) (s : Z) (j : Z) : bool :=
  match s with
  | Zpos p => SFeqb (of_decimal p j) (S754_finite false m e)
  | _ => false
  end.

(** The digits [s] with [k] digits and the exponent [n] that denote
    the double [m * 2^e], if [k] digits can: the two [k]-digit decimals
    around the exact value are tried, the one that is closer first. *)
Definition digits_of_length (m : positive) (e : Z) (n0 : Z) (k : Z) : option (Z * Z) :=
  let j := n0 - k in
  let lo := scaled_floor m e j in
  let hi := lo + 1 in
  let first_lo := distance m e lo j <=? distance m e hi j in
  let pick (s : Z) := if s =? 10 ^ k then (10 ^ (k - 1), n0 + 1) else (s, n0) in
  let ok_lo := reads_as m e lo j in
  let ok_hi := reads_as m e hi j in
  if first_lo then
    if ok_lo then Some (pick lo) else if ok_hi then Some (pick hi) else None
  else
    if ok_hi then Some (pick hi) else if ok_lo then Some (pick lo) else None.

(** The shortest digits: [k] is tried from [k] upwards, [fuel] times. *)
Fixpoint shortest (fuel : nat) (m : positive) (e : Z) (n0 : Z) (k : Z) : option (Z * Z) :=
  match fuel with
  | O => None
  | S fuel' =>
      match digits_of_length m e n0 k with
      | Some r => Some r
      | None => shortest fuel' m e n0 (k + 1)
      end
  end.

Definition digits (z : Z) : string := NilZero.string_of_int (Z.to_int z).

Fixpoint zeros (n : nat) : string :=
  match n with
  | O => EmptyString
  | S n' => String "0" (zeros n')
  end.

(** Steps 6 to 10 of Number::toString: the digits [s] (as a string
    [ds] of [k] characters) and the exponent [n] written out. *)
Definition layout (ds : string) (n : Z) : string :=
  let k := Z.of_nat (String.length ds) in
  if (k <=? n) && (n <=? 21) then ds +:+ zeros (Z.to_nat (n - k))
  else if (0 <? n) && (n <=? 21) then
    substring 0 (Z.to_nat n) ds +:+ "." +:+ substring (Z.to_nat n) (Z.to_nat (k - n)) ds
  else if (-6 <? n) && (n <=? 0) then "0." +:+ zeros (Z.to_nat (- n)) +:+ ds
  else
    let ex := (if 0 <=? n - 1 then "+" else "-") +:+ digits (Z.abs (n - 1)) in
    if k =? 1 then ds +:+ "e" +:+ ex
    else substring 0 1 ds +:+ "." +:+ substring 1 (Z.to_nat (k - 1)) ds +:+ "e" +:+ ex.

Definition toString (x : spec_float) : string :=
  match x with
  | S754_nan => "NaN"
  | S754_zero _ => "0"
  | S754_infinity s => if s then "-Infinity" else "Infinity"
  | S754_finite sg m e =>
      let n0 := magnitude 700 m e (-330) in
      match shortest 17 m e n0 1 with
      | Some (s, n) => (if sg then "-" else "") +:+ layout (digits s) n
      | None => "NaN"
      end
  end.

End Double.

(** * Shared declarations ([src/cw/interfaces.ts]) *)

Record WalletState := {
  ready : bool;
  sequence : Z;
  balance : Z;
  nativeBalance : Z;
}.

Inductive ClaimTxStatus := QUEUE | PROCESSING | PENDING | CONFIRMED | FAILED.

Record ClaimData := {
  claimIdx : Z;
  claimStatus : ClaimTxStatus;
  claimTime : Z;
  txHash : option string;
  txHeight : option Z;
  txFee : option string;
  txError : option string;
}.

Record ClaimInfo := {
  session : string;
  target : string;
  amount : string;
  claim : ClaimData;
}.

Record IClaimNotificationData := {
  processedIdx : Z;
  confirmedIdx : Z;
}.

(** Field updates of the mutable objects. *)
Definition set_claimStatus (st : ClaimTxStatus) (c : ClaimData) : ClaimData :=
  {| claimIdx := claimIdx c; claimStatus := st; claimTime := claimTime c;
     txHash := txHash c; txHeight := txHeight c; txFee := txFee c;
     txError := txError c |}.

Definition set_txHash (h : string) (c : ClaimData) : ClaimData :=
  {| claimIdx := claimIdx c; claimStatus := claimStatus c; claimTime := claimTime c;
     txHash := Some h; txHeight := txHeight c; txFee := txFee c;
     txError := txError c |}.

Definition set_txHeight (h : Z) (c : ClaimData) : ClaimData :=
  {| claimIdx := claimIdx c; claimStatus := claimStatus c; claimTime := claimTime c;
     txHash := txHash c; txHeight := Some h; txFee := txFee c;
     txError := txError c |}.

Definition set_txFee (f : string) (c : ClaimData) : ClaimData :=
  {| claimIdx := claimIdx c; claimStatus := claimStatus c; claimTime := claimTime c;
     txHash := txHash c; txHeight := txHeight c; txFee := Some f;
     txError := txError c |}.

Definition set_txError (e : string) (c : ClaimData) : ClaimData :=
  {| claimIdx := claimIdx c; claimStatus := claimStatus c; claimTime := claimTime c;
     txHash := txHash c; txHeight := txHeight c; txFee := txFee c;
     txError := Some e |}.

Definition map_claim (f : ClaimData -> ClaimData) (ci : ClaimInfo) : ClaimInfo :=
  {| session := session ci; target := target ci; amount := amount ci;
     claim := f (claim ci) |}.

(** Modelled from the spec: [faucetConfig] ([config/FaucetConfig.ts] is
    not among the sources).  The fields are the [cw*] keys the code
    reads, typed by their use: monetary values are strings handed to
    [BigInt], optional keys are [option]s ([None] is [undefined]). *)
Record FaucetConfig := {
  cwAddressPrefix : string;
  cwDenom : string;
  cwDecimals : nat;
  cwSymbol : string;
  cwIsNativeToken : bool;
  cwContractAddress : string;
  cwGasAmount : string;
  cwGasLimit : string;
  cwMinGasAmount : string;
  cwMinAmount : string;
  cwMaxAmount : string;
  cwMaxPending : Z;
  cwMinBalance : string;
  cwLowBalanceThreshold : string;
  cwRefillEnabled : bool;
  cwRefillContract : option string;
  cwRefillAmount : option string;
  cwRefillThreshold : option string;
  cwRefillOverflowAmount : option string;
  cwRefillCooldown : Z;
}.

(** ** The chain, seen through the signing client *)

Record Coin := { denom : string; coin_amount : string }.

Record StdFee := { fee_amount : list Coin; gas : string }.

(** The contract messages the faucet builds. *)
Inductive ContractMsg :=
| transfer (recipient : string) (amount : string)
| withdraw (amount : string)
| deposit.

Inductive ChainRequest :=
| BankSend (sender recipient : string) (coins : list Coin) (fee : StdFee)
| Execute (sender contract : string) (msg : ContractMsg) (fee : StdFee).

Record TxResponse := {
  transactionHash : string;
  height : Z;
  gasUsed : Z;
}.

(** The answer of the chain to a request, given the requests made
    before: a transaction response, or a rejection. *)
Definition Chain : Type := list ChainRequest -> ChainRequest -> Res TxResponse.

Record TxReceipt := {
  receipt_status : bool;
  receipt_height : Z;
  receipt_fee : Z;
  receipt_gasUsed : Z;
}.

(** [txPromise] is always [Promise.resolve(...)]: the receipt itself. *)
Record TransactionResult := {
  tr_txHash : string;
  txPromise : TxReceipt;
}.

(** * [CwWalletManager] *)
Module Wallet.

Record t := {
  walletAddress : string;
  walletState : WalletState;
  (** the requests handed to the signing client so far, oldest first *)
  requests : list ChainRequest;
}.

Definition getWalletState (w : t) : WalletState := walletState w.

Definition set_walletState (ws : WalletState) (w : t) : t :=
  {| walletAddress := walletAddress w; walletState := ws; requests := requests w |}.

(** [await this.signingClient.<call>]: the request is recorded and the
    chain answers. *)
Definition signingClient (chain : Chain) (rq : ChainRequest) (w : t) : Res TxResponse * t :=
  (chain (requests w) rq,
   {| walletAddress := walletAddress w; walletState := walletState w;
      requests := requests w ++ [rq] |}).

Definition gasFee (cfg : FaucetConfig) : StdFee :=
  {| fee_amount := [ {| denom := cwDenom cfg; coin_amount := cwGasAmount cfg |} ];
     gas := cwGasLimit cfg |}.

(** [this.walletState.sequence++] *)
Definition incr_sequence (ws : WalletState) : WalletState :=
  {| ready := ready ws; sequence := sequence ws + 1;
     balance := balance ws; nativeBalance := nativeBalance ws |}.

(** [this.walletState.balance -= d] *)
Definition sub_balance (d : Z) (ws : WalletState) : WalletState :=
  {| ready := ready ws; sequence := sequence ws;
     balance := balance ws - d; nativeBalance := nativeBalance ws |}.

(** [this.walletState.nativeBalance -= d] *)
Definition sub_nativeBalance (d : Z) (ws : WalletState) : WalletState :=
  {| ready := ready ws; sequence := sequence ws;
     balance := balance ws; nativeBalance := nativeBalance ws - d |}.

Definition receipt (tx : TxResponse) (fee : Z) : TransactionResult :=
  {| tr_txHash := transactionHash tx;
     txPromise := {| receipt_status := true; receipt_height := height tx;
                     receipt_fee := fee; receipt_gasUsed := gasUsed tx |} |}.

(** The [try] block of [sendTokens], after the chain call succeeded:
    the local deltas, statement by statement.  A [BigInt] that throws
    leaves the earlier assignments in place. *)
Definition sendTokens_update (cfg : FaucetConfig) (amount : string) (tx : TxResponse)
    (w : t) : Res TransactionResult * t :=
  let w1 := set_walletState (incr_sequence (walletState w)) w in
  match BigInt amount with
  | inl e => (inl e, w1)
  | inr a =>
      let w2 := set_walletState (sub_balance a (walletState w1)) w1 in
      if cwIsNativeToken cfg then
        (* BigInt(amount) + BigInt(cwGasAmount) *)
        match BigInt amount with
        | inl e => (inl e, w2)
        | inr a' =>
            match BigInt (cwGasAmount cfg) with
            | inl e => (inl e, w2)
            | inr g =>
                let w3 := set_walletState (sub_nativeBalance (a' + g) (walletState w2)) w2 in
                match BigInt (cwGasAmount cfg) with
                | inl e => (inl e, w3)
                | inr g' => (inr (receipt tx g'), w3)
                end
            end
        end
      else
        match BigInt (cwGasAmount cfg) with
        | inl e => (inl e, w2)
        | inr g =>
            let w3 := set_walletState (sub_nativeBalance g (walletState w2)) w2 in
            match BigInt (cwGasAmount cfg) with
            | inl e => (inl e, w3)
            | inr g' => (inr (receipt tx g'), w3)
            end
        end
  end.

Definition sendTokens_request (cfg : FaucetConfig) (w : t) (recipientAddr amount : string)
    : ChainRequest :=
  if cwIsNativeToken cfg then
    BankSend (walletAddress w) recipientAddr
      [ {| denom := cwDenom cfg; coin_amount := amount |} ] (gasFee cfg)
  else
    Execute (walletAddress w) (cwContractAddress cfg)
      (transfer recipientAddr amount) (gasFee cfg).

Definition sendTokens (cfg : FaucetConfig) (chain : Chain) (recipientAddr amount : string)
    (w : t) : Res TransactionResult * t :=
  if negb (ready (walletState w)) then (throw (JsError "Error: Wallet not ready"), w)
  else
    let tried :=
      match signingClient chain (sendTokens_request cfg w recipientAddr amount) w with
      | (inl e, w') => (inl e, w')
      | (inr tx, w') => sendTokens_update cfg amount tx w'
      end in
    match tried with
    | (inl err, w') =>
        (throw (JsError ("Error: Failed to send tokens: " +:+ Exn_toString err)), w')
    | (inr r, w') => (ok r, w')
    end.

(** [sendTokens] on either side of its [await]: up to the request
    handed to the signing client ([None]: the wallet was not ready and
    nothing was sent), and from the answer of the chain on.  The wallet
    manager that takes the answer is the one of that moment. *)
Definition sendTokens_call (cfg : FaucetConfig) (chain : Chain)
    (recipientAddr amount : string) (w : t) : option (Res TxResponse * t) :=
  if negb (ready (walletState w)) then None
  else Some (signingClient chain (sendTokens_request cfg w recipientAddr amount) w).

Definition sendTokens_return (cfg : FaucetConfig) (amount : string)
    (answer : Res TxResponse) (w : t) : Res TransactionResult * t :=
  let tried :=
    match answer with
    | inl e => (inl e, w)
    | inr tx => sendTokens_update cfg amount tx w
    end in
  match tried with
  | (inl err, w') =>
      (throw (JsError ("Error: Failed to send tokens: " +:+ Exn_toString err)), w')
  | (inr r, w') => (ok r, w')
  end.

(** [fee.amount[0].amount]; reading [.amount] of a missing first coin
    is a TypeError. *)
Definition fee_amount0 (fee : StdFee) : Res string :=
  match fee_amount fee with
  | c :: _ => ok (coin_amount c)
  | [] => throw (JsError "TypeError: Cannot read properties of undefined (reading 'amount')")
  end.

Definition executeContract_update (fee : StdFee) (tx : TxResponse) (w : t)
    : Res TransactionResult * t :=
  let w1 := set_walletState (incr_sequence (walletState w)) w in
  match fee_amount0 fee with
  | inl e => (inl e, w1)
  | inr s =>
      match BigInt s with
      | inl e => (inl e, w1)
      | inr f =>
          let w2 := set_walletState (sub_nativeBalance f (walletState w1)) w1 in
          match BigInt s with
          | inl e => (inl e, w2)
          | inr f' => (inr (receipt tx f'), w2)
          end
      end
  end.

Definition executeContract (chain : Chain) (contractAddr : string) (msg : ContractMsg)
    (fee : StdFee) (w : t) : Res TransactionResult * t :=
  if negb (ready (walletState w)) then (throw (JsError "Error: Wallet not ready"), w)
  else
    let tried :=
      match signingClient chain (Execute (walletAddress w) contractAddr msg fee) w with
      | (inl e, w') => (inl e, w')
      | (inr tx, w') => executeContract_update fee tx w'
      end in
    match tried with
    | (inl err, w') =>
        (throw (JsError ("Error: Failed to execute contract: " +:+ Exn_toString err)), w')
    | (inr r, w') => (ok r, w')
    end.

(** [readableAmount]:
    [(Math.floor((Number(amount) / Math.pow(10, cwDecimals)) * 1000) / 1000).toString()]
    followed by a blank and the symbol. *)
Definition readableAmount (cfg : FaucetConfig) (amount : Z) : string :=
  let amountStr :=
    Double.toString
      (Double.div
         (Double.floor
            (Double.mul
               (Double.div (Double.of_Z amount) (Double.pow10 (cwDecimals cfg)))
               (Double.of_Z 1000)))
         (Double.of_Z 1000)) in
  amountStr +:+ " " +:+ cwSymbol cfg.

(** What the three queries of [loadWalletState] returned: the account
    sequence ([account?.sequence || 0]), the token balance and the
    native balance; [None] when one of them threw. *)
Definition LoadReply : Type := option (Z * Z * Z).

(** The wallet state that [loadWalletState] assigns for what the
    queries returned.  The function as a whole, with the status it
    publishes inside its [try] and its [catch] block, is
    [FaucetStatus.loadWalletState] below. *)
Definition loadWalletState (reply : LoadReply) (w : t) : t :=
  match reply with
  | Some (sq, bal, nat) =>
      set_walletState {| ready := true; sequence := sq; balance := bal;
                         nativeBalance := nat |} w
  | None =>
      set_walletState {| ready := false; sequence := 0; balance := 0;
                         nativeBalance := 0 |} w
  end.

End Wallet.

(** * The status the wallet manager publishes *)
Module FaucetStatus.

(** Modelled from the spec: [FaucetStatusLevel] of
    [services/FaucetStatus.ts], which is not among the sources; the
    three levels the wallet manager uses. *)
Inductive FaucetStatusLevel := INFO | WARNING | ERROR.

(** [updateFaucetStatus] on the wallet state [ws]: the message and
    the level handed to [setFaucetStatus("wallet", ...)].  The second
    operand of [||] is evaluated only if the first is false. *)
Definition updateFaucetStatus (cfg : FaucetConfig) (ws : WalletState)
    : Res (string * FaucetStatusLevel) :=
  if negb (ready ws) then ok ("Cannot connect to network"%string, ERROR)
  else
    match BigInt (cwMinBalance cfg) with
    | inl e => throw e
    | inr minBalance =>
        let out_of_funds :=
          if balance ws <=? minBalance then ok true
          else
            match BigInt (cwMinGasAmount cfg) with
            | inl e => throw e
            | inr minGas => ok (nativeBalance ws <=? minGas)
            end in
        match out_of_funds with
        | inl e => throw e
        | inr true => ok ("The faucet is out of funds!"%string, ERROR)
        | inr false =>
            match BigInt (cwLowBalanceThreshold cfg) with
            | inl e => throw e
            | inr low =>
                if balance ws <=? low then
                  ok ("The faucet is running low on funds! Balance: "
                        +:+ Wallet.readableAmount cfg (balance ws), WARNING)
                else ok (EmptyString, INFO)
            end
        end
    end.

Definition not_ready : WalletState :=
  {| ready := false; sequence := 0; balance := 0; nativeBalance := 0 |}.

(** [loadWalletState] with the status it publishes: [reply] is what
    the three queries returned.  The new state is assigned and the
    status computed inside the [try]; an exception there, from a
    query or from [updateFaucetStatus], leads to the [catch] block,
    which assigns the not-ready state and computes the status again. *)
Definition loadWalletState (cfg : FaucetConfig) (reply : Wallet.LoadReply) (w : Wallet.t)
    : Res (string * FaucetStatusLevel) * Wallet.t :=
  let failed :=
    (updateFaucetStatus cfg not_ready, Wallet.set_walletState not_ready w) in
  match reply with
  | Some (sq, bal, nat) =>
      let ws := {| ready := true; sequence := sq; balance := bal; nativeBalance := nat |} in
      match updateFaucetStatus cfg ws with
      | inr st => (inr st, Wallet.set_walletState ws w)
      | inl _ => failed
      end
  | None => failed
  end.

End FaucetStatus.

(** * [CwClaimNotificationClient] *)
Module Hub.

Inductive WSMessage :=
| update (data : IClaimNotificationData)
| error (reason : string).

(** A subscriber: its socket (an identity) and the claim it waits for. *)
Record Client := {
  socket : nat;
  claimIdx : Z;
}.

Record t := {
  activeClients : list Client;
  lastNotificationData : option IClaimNotificationData;
  (** what was written to the sockets, oldest first *)
  sent : list (nat * WSMessage);
  (** the calls of [broadcastClaimNotification], oldest first *)
  broadcasts : list IClaimNotificationData;
}.

Definition empty : t :=
  {| activeClients := []; lastNotificationData := None; sent := []; broadcasts := [] |}.

(** [sendClaimNotification], without the removal from [activeClients]:
    the messages written to the client's socket. *)
Definition sendClaimNotification (data : IClaimNotificationData) (c : Client)
    : list (nat * WSMessage) :=
  if confirmedIdx data >=? claimIdx c
  then [(socket c, update data); (socket c, error "claim confirmed")]
  else [(socket c, update data)].

(** The loop of [broadcastClaimNotification] walks [activeClients]
    from the last index down; a client whose claim is confirmed is
    killed, which splices it out of the array at its own index. *)
Definition broadcastClaimNotification (data : IClaimNotificationData) (h : t) : t :=
  {| activeClients := filter (fun c => confirmedIdx data < claimIdx c) (activeClients h);
     lastNotificationData := Some data;
     sent := sent h ++ concat (map (sendClaimNotification data) (rev (activeClients h)));
     broadcasts := broadcasts h ++ [data] |}.

Definition resetClaimNotification (h : t) : t :=
  {| activeClients := activeClients h; lastNotificationData := None;
     sent := sent h; broadcasts := broadcasts h |}.

(** [new CwClaimNotificationClient(socket, claimIdx)] *)
Definition subscribe (c : Client) (h : t) : t :=
  match lastNotificationData h with
  | Some data =>
      {| activeClients :=
           activeClients h ++ (if confirmedIdx data >=? claimIdx c then [] else [c]);
         lastNotificationData := lastNotificationData h;
         sent := sent h ++ sendClaimNotification data c;
         broadcasts := broadcasts h |}
  | None =>
      {| activeClients := activeClients h ++ [c];
         lastNotificationData := lastNotificationData h;
         sent := sent h; broadcasts := broadcasts h |}
  end.

End Hub.

(** Modelled from the spec: [FaucetSessionStatus] and
    [FaucetSessionStoreData] of [session/FaucetSession.ts], which is not
    among the sources; the record has the fields the claim manager
    reads and writes, the status the members the faucet's sessions go
    through. *)
Module Session.

Inductive FaucetSessionStatus :=
| UNKNOWN | STARTING | RUNNING | CLAIMABLE | CLAIMING | FINISHED | FAILED.

Record FaucetSessionStoreData := {
  sessionId : string;
  status : FaucetSessionStatus;
  targetAddr : string;
  dropAmount : string;
  claim : option ClaimData;
}.

Definition status_eqb (a b : FaucetSessionStatus) : bool :=
  match a, b with
  | UNKNOWN, UNKNOWN | STARTING, STARTING | RUNNING, RUNNING
  | CLAIMABLE, CLAIMABLE | CLAIMING, CLAIMING | FINISHED, FINISHED
  | FAILED, FAILED => true
  | _, _ => false
  end.

End Session.

(** * [CwClaimManager] *)
Module ClaimManager.

(** A [ClaimInfo] object is created once and then shared by the queue
    and the dictionaries, which hold references to it; [objects] is the
    store, a reference is an index into it. *)
Definition ref : Type := nat.

#[global] Instance ClaimInfo_inhabited : Inhabited ClaimInfo :=
  populate {| session := ""; target := ""; amount := "";
              claim := {| claimIdx := 0; claimStatus := QUEUE; claimTime := 0;
                          txHash := None; txHeight := None; txFee := None;
                          txError := None |} |}.

Record t := {
  initialized : bool;
  claimTxDict : gmap string ref;
  claimTxQueue : list ref;
  pendingTxQueue : gmap string ref;
  historyTxDict : gmap Z ref;
  queueProcessing : bool;
  lastClaimTxIdx : Z;
  lastProcessedClaimTxIdx : Z;
  lastConfirmedClaimTxIdx : Z;
  lastNotificationData : option IClaimNotificationData;
}.

(** The field initialisers of the class. *)
Definition fresh : t :=
  {| initialized := false; claimTxDict := ∅; claimTxQueue := [];
     pendingTxQueue := ∅; historyTxDict := ∅; queueProcessing := false;
     lastClaimTxIdx := 1; lastProcessedClaimTxIdx := 0;
     lastConfirmedClaimTxIdx := 0; lastNotificationData := None |}.

(** The claim manager with the services it reaches through
    [ServiceManager], and the part of the outside world it writes to. *)
Record Sys := {
  mgr : t;
  objects : list ClaimInfo;
  (** [awaitTxConfirmation] calls that wait for [getTx] *)
  watchers : list ref;
  wallet : Wallet.t;
  hub : Hub.t;
  (** [FaucetDatabase.updateClaimData] calls, oldest first *)
  claimWrites : list (string * ClaimData);
  (** the sessions written by [FaucetDatabase.updateSession], oldest first *)
  sessionWrites : list Session.FaucetSessionStoreData;
  (** whether [CwWalletManager.getQueryClient()] returns a client: the
      field is assigned at the end of [startClient] and is [undefined]
      as long as no connection was made *)
  queryClient : bool;
  (** whether [ModuleManager.getModule("faucet-outflow")] finds a module *)
  outflowModule : bool;
}.

Definition upd_mgr (f : t -> t) (s : Sys) : Sys :=
  {| mgr := f (mgr s); objects := objects s; watchers := watchers s;
     wallet := wallet s; hub := hub s; claimWrites := claimWrites s;
     sessionWrites := sessionWrites s;
     queryClient := queryClient s; outflowModule := outflowModule s |}.

Definition set_objects (o : list ClaimInfo) (s : Sys) : Sys :=
  {| mgr := mgr s; objects := o; watchers := watchers s;
     wallet := wallet s; hub := hub s; claimWrites := claimWrites s;
     sessionWrites := sessionWrites s;
     queryClient := queryClient s; outflowModule := outflowModule s |}.

Definition set_watchers (w : list ref) (s : Sys) : Sys :=
  {| mgr := mgr s; objects := objects s; watchers := w;
     wallet := wallet s; hub := hub s; claimWrites := claimWrites s;
     sessionWrites := sessionWrites s;
     queryClient := queryClient s; outflowModule := outflowModule s |}.

Definition set_wallet (w : Wallet.t) (s : Sys) : Sys :=
  {| mgr := mgr s; objects := objects s; watchers := watchers s;
     wallet := w; hub := hub s; claimWrites := claimWrites s;
     sessionWrites := sessionWrites s;
     queryClient := queryClient s; outflowModule := outflowModule s |}.

Definition set_hub (h : Hub.t) (s : Sys) : Sys :=
  {| mgr := mgr s; objects := objects s; watchers := watchers s;
     wallet := wallet s; hub := h; claimWrites := claimWrites s;
     sessionWrites := sessionWrites s;
     queryClient := queryClient s; outflowModule := outflowModule s |}.

Definition set_claimWrites (l : list (string * ClaimData)) (s : Sys) : Sys :=
  {| mgr := mgr s; objects := objects s; watchers := watchers s;
     wallet := wallet s; hub := hub s; claimWrites := l;
     sessionWrites := sessionWrites s;
     queryClient := queryClient s; outflowModule := outflowModule s |}.

Definition set_sessionWrites (l : list Session.FaucetSessionStoreData) (s : Sys) : Sys :=
  {| mgr := mgr s; objects := objects s; watchers := watchers s;
     wallet := wallet s; hub := hub s; claimWrites := claimWrites s;
     sessionWrites := l;
     queryClient := queryClient s; outflowModule := outflowModule s |}.

Definition set_initialized (b : bool) (m : t) : t :=
  {| initialized := b; claimTxDict := claimTxDict m; claimTxQueue := claimTxQueue m;
     pendingTxQueue := pendingTxQueue m; historyTxDict := historyTxDict m;
     queueProcessing := queueProcessing m; lastClaimTxIdx := lastClaimTxIdx m;
     lastProcessedClaimTxIdx := lastProcessedClaimTxIdx m;
     lastConfirmedClaimTxIdx := lastConfirmedClaimTxIdx m;
     lastNotificationData := lastNotificationData m |}.

Definition set_claimTxDict (d : gmap string ref) (m : t) : t :=
  {| initialized := initialized m; claimTxDict := d; claimTxQueue := claimTxQueue m;
     pendingTxQueue := pendingTxQueue m; historyTxDict := historyTxDict m;
     queueProcessing := queueProcessing m; lastClaimTxIdx := lastClaimTxIdx m;
     lastProcessedClaimTxIdx := lastProcessedClaimTxIdx m;
     lastConfirmedClaimTxIdx := lastConfirmedClaimTxIdx m;
     lastNotificationData := lastNotificationData m |}.

Definition set_claimTxQueue (q : list ref) (m : t) : t :=
  {| initialized := initialized m; claimTxDict := claimTxDict m; claimTxQueue := q;
     pendingTxQueue := pendingTxQueue m; historyTxDict := historyTxDict m;
     queueProcessing := queueProcessing m; lastClaimTxIdx := lastClaimTxIdx m;
     lastProcessedClaimTxIdx := lastProcessedClaimTxIdx m;
     lastConfirmedClaimTxIdx := lastConfirmedClaimTxIdx m;
     lastNotificationData := lastNotificationData m |}.

Definition set_pendingTxQueue (p : gmap string ref) (m : t) : t :=
  {| initialized := initialized m; claimTxDict := claimTxDict m;
     claimTxQueue := claimTxQueue m;
     pendingTxQueue := p; historyTxDict := historyTxDict m;
     queueProcessing := queueProcessing m; lastClaimTxIdx := lastClaimTxIdx m;
     lastProcessedClaimTxIdx := lastProcessedClaimTxIdx m;
     lastConfirmedClaimTxIdx := lastConfirmedClaimTxIdx m;
     lastNotificationData := lastNotificationData m |}.

Definition set_historyTxDict (h : gmap Z ref) (m : t) : t :=
  {| initialized := initialized m; claimTxDict := claimTxDict m;
     claimTxQueue := claimTxQueue m;
     pendingTxQueue := pendingTxQueue m; historyTxDict := h;
     queueProcessing := queueProcessing m; lastClaimTxIdx := lastClaimTxIdx m;
     lastProcessedClaimTxIdx := lastProcessedClaimTxIdx m;
     lastConfirmedClaimTxIdx := lastConfirmedClaimTxIdx m;
     lastNotificationData := lastNotificationData m |}.

Definition set_queueProcessing (b : bool) (m : t) : t :=
  {| initialized := initialized m; claimTxDict := claimTxDict m;
     claimTxQueue := claimTxQueue m;
     pendingTxQueue := pendingTxQueue m; historyTxDict := historyTxDict m;
     queueProcessing := b; lastClaimTxIdx := lastClaimTxIdx m;
     lastProcessedClaimTxIdx := lastProcessedClaimTxIdx m;
     lastConfirmedClaimTxIdx := lastConfirmedClaimTxIdx m;
     lastNotificationData := lastNotificationData m |}.

Definition set_lastClaimTxIdx (i : Z) (m : t) : t :=
  {| initialized := initialized m; claimTxDict := claimTxDict m;
     claimTxQueue := claimTxQueue m;
     pendingTxQueue := pendingTxQueue m; historyTxDict := historyTxDict m;
     queueProcessing := queueProcessing m; lastClaimTxIdx := i;
     lastProcessedClaimTxIdx := lastProcessedClaimTxIdx m;
     lastConfirmedClaimTxIdx := lastConfirmedClaimTxIdx m;
     lastNotificationData := lastNotificationData m |}.

Definition set_lastProcessedClaimTxIdx (i : Z) (m : t) : t :=
  {| initialized := initialized m; claimTxDict := claimTxDict m;
     claimTxQueue := claimTxQueue m;
     pendingTxQueue := pendingTxQueue m; historyTxDict := historyTxDict m;
     queueProcessing := queueProcessing m; lastClaimTxIdx := lastClaimTxIdx m;
     lastProcessedClaimTxIdx := i;
     lastConfirmedClaimTxIdx := lastConfirmedClaimTxIdx m;
     lastNotificationData := lastNotificationData m |}.

Definition set_lastConfirmedClaimTxIdx (i : Z) (m : t) : t :=
  {| initialized := initialized m; claimTxDict := claimTxDict m;
     claimTxQueue := claimTxQueue m;
     pendingTxQueue := pendingTxQueue m; historyTxDict := historyTxDict m;
     queueProcessing := queueProcessing m; lastClaimTxIdx := lastClaimTxIdx m;
     lastProcessedClaimTxIdx := lastProcessedClaimTxIdx m;
     lastConfirmedClaimTxIdx := i;
     lastNotificationData := lastNotificationData m |}.

(** Reading and writing an object through a reference. *)
Definition deref (s : Sys) (r : ref) : ClaimInfo := objects s !!! r.

Definition mutate (f : ClaimData -> ClaimData) (r : ref) (s : Sys) : Sys :=
  set_objects (alter (map_claim f) r (objects s)) s.

(** [new] object: the reference and the extended store. *)
Definition alloc (ci : ClaimInfo) (s : Sys) : ref * Sys :=
  (length (objects s), set_objects (objects s ++ [ci]) s).

(** The outside world of the claim manager. *)
Record World := {
  chain : Chain;
  (** [processActionHooks([], SessionClaim, [claimInfo, userInput])]:
      the hooks may change the claim info they are handed, or throw *)
  sessionClaimHooks : ClaimInfo -> string -> Res ClaimInfo;
  (** [FaucetDatabase.updateSession] *)
  updateSession : Session.FaucetSessionStoreData -> Res unit;
}.

(** What [queryClient.getTx] found. *)
Record IndexedTx := {
  code : Z;
  tx_height : Z;
}.

(** The last statement of [updateClaimStatus]: the call of
    [FaucetDatabase.updateClaimData], which is recorded. *)
Definition updateClaimData (r : ref) (s : Sys) : Sys :=
  set_claimWrites (claimWrites s ++ [(session (deref s r), claim (deref s r))]) s.

(** [BigInt(claimInfo.claim.txFee || 0)] *)
Definition outflow_fee (c : ClaimData) : Res Z :=
  if truthy (txFee c) then BigInt_opt (txFee c) else ok 0.

(** [updateClaimStatus].  For a [CONFIRMED] claim the hooks of
    [SessionClaimed] are started (their promise is not awaited), the
    faucet-outflow module, if there is one, is handed
    [BigInt(claimInfo.claim.txFee || 0)], whose argument is evaluated
    only then, and the statistics are written; these three are outside.
    Then the claim is written to the database.  The [BigInt] throws on
    a fee it cannot read, before the write. *)
Definition updateClaimStatus (r : ref) (s : Sys) : Res Sys :=
  match claimStatus (claim (deref s r)) with
  | CONFIRMED =>
      if outflowModule s then
        match outflow_fee (claim (deref s r)) with
        | inl e => throw e
        | inr _ => ok (updateClaimData r s)
        end
      else ok (updateClaimData r s)
  | _ => ok (updateClaimData r s)
  end.

(** [if (txHash) delete this.pendingTxQueue[txHash]] *)
Definition delete_pending (h : option string) (s : Sys) : Sys :=
  match h with
  | Some k =>
      if truthy h
      then upd_mgr (fun m => set_pendingTxQueue (delete k (pendingTxQueue m)) m) s
      else s
  | None => s
  end.

(** [delete this.claimTxDict[session]] *)
Definition delete_claimTx (k : string) (s : Sys) : Sys :=
  upd_mgr (fun m => set_claimTxDict (delete k (claimTxDict m)) m) s.

(** The [finally] block of [awaitTxConfirmation]. *)
Definition keep_history (r : ref) (s : Sys) : Sys :=
  upd_mgr (fun m =>
    set_historyTxDict (<[sequence (Wallet.walletState (wallet s)) := r]> (historyTxDict m)) m) s.

(** The timer set in the [finally] block, when it fires. *)
Definition evict_history (sq : Z) (s : Sys) : Sys :=
  upd_mgr (fun m => set_historyTxDict (delete sq (historyTxDict m)) m) s.

(** The [catch] block of [awaitTxConfirmation], then [finally].  The
    claim is [FAILED] when [updateClaimStatus] is called, which is
    then the database write alone. *)
Definition confirmation_failed (err : Exn) (r : ref) (s : Sys) : Sys :=
  let s1 := delete_pending (txHash (claim (deref s r))) s in
  let s2 := delete_claimTx (session (deref s1 r)) s1 in
  let s3 := mutate (set_claimStatus FAILED) r s2 in
  let s4 := mutate (set_txError ("Transaction Error: " +:+ Exn_toString err)) r s3 in
  keep_history r (updateClaimData r s4).

(** The [try] block after [getTx] answered with code 0, up to the
    call of [updateClaimStatus]. *)
Definition confirmation_assigned (cfg : FaucetConfig) (tx : IndexedTx) (r : ref)
    (s : Sys) : Sys :=
  let s1 := delete_pending (txHash (claim (deref s r))) s in
  let s2 := delete_claimTx (session (deref s1 r)) s1 in
  let s3 := mutate (set_txHeight (tx_height tx)) r s2 in
  let s4 := mutate (set_txFee (cwGasAmount cfg)) r s3 in
  let s5 := upd_mgr (set_lastConfirmedClaimTxIdx (claimIdx (claim (deref s4 r)))) s4 in
  mutate (set_claimStatus CONFIRMED) r s5.

(** The [try] block after [getTx] answered with code 0, then [finally].
    An exception of [updateClaimStatus] is caught by the [catch] block
    of [awaitTxConfirmation], after the assignments before it. *)
Definition confirmation_succeeded (cfg : FaucetConfig) (tx : IndexedTx) (r : ref)
    (s : Sys) : Sys :=
  let s6 := confirmation_assigned cfg tx r s in
  match updateClaimStatus r s6 with
  | inr s7 => keep_history r s7
  | inl e => confirmation_failed e r s6
  end.

(** The call [this.awaitTxConfirmation(claimTx)]: the function runs
    up to its first [await].  Without a transaction hash it throws
    before that, and so does [client.getTx] when the wallet manager
    has no query client; its [catch] and [finally] blocks then run at
    once. *)
Definition awaitTxConfirmation (r : ref) (s : Sys) : Sys :=
  if truthy (txHash (claim (deref s r))) then
    if queryClient s then set_watchers (watchers s ++ [r]) s
    else
      confirmation_failed
        (JsError "TypeError: Cannot read properties of undefined (reading 'getTx')") r s
  else confirmation_failed (JsError "Error: Transaction hash is undefined") r s.

Fixpoint remove_first (r : ref) (l : list ref) : list ref :=
  match l with
  | [] => []
  | x :: l' => if Nat.eqb x r then l' else x :: remove_first r l'
  end.

(** [getTx] answers a waiting watcher and [awaitTxConfirmation] runs
    to its end.  The answer is an exception, [null], or a transaction. *)
Definition getTx_resolved (cfg : FaucetConfig) (r : ref) (reply : Res (option IndexedTx))
    (s : Sys) : Sys :=
  if bool_decide (r ∈ watchers s) then
    let s0 := set_watchers (remove_first r (watchers s)) s in
    match reply with
    | inl e => confirmation_failed e r s0
    | inr None => confirmation_failed (JsError "Error: Transaction failed") r s0
    | inr (Some tx) =>
        if code tx =? 0 then confirmation_succeeded cfg tx r s0
        else confirmation_failed (JsError "Error: Transaction failed") r s0
    end
  else s.

(** ** [initialize] *)

(** [Array.prototype.sort] with the comparator
    [a.claim.claimIdx - b.claim.claimIdx]: a stable sort on the key. *)
Fixpoint insert_sorted (key : ref -> Z) (r : ref) (l : list ref) : list ref :=
  match l with
  | [] => [r]
  | x :: l' => if key r <=? key x then r :: l else x :: insert_sorted key r l'
  end.

Definition sort_by (key : ref -> Z) (l : list ref) : list ref :=
  foldr (insert_sorted key) [] l.

Definition claimInfo_of (sd : Session.FaucetSessionStoreData) (c : ClaimData) : ClaimInfo :=
  {| session := Session.sessionId sd; target := Session.targetAddr sd;
     amount := Session.dropAmount sd; claim := c |}.

Definition push_queue (r : ref) (s : Sys) : Sys :=
  upd_mgr (fun m => set_claimTxQueue (claimTxQueue m ++ [r]) m) s.

Definition put_claimTx (k : string) (r : ref) (s : Sys) : Sys :=
  upd_mgr (fun m => set_claimTxDict (<[k := r]> (claimTxDict m)) m) s.

Definition put_pending (k : string) (r : ref) (s : Sys) : Sys :=
  upd_mgr (fun m => set_pendingTxQueue (<[k := r]> (pendingTxQueue m)) m) s.

(** [if (claimInfo.claim.txHash) this.pendingTxQueue[txHash] = claimInfo] *)
Definition put_pending_opt (h : option string) (r : ref) (s : Sys) : Sys :=
  match h with
  | Some k => if truthy h then put_pending k r s else s
  | None => s
  end.

(** The callback of [storedSession.forEach], on the running maximum
    [maxQueueIdx] and the system.  [sessionData.claim!] of a session
    without claim record makes [claimInfo.claim.claimStatus] throw. *)
Definition restoreSession (sd : Session.FaucetSessionStoreData) (st : Z * Sys)
    : Res (Z * Sys) :=
  let '(maxQueueIdx, s) := st in
  match Session.claim sd with
  | None =>
      throw (JsError "TypeError: Cannot read properties of undefined (reading 'claimStatus')")
  | Some c =>
      let bump (s' : Sys) :=
        ok (if claimIdx c >? maxQueueIdx then claimIdx c else maxQueueIdx, s') in
      match claimStatus c with
      | QUEUE | PROCESSING =>
          let '(r, s1) := alloc (claimInfo_of sd c) s in
          bump (put_claimTx (Session.sessionId sd) r (push_queue r s1))
      | PENDING =>
          let '(r, s1) := alloc (claimInfo_of sd c) s in
          bump (awaitTxConfirmation r
                  (put_claimTx (Session.sessionId sd) r (put_pending_opt (txHash c) r s1)))
      | _ => ok (maxQueueIdx, s)
      end
  end.

Fixpoint restoreSessions (l : list Session.FaucetSessionStoreData) (st : Z * Sys)
    : option Exn * (Z * Sys) :=
  match l with
  | [] => (None, st)
  | sd :: l' =>
      match restoreSession sd st with
      | inl e => (Some e, st)
      | inr st' => restoreSessions l' st'
      end
  end.

(** [initialize], given the sessions the database returned for the
    status [CLAIMING]; the result is the exception that ended it, if
    any, and the system. *)
Definition initialize (storedSession : list Session.FaucetSessionStoreData) (s : Sys)
    : option Exn * Sys :=
  if initialized (mgr s) then (None, s)
  else
    match restoreSessions storedSession (0, upd_mgr (set_initialized true) s) with
    | (Some e, (_, s')) => (Some e, s')
    | (None, (maxQueueIdx, s')) =>
        (None,
         upd_mgr (fun m =>
           set_lastClaimTxIdx (maxQueueIdx + 1)
             (set_claimTxQueue
                (sort_by (fun r => claimIdx (claim (deref s' r))) (claimTxQueue m)) m)) s')
    end.

(** ** Queries *)

(** [getQueuedAmount]: the sum of [BigInt(claimTx.amount)] over the
    queue, front to back. *)
Fixpoint sum_amounts (l : list ClaimInfo) (totalPending : Z) : Res Z :=
  match l with
  | [] => ok totalPending
  | ci :: l' =>
      match BigInt (amount ci) with
      | inl e => throw e
      | inr a => sum_amounts l' (totalPending + a)
      end
  end.

Definition getQueuedAmount (s : Sys) : Res Z :=
  sum_amounts (map (deref s) (claimTxQueue (mgr s))) 0.

Definition getLastProcessedClaimIdx (s : Sys) : Z := lastProcessedClaimTxIdx (mgr s).

(** ** [createSessionClaim] *)

(** The text of a status in the message of [NOT_CLAIMABLE]: the string
    values of the enumeration, which is declared outside the sources. *)
Definition status_name (st : Session.FaucetSessionStatus) : string :=
  match st with
  | Session.UNKNOWN => "unknown" | Session.STARTING => "starting"
  | Session.RUNNING => "running" | Session.CLAIMABLE => "claimable"
  | Session.CLAIMING => "claiming" | Session.FINISHED => "finished"
  | Session.FAILED => "failed"
  end.

(** The five guards at the head of [createSessionClaim], in program
    order; a [BigInt] that cannot read its argument throws in passing. *)
Definition check_claim (cfg : FaucetConfig) (sd : Session.FaucetSessionStoreData)
    (s : Sys) : Res unit :=
  if negb (Session.status_eqb (Session.status sd) Session.CLAIMABLE) then
    throw (FaucetError "NOT_CLAIMABLE"
             ("Cannot claim session: not claimable (state: "
                +:+ status_name (Session.status sd) +:+ ")"))
  else
    match BigInt (Session.dropAmount sd) with
    | inl e => throw e
    | inr d =>
    match BigInt (cwMinAmount cfg) with
    | inl e => throw e
    | inr lo =>
    if d <? lo then throw (FaucetError "AMOUNT_TOO_LOW" "Drop amount lower than minimum")
    else
    match BigInt (Session.dropAmount sd) with
    | inl e => throw e
    | inr d' =>
    match BigInt (cwMaxAmount cfg) with
    | inl e => throw e
    | inr hi =>
    if d' >? hi then throw (FaucetError "AMOUNT_TOO_HIGH" "Drop amount higher than maximum")
    else if negb (String.prefix (cwAddressPrefix cfg) (Session.targetAddr sd)) then
      throw (FaucetError "INVALID_ADDRESS" "Invalid address format")
    else
      match claimTxDict (mgr s) !! Session.sessionId sd with
      | Some _ =>
          throw (FaucetError "RACE_CLAIMING"
                   "Cannot claim session: already claiming (race condition)")
      | None => ok tt
      end
    end end end end.

(** [createSessionClaim] gives up control at its two [await]s.  Up
    to the first it tests the guards, makes the claim object and takes
    the next index; the result is the exception or the new object. *)
Definition createSessionClaim_begin (cfg : FaucetConfig) (now : Z)
    (sessionData : Session.FaucetSessionStoreData) (s : Sys) : Res ClaimInfo * Sys :=
  match check_claim cfg sessionData s with
  | inl e => (throw e, s)
  | inr _ =>
      let claimInfo :=
        {| session := Session.sessionId sessionData;
           target := Session.targetAddr sessionData;
           amount := Session.dropAmount sessionData;
           claim := {| claimIdx := lastClaimTxIdx (mgr s); claimStatus := QUEUE;
                       claimTime := now; txHash := None; txHeight := None;
                       txFee := None; txError := None |} |} in
      (* this.lastClaimTxIdx++ *)
      (ok claimInfo, upd_mgr (fun m => set_lastClaimTxIdx (lastClaimTxIdx m + 1) m) s)
  end.

(** From the answer of the hooks to the call of [updateSession]: the
    exception that leaves the function, or the claim object and the
    session record that goes to the database. *)
Definition createSessionClaim_hooked (w : World)
    (sessionData : Session.FaucetSessionStoreData) (userInput : string)
    (claimInfo : ClaimInfo) : Res (ClaimInfo * Session.FaucetSessionStoreData) :=
  match sessionClaimHooks w claimInfo userInput with
  | inl (FaucetError c m) => throw (FaucetError c m)
  | inl ex =>
      throw (FaucetError "INTERNAL_ERROR" ("claimSession failed: " +:+ Exn_toString ex))
  | inr claimInfo' =>
      ok (claimInfo',
          {| Session.sessionId := Session.sessionId sessionData;
             Session.status := Session.CLAIMING;
             Session.targetAddr := Session.targetAddr sessionData;
             Session.dropAmount := amount claimInfo';
             Session.claim := Some (claim claimInfo') |})
  end.

(** From the answer of [updateSession] to the end: the claim enters
    the queue and [claimTxDict]. *)
Definition createSessionClaim_end (w : World) (claimInfo' : ClaimInfo)
    (sessionData' : Session.FaucetSessionStoreData) (s : Sys)
    : Res (ref * ClaimInfo) * Sys :=
  match updateSession w sessionData' with
  | inl e => (throw e, s)
  | inr _ =>
      let s2 := set_sessionWrites (sessionWrites s ++ [sessionData']) s in
      let '(r, s3) := alloc claimInfo' s2 in
      (ok (r, claimInfo'), put_claimTx (session claimInfo') r (push_queue r s3))
  end.

(** [createSessionClaim] at the time [now] (seconds), when nothing
    else happens while it waits for the hooks and for the database;
    the result is the new claim (its reference and its content) or the
    exception.  [createSessionClaim_during] below is the request among
    other activity, of which this one is the case that nothing happens
    in between. *)
Definition createSessionClaim (cfg : FaucetConfig) (w : World) (now : Z)
    (sessionData : Session.FaucetSessionStoreData) (userInput : string) (s : Sys)
    : Res (ref * ClaimInfo) * Sys :=
  match check_claim cfg sessionData s with
  | inl e => (throw e, s)
  | inr _ =>
      let claimInfo :=
        {| session := Session.sessionId sessionData;
           target := Session.targetAddr sessionData;
           amount := Session.dropAmount sessionData;
           claim := {| claimIdx := lastClaimTxIdx (mgr s); claimStatus := QUEUE;
                       claimTime := now; txHash := None; txHeight := None;
                       txFee := None; txError := None |} |} in
      (* this.lastClaimTxIdx++ *)
      let s1 := upd_mgr (fun m => set_lastClaimTxIdx (lastClaimTxIdx m + 1) m) s in
      match sessionClaimHooks w claimInfo userInput with
      | inl (FaucetError c m) => (throw (FaucetError c m), s1)
      | inl ex =>
          (throw (FaucetError "INTERNAL_ERROR"
                    ("claimSession failed: " +:+ Exn_toString ex)), s1)
      | inr claimInfo' =>
          let sessionData' :=
            {| Session.sessionId := Session.sessionId sessionData;
               Session.status := Session.CLAIMING;
               Session.targetAddr := Session.targetAddr sessionData;
               Session.dropAmount := amount claimInfo';
               Session.claim := Some (claim claimInfo') |} in
          match updateSession w sessionData' with
          | inl e => (throw e, s1)
          | inr _ =>
              let s2 := set_sessionWrites (sessionWrites s1 ++ [sessionData']) s1 in
              let '(r, s3) := alloc claimInfo' s2 in
              (ok (r, claimInfo'), put_claimTx (session claimInfo') r (push_queue r s3))
          end
      end
  end.

(** ** The queue tick *)

(** [processQueueTx]; an exception escapes only from the [BigInt] of
    the second guard, which stands before the [try].  Each call of
    [updateClaimStatus] is made with a claim that has just been set to
    [FAILED] or [PENDING]: it is the database write. *)
Definition processQueueTx (cfg : FaucetConfig) (w : World) (r : ref) (s : Sys)
    : Res unit * Sys :=
  let walletState := Wallet.getWalletState (wallet s) in
  if negb (ready walletState) then
    let s1 := mutate (set_claimStatus FAILED) r s in
    let s2 := mutate (set_txError "Network RPC is currently unreachable.") r s1 in
    (ok tt, updateClaimData r s2)
  else
    match BigInt (cwMinGasAmount cfg) with
    | inl e => (throw e, s)
    | inr minGas =>
        if nativeBalance walletState <=? minGas then
          let s1 := mutate (set_claimStatus FAILED) r s in
          let s2 := mutate (set_txError "Faucet wallet is out of gas funds.") r s1 in
          (ok tt, updateClaimData r s2)
        else
          let s1 := mutate (set_claimStatus PROCESSING) r s in
          match Wallet.sendTokens cfg (chain w) (target (deref s1 r)) (amount (deref s1 r))
                  (wallet s1) with
          | (inl ex, wallet') =>
              let s2 := set_wallet wallet' s1 in
              let s3 := mutate (set_claimStatus FAILED) r s2 in
              let s4 :=
                mutate (set_txError ("Processing Exception: " +:+ Exn_toString ex)) r s3 in
              (ok tt, updateClaimData r s4)
          | (inr res, wallet') =>
              let s2 := set_wallet wallet' s1 in
              let s3 := mutate (set_txHash (tr_txHash res)) r s2 in
              let s4 := put_pending (tr_txHash res) r s3 in
              let s5 := mutate (set_claimStatus PENDING) r s4 in
              (ok tt, awaitTxConfirmation r (updateClaimData r s5))
          end
    end.

(** The condition of the [if] inside the loop,
    [!walletState.ready || walletState.nativeBalance <= BigInt(cwMinGasAmount)],
    in a tick during which nothing else happens: the wallet state
    object the tick fetched is then still the wallet manager's own,
    which [sendTokens] updates in place.  The tick among other
    activity, where [loadWalletState] can put a new object in its
    place, is [processQueue_during] below. *)
Definition out_of_gas (cfg : FaucetConfig) (s : Sys) : Res bool :=
  let walletState := Wallet.getWalletState (wallet s) in
  if negb (ready walletState) then ok true
  else
    match BigInt (cwMinGasAmount cfg) with
    | inl e => throw e
    | inr minGas => ok (nativeBalance walletState <=? minGas)
    end.

(** How one round of the [while] loop ends. *)
Inductive Round :=
| Left            (** the loop condition failed, or [break] *)
| Raised (e : Exn)
| Again.

(** One evaluation of the loop condition and, when it holds, of the
    loop body. *)
Definition processQueue_round (cfg : FaucetConfig) (w : World) (s : Sys) : Round * Sys :=
  if Z.of_nat (size (pendingTxQueue (mgr s))) <? cwMaxPending cfg then
    match claimTxQueue (mgr s) with
    | [] => (Left, s)
    | claimTx :: rest =>
        match out_of_gas cfg s with
        | inl e => (Raised e, s)
        | inr true => (Left, s)
        | inr false =>
            (* const claimTx = this.claimTxQueue.splice(0, 1)[0] *)
            let s1 := upd_mgr (set_claimTxQueue rest) s in
            let s2 :=
              upd_mgr (set_lastProcessedClaimTxIdx (claimIdx (claim (deref s1 claimTx)))) s1 in
            match processQueueTx cfg w claimTx s2 with
            | (inl e, s3) => (Raised e, s3)
            | (inr _, s3) => (Again, s3)
            end
        end
    end
  else (Left, s).

(** The [while] loop.  Every round that asks for another one has taken
    a claim off the queue, so [fuel] rounds suffice when [fuel] is the
    length of the queue. *)
Fixpoint processQueue_loop (cfg : FaucetConfig) (w : World) (fuel : nat) (s : Sys)
    : option Exn * Sys :=
  match processQueue_round cfg w s with
  | (Left, s') => (None, s')
  | (Raised e, s') => (Some e, s')
  | (Again, s') =>
      match fuel with
      | O => (None, s')
      | S fuel' => processQueue_loop cfg w fuel' s'
      end
  end.

(** The test that guards the broadcast. *)
Definition notification_due (s : Sys) : bool :=
  match lastNotificationData (mgr s) with
  | None => true
  | Some d =>
      negb (processedIdx d =? lastProcessedClaimTxIdx (mgr s))
      || negb (confirmedIdx d =? lastConfirmedClaimTxIdx (mgr s))
  end.

Definition notify (s : Sys) : Sys :=
  if notification_due s then
    set_hub (Hub.broadcastClaimNotification
               {| processedIdx := lastProcessedClaimTxIdx (mgr s);
                  confirmedIdx := lastConfirmedClaimTxIdx (mgr s) |} (hub s)) s
  else s.

(** [processQueue], one tick of the 2 s interval, when nothing else
    happens while it waits for the chain; [processQueue_during] below
    is the tick among other activity, of which this one is the case of
    the empty schedule. *)
Definition processQueue (cfg : FaucetConfig) (w : World) (s : Sys) : Sys :=
  if queueProcessing (mgr s) then s
  else
    let s1 := upd_mgr (set_queueProcessing true) s in
    let s2 :=
      match processQueue_loop cfg w (length (claimTxQueue (mgr s1))) s1 with
      | (None, s') => notify s'
      | (Some _, s') => s'
      end in
    upd_mgr (set_queueProcessing false) s2.

(** [dispose] *)
Definition dispose (s : Sys) : Sys :=
  if initialized (mgr s)
  then set_hub (Hub.resetClaimNotification (hub s)) (upd_mgr (set_initialized false) s)
  else s.

End ClaimManager.

(** * [CwWalletRefill] *)
Module Refill.
Import ClaimManager.

Record t := {
  lastRefillTime : Z;
  lastRefillTry : Z;
  isRefilling : bool;
}.

Definition fresh : t := {| lastRefillTime := 0; lastRefillTry := 0; isRefilling := false |}.

Inductive RefillAction := refill | overflow.

(** [availableBalance], or the exception of the [try] block up to it:
    the wallet must be ready; [unclaimedBalance] is what
    [SessionManager.getUnclaimedBalance()] returned. *)
Definition availableBalance (unclaimedBalance : Res Z) (s : Sys) : Res Z :=
  let walletState := Wallet.getWalletState (wallet s) in
  if negb (ready walletState) then throw (JsError "Error: Wallet not ready")
  else
    match unclaimedBalance with
    | inl e => throw e
    | inr unclaimed =>
        match getQueuedAmount s with
        | inl e => throw e
        | inr queuedAmount => ok (balance walletState - unclaimed - queuedAmount)
        end
    end.

(** The choice of [refillAction]. *)
Definition refillAction (cfg : FaucetConfig) (availableBalance : Z)
    : Res (option RefillAction) :=
  let refill_branch :=
    match BigInt_opt (cwRefillThreshold cfg) with
    | inl e => throw e
    | inr threshold => ok (if availableBalance <? threshold then Some refill else None)
    end in
  if truthy (cwRefillOverflowAmount cfg) then
    match BigInt_opt (cwRefillOverflowAmount cfg) with
    | inl e => throw e
    | inr overflowAmount =>
        if availableBalance >? overflowAmount then ok (Some overflow) else refill_branch
    end
  else refill_branch.

Definition executeRefill (cfg : FaucetConfig) (chain : Chain) (w : Wallet.t)
    : Res TransactionResult * Wallet.t :=
  match cwRefillContract cfg, cwRefillAmount cfg with
  | Some contract, Some amount =>
      if truthy (cwRefillContract cfg) && truthy (cwRefillAmount cfg) then
        Wallet.executeContract chain contract (withdraw amount) (Wallet.gasFee cfg) w
      else (throw (JsError "Error: Refill configuration missing"), w)
  | _, _ => (throw (JsError "Error: Refill configuration missing"), w)
  end.

Definition executeOverflow (cfg : FaucetConfig) (chain : Chain) (amount : string)
    (w : Wallet.t) : Res TransactionResult * Wallet.t :=
  match cwRefillContract cfg with
  | Some contract =>
      if truthy (cwRefillContract cfg) then
        Wallet.executeContract chain contract deposit
          {| fee_amount := [ {| denom := cwDenom cfg; coin_amount := amount |} ];
             gas := cwGasLimit cfg |} w
      else (throw (JsError "Error: Refill configuration missing"), w)
  | None => (throw (JsError "Error: Refill configuration missing"), w)
  end.

(** The inner [try] block: the transaction, the stamp of
    [lastRefillTime] at the time [now'], and the reload of the wallet
    state by [loadWalletState], whose queries return [load]. *)
Definition execute_action (cfg : FaucetConfig) (chain : Chain) (now' : Z)
    (load : Wallet.LoadReply) (action : RefillAction) (availableBalance : Z)
    (s : Sys) (rf : t) : Res unit * Sys * t :=
  let sent :=
    match action with
    | refill => executeRefill cfg chain (wallet s)
    | overflow =>
        match BigInt_opt (cwRefillOverflowAmount cfg) with
        | inl e => (throw e, wallet s)
        | inr overflowAmount =>
            executeOverflow cfg chain (Z_toString (availableBalance - overflowAmount))
              (wallet s)
        end
    end in
  match sent with
  | (inl e, wallet') => (throw e, set_wallet wallet' s, rf)
  | (inr txResult, wallet') =>
      if negb (truthy (Some (tr_txHash txResult))) then
        (throw (JsError "Error: No transaction hash returned"), set_wallet wallet' s, rf)
      else
        let rf1 := {| lastRefillTime := now'; lastRefillTry := lastRefillTry rf;
                      isRefilling := isRefilling rf |} in
        if negb (receipt_status (txPromise txResult)) then
          (throw (JsError "Error: Transaction failed"), set_wallet wallet' s, rf1)
        else
          (* an exception of [loadWalletState] is one of [updateFaucetStatus]
             in its [catch] block; the new wallet state is assigned before *)
          match FaucetStatus.loadWalletState cfg load wallet' with
          | (inl e, wallet'') => (throw e, set_wallet wallet'' s, rf1)
          | (inr _, wallet'') => (ok tt, set_wallet wallet'' s, rf1)
          end
  end.

Definition set_isRefilling (b : bool) (rf : t) : t :=
  {| lastRefillTime := lastRefillTime rf; lastRefillTry := lastRefillTry rf;
     isRefilling := b |}.

(** Both cooldowns have passed at the time [now]. *)
Definition cooled_down (cfg : FaucetConfig) (now : Z) (rf : t) : bool :=
  negb (negb (lastRefillTry rf =? 0) && (now - lastRefillTry rf <? 60))
  && negb (negb (lastRefillTime rf =? 0) && negb (cwRefillCooldown cfg =? 0)
           && (now - lastRefillTime rf <? cwRefillCooldown cfg)).

(** [tryRefillWallet]: [now] and [now'] are the two readings of the
    clock.  All exceptions end in the outer [catch], which logs them. *)
Definition tryRefillWallet (cfg : FaucetConfig) (chain : Chain) (now now' : Z)
    (unclaimedBalance : Res Z) (load : Wallet.LoadReply) (s : Sys) (rf : t) : Sys * t :=
  if negb (cwRefillEnabled cfg) || negb (truthy (cwRefillContract cfg)) then (s, rf)
  else if negb (cooled_down cfg now rf) then (s, rf)
  else
    let rf1 := {| lastRefillTime := lastRefillTime rf; lastRefillTry := now;
                  isRefilling := isRefilling rf |} in
    match availableBalance unclaimedBalance s with
    | inl _ => (s, set_isRefilling false rf1)
    | inr available =>
        match refillAction cfg available with
        | inl _ => (s, set_isRefilling false rf1)
        | inr None => (s, set_isRefilling false rf1)
        | inr (Some action) =>
            let '(_, s', rf2) :=
              execute_action cfg chain now' load action available s
                (set_isRefilling true rf1) in
            (s', set_isRefilling false rf2)
        end
    end.

End Refill.

(** * Successive transfers and the stated format *)


(** The format of [readableAmount] in the words of the specification:
    [k] thousandths written as a decimal without trailing zeros, where
    [k] is [amount / 10^decimals] cut after the third fractional digit,
    then a blank and the symbol. *)
Fixpoint strip_zeros (fuel : nat) (n : Z) : Z :=
  match fuel with
  | O => n
  | S fuel' => if (n mod 10 =? 0) && negb (n =? 0) then strip_zeros fuel' (n / 10) else n
  end.

Definition thousandths (k : Z) : string :=
  let whole := Z_toString (k / 1000) in
  let frac := k mod 1000 in
  if frac =? 0 then whole
  else
    let pad := if frac <? 10 then "00" else if frac <? 100 then "0" else "" in
    whole +:+ "." +:+ pad +:+ Z_toString (strip_zeros 3 frac).

Definition truncated_readableAmount (cfg : FaucetConfig) (amount : Z) : string :=
  thousandths (amount * 1000 / 10 ^ Z.of_nat (cwDecimals cfg)) +:+ " " +:+ cwSymbol cfg.

(** [createSessionClaim] throws the faucet error [code] and leaves the
    system as it was. *)
Definition rejects (cfg : FaucetConfig) (w : ClaimManager.World) (now : Z)
    (sd : Session.FaucetSessionStoreData) (userInput : string) (s : ClaimManager.Sys)
    (code : string) : Prop :=
  exists message,
    ClaimManager.createSessionClaim cfg w now sd userInput s
    = (inl (FaucetError code message), s).

(** The gate of the queue: the wallet is ready and holds more native
    coins than the reserve [cwMinGasAmount]. *)
Definition gas_available (cfg : FaucetConfig) (s : ClaimManager.Sys) : Prop :=
  ready (Wallet.walletState (ClaimManager.wallet s)) = true /\
  exists minGas,
    parseBigInt (cwMinGasAmount cfg) = Some minGas /\
    minGas < nativeBalance (Wallet.walletState (ClaimManager.wallet s)).

(** The number of entries of [pendingTxQueue]. *)
Definition pending_count (s : ClaimManager.Sys) : Z :=
  Z.of_nat (size (ClaimManager.pendingTxQueue (ClaimManager.mgr s))).

(** [s'] has the queue, the counters, the flags and the hub of [s]. *)
Definition same_counters (s s' : ClaimManager.Sys) : Prop :=
  ClaimManager.claimTxQueue (ClaimManager.mgr s')
    = ClaimManager.claimTxQueue (ClaimManager.mgr s) /\
  ClaimManager.lastProcessedClaimTxIdx (ClaimManager.mgr s')
    = ClaimManager.lastProcessedClaimTxIdx (ClaimManager.mgr s) /\
  ClaimManager.lastConfirmedClaimTxIdx (ClaimManager.mgr s')
    = ClaimManager.lastConfirmedClaimTxIdx (ClaimManager.mgr s) /\
  ClaimManager.lastClaimTxIdx (ClaimManager.mgr s')
    = ClaimManager.lastClaimTxIdx (ClaimManager.mgr s) /\
  ClaimManager.lastNotificationData (ClaimManager.mgr s')
    = ClaimManager.lastNotificationData (ClaimManager.mgr s) /\
  ClaimManager.queueProcessing (ClaimManager.mgr s')
    = ClaimManager.queueProcessing (ClaimManager.mgr s) /\
  ClaimManager.initialized (ClaimManager.mgr s')
    = ClaimManager.initialized (ClaimManager.mgr s) /\
  ClaimManager.hub s' = ClaimManager.hub s.

(** [s'] has the manager's [lastNotificationData] and [queueProcessing]
    of [s]. *)
Definition same_flags (s s' : ClaimManager.Sys) : Prop :=
  ClaimManager.lastNotificationData (ClaimManager.mgr s')
    = ClaimManager.lastNotificationData (ClaimManager.mgr s) /\
  ClaimManager.queueProcessing (ClaimManager.mgr s')
    = ClaimManager.queueProcessing (ClaimManager.mgr s).

(** [getTx] found the transaction, with code 0. *)
Definition confirms (reply : Res (option ClaimManager.IndexedTx)) : bool :=
  match reply with
  | inr (Some tx) => ClaimManager.code tx =? 0
  | _ => false
  end.

(** [updateClaimStatus] of a confirmed claim goes through: there is no
    faucet-outflow module, or [BigInt(cwGasAmount || 0)] can be
    evaluated. *)
Definition fee_accepted (cfg : FaucetConfig) (s : ClaimManager.Sys) : bool :=
  negb (ClaimManager.outflowModule s)
  || negb (truthy (Some (cwGasAmount cfg)))
  || match parseBigInt (cwGasAmount cfg) with Some _ => true | None => false end.

(** A stored session in the substatus [PENDING] with a transaction
    hash: the ones [initialize] puts into [pendingTxQueue]. *)
Definition pending_with_hash (sd : Session.FaucetSessionStoreData) : bool :=
  match Session.claim sd with
  | Some c =>
      match claimStatus c with
      | PENDING => truthy (txHash c)
      | _ => false
      end
  | None => false
  end.

(** ** The stored sessions, as [initialize] sorts them *)

(** Substatus [QUEUE] or [PROCESSING]: goes back into the queue. *)
Definition restorable_queue (sd : Session.FaucetSessionStoreData) : bool :=
  match Session.claim sd with
  | Some c =>
      match claimStatus c with
      | QUEUE | PROCESSING => true
      | _ => false
      end
  | None => false
  end.

(** Substatus [QUEUE], [PROCESSING] or [PENDING]: the sessions that
    count for the next claim index. *)
Definition restored (sd : Session.FaucetSessionStoreData) : bool :=
  match Session.claim sd with
  | Some c =>
      match claimStatus c with
      | QUEUE | PROCESSING | PENDING => true
      | _ => false
      end
  | None => false
  end.

(** The transaction hash under which a stored session is pending. *)
Definition pending_hash (sd : Session.FaucetSessionStoreData) : option string :=
  if pending_with_hash sd then
    match Session.claim sd with
    | Some c => txHash c
    | None => None
    end
  else None.

Definition stored_claimIdx (sd : Session.FaucetSessionStoreData) : Z :=
  match Session.claim sd with
  | Some c => claimIdx c
  | None => 0
  end.

(** The [ClaimInfo] that [initialize] builds for a stored session. *)
Definition stored_claim (sd : Session.FaucetSessionStoreData) : ClaimInfo :=
  match Session.claim sd with
  | Some c => ClaimManager.claimInfo_of sd c
  | None => inhabitant
  end.

(** The greatest [claimIdx] among the restored sessions, 0 if none. *)
Definition max_claimIdx (l : list Session.FaucetSessionStoreData) : Z :=
  foldr (fun sd m => if restored sd then Z.max (stored_claimIdx sd) m else m) 0 l.

(** Ascending order of [claimIdx]. *)
Definition claimIdx_le (a b : ClaimInfo) : Prop := claimIdx (claim a) <= claimIdx (claim b).

(** Recovery of the sessions [l] led from [s] to [s']: what it left
    alone.  The claim objects and the queue were only extended, the
    new part of the queue being the [QUEUE] and [PROCESSING] sessions
    in their stored order; watchers were only added; the dictionaries
    changed only at the session ids and transaction hashes of [l]. *)
Definition recovery_frame (l : list Session.FaucetSessionStoreData)
    (s s' : ClaimManager.Sys) : Prop :=
  (exists extra, ClaimManager.objects s' = ClaimManager.objects s ++ extra) /\
  (exists q,
     ClaimManager.claimTxQueue (ClaimManager.mgr s')
       = ClaimManager.claimTxQueue (ClaimManager.mgr s) ++ q /\
     map (ClaimManager.deref s') q = map stored_claim (List.filter restorable_queue l)) /\
  (exists ws, ClaimManager.watchers s' = ClaimManager.watchers s ++ ws) /\
  (forall k, k ∉ map Session.sessionId l ->
     ClaimManager.claimTxDict (ClaimManager.mgr s') !! k
       = ClaimManager.claimTxDict (ClaimManager.mgr s) !! k) /\
  (forall h, h ∉ omap pending_hash l ->
     ClaimManager.pendingTxQueue (ClaimManager.mgr s') !! h
       = ClaimManager.pendingTxQueue (ClaimManager.mgr s) !! h).

(** Where recovery of the sessions [l] has put each of them in [s'];
    [client] tells whether the wallet manager had a query client, without
    which no confirmation watcher can wait. *)
Definition recovery_placement (client : bool) (l : list Session.FaucetSessionStoreData)
    (s' : ClaimManager.Sys) : Prop :=
  (forall sd, sd ∈ l -> restorable_queue sd = true ->
     exists r,
       ClaimManager.claimTxDict (ClaimManager.mgr s') !! Session.sessionId sd = Some r /\
       r ∈ ClaimManager.claimTxQueue (ClaimManager.mgr s') /\
       ClaimManager.deref s' r = stored_claim sd) /\
  (forall sd h, sd ∈ l -> pending_hash sd = Some h -> client = true ->
     exists r,
       ClaimManager.pendingTxQueue (ClaimManager.mgr s') !! h = Some r /\
       ClaimManager.claimTxDict (ClaimManager.mgr s') !! Session.sessionId sd = Some r /\
       r ∈ ClaimManager.watchers s' /\
       ClaimManager.deref s' r = stored_claim sd) /\
  (forall sd h, sd ∈ l -> pending_hash sd = Some h -> client = false ->
     ClaimManager.pendingTxQueue (ClaimManager.mgr s') !! h = None) /\
  (forall sd, sd ∈ l -> restorable_queue sd = false ->
     client && pending_with_hash sd = false ->
     ClaimManager.claimTxDict (ClaimManager.mgr s') !! Session.sessionId sd = None).

(** * The system in operation *)

(** What can happen to the running system: the start-up with the
    sessions found in the database, a claim request, a tick of the
    queue timer, the answer to a waiting [getTx], the timer that drops
    a history entry, a reload of the wallet state, a new subscriber,
    and the shutdown. *)
Inductive Event :=
| Initialize (storedSession : list Session.FaucetSessionStoreData)
| CreateClaim (now : Z) (sessionData : Session.FaucetSessionStoreData) (userInput : string)
| Tick
| GetTx (r : ClaimManager.ref) (reply : Res (option ClaimManager.IndexedTx))
| EvictHistory (sq : Z)
| LoadWalletState (reply : Wallet.LoadReply)
| Subscribe (c : Hub.Client)
| Dispose.

Definition step (cfg : FaucetConfig) (w : ClaimManager.World) (s : ClaimManager.Sys)
    (ev : Event) : ClaimManager.Sys :=
  match ev with
  | Initialize storedSession => snd (ClaimManager.initialize storedSession s)
  | CreateClaim now sessionData userInput =>
      snd (ClaimManager.createSessionClaim cfg w now sessionData userInput s)
  | Tick => ClaimManager.processQueue cfg w s
  | GetTx r reply => ClaimManager.getTx_resolved cfg r reply s
  | EvictHistory sq => ClaimManager.evict_history sq s
  | LoadWalletState reply =>
      ClaimManager.set_wallet
        (snd (FaucetStatus.loadWalletState cfg reply (ClaimManager.wallet s))) s
  | Subscribe c => ClaimManager.set_hub (Hub.subscribe c (ClaimManager.hub s)) s
  | Dispose => ClaimManager.dispose s
  end.

Definition run (cfg : FaucetConfig) (w : ClaimManager.World) (evs : list Event)
    (s : ClaimManager.Sys) : ClaimManager.Sys :=
  fold_left (step cfg w) evs s.

(** The pair a tick would report. *)
Definition progress (s : ClaimManager.Sys) : IClaimNotificationData :=
  {| processedIdx := ClaimManager.lastProcessedClaimTxIdx (ClaimManager.mgr s);
     confirmedIdx := ClaimManager.lastConfirmedClaimTxIdx (ClaimManager.mgr s) |}.

(** * A tick and a claim request among other activity *)

(** [processQueue] gives up control wherever it awaits: in
    [await walletManager.sendTokens(...)] it waits for the chain, and
    whatever else is due runs in the meantime.  The loop keeps reading
    the wallet state object it fetched before the first round, whereas
    [loadWalletState] assigns a new object to the wallet manager. *)

(** The wallet state object the tick fetched, as the loop reads it:
    [None] while it is still the wallet manager's own object, [Some ws]
    once a reload has replaced that, [ws] being what it held then. *)
Definition View : Type := option WalletState.

Definition seen (view : View) (s : ClaimManager.Sys) : WalletState :=
  match view with
  | Some ws => ws
  | None => Wallet.walletState (ClaimManager.wallet s)
  end.

Definition is_reload (ev : Event) : bool :=
  match ev with
  | LoadWalletState _ => true
  | _ => false
  end.

(** The events [evs] happen while the tick waits. *)
Definition meanwhile (cfg : FaucetConfig) (w : ClaimManager.World) (evs : list Event)
    (st : View * ClaimManager.Sys) : View * ClaimManager.Sys :=
  fold_left
    (fun st ev =>
       let '(view, s) := st in
       (match view with
        | None =>
            if is_reload ev then Some (Wallet.walletState (ClaimManager.wallet s)) else None
        | Some ws => Some ws
        end,
        step cfg w s ev))
    evs st.

(** [!walletState.ready || walletState.nativeBalance <= BigInt(cwMinGasAmount)] *)
Definition gate_shut (cfg : FaucetConfig) (ws : WalletState) : Res bool :=
  if negb (ready ws) then ok true
  else
    match BigInt (cwMinGasAmount cfg) with
    | inl e => throw e
    | inr minGas => ok (nativeBalance ws <=? minGas)
    end.

(** The gate is open on the wallet state [ws]. *)
Definition gate_open (cfg : FaucetConfig) (ws : WalletState) : Prop :=
  ready ws = true /\
  exists minGas, parseBigInt (cwMinGasAmount cfg) = Some minGas /\ minGas < nativeBalance ws.

Module Interleaved.
Import ClaimManager.

(** A claim taken off the queue: the claim, what the loop read as the
    wallet state when it tested the gate, and the system at that
    moment. *)
Record Dequeue := {
  taken : ref;
  seen_then : WalletState;
  before : Sys;
}.

(** [processQueueTx] with the events [evs] happening while
    [sendTokens] waits for the chain.  The function itself reads the
    wallet manager's current state. *)
Definition processQueueTx_during (cfg : FaucetConfig) (w : World) (evs : list Event)
    (r : ref) (st : View * Sys) : Res unit * (View * Sys) :=
  let '(view, s) := st in
  let walletState := Wallet.getWalletState (wallet s) in
  if negb (ready walletState) then
    let s1 := mutate (set_claimStatus FAILED) r s in
    let s2 := mutate (set_txError "Network RPC is currently unreachable.") r s1 in
    (ok tt, (view, updateClaimData r s2))
  else
    match BigInt (cwMinGasAmount cfg) with
    | inl e => (throw e, (view, s))
    | inr minGas =>
        if nativeBalance walletState <=? minGas then
          let s1 := mutate (set_claimStatus FAILED) r s in
          let s2 := mutate (set_txError "Faucet wallet is out of gas funds.") r s1 in
          (ok tt, (view, updateClaimData r s2))
        else
          let s1 := mutate (set_claimStatus PROCESSING) r s in
          (* the [catch] block *)
          let failed (ex : Exn) (s3 : Sys) : Sys :=
            let s4 := mutate (set_claimStatus FAILED) r s3 in
            let s5 :=
              mutate (set_txError ("Processing Exception: " +:+ Exn_toString ex)) r s4 in
            updateClaimData r s5 in
          match Wallet.sendTokens_call cfg (chain w) (target (deref s1 r))
                  (amount (deref s1 r)) (wallet s1) with
          | None => (ok tt, (view, failed (JsError "Error: Wallet not ready") s1))
          | Some (answer, wallet') =>
              let '(view', s2) := meanwhile cfg w evs (view, set_wallet wallet' s1) in
              match Wallet.sendTokens_return cfg (amount (deref s1 r)) answer (wallet s2) with
              | (inl ex, wallet'') => (ok tt, (view', failed ex (set_wallet wallet'' s2)))
              | (inr res, wallet'') =>
                  let s3 := set_wallet wallet'' s2 in
                  let s4 := mutate (set_txHash (tr_txHash res)) r s3 in
                  let s5 := put_pending (tr_txHash res) r s4 in
                  let s6 := mutate (set_claimStatus PENDING) r s5 in
                  (ok tt, (view', awaitTxConfirmation r (updateClaimData r s6)))
              end
          end
    end.

(** One evaluation of the loop condition and, when it holds, of the
    loop body; the gate is tested on what the loop reads as the wallet
    state.  The last component is the claim taken, if one was. *)
Definition processQueue_round_during (cfg : FaucetConfig) (w : World) (evs : list Event)
    (st : View * Sys) : Round * (View * Sys) * list Dequeue :=
  let '(view, s) := st in
  if Z.of_nat (size (pendingTxQueue (mgr s))) <? cwMaxPending cfg then
    match claimTxQueue (mgr s) with
    | [] => (Left, st, [])
    | claimTx :: rest =>
        match gate_shut cfg (seen view s) with
        | inl e => (Raised e, st, [])
        | inr true => (Left, st, [])
        | inr false =>
            let s1 := upd_mgr (set_claimTxQueue rest) s in
            let s2 :=
              upd_mgr (set_lastProcessedClaimTxIdx (claimIdx (claim (deref s1 claimTx)))) s1 in
            let d := {| taken := claimTx; seen_then := seen view s; before := s |} in
            match processQueueTx_during cfg w evs claimTx (view, s2) with
            | (inl e, st') => (Raised e, st', [d])
            | (inr _, st') => (Again, st', [d])
            end
        end
    end
  else (Left, st, []).

(** The rounds of the loop once nothing else happens any more: each
    round that asks for another one has shortened the queue, so [fuel]
    rounds suffice when [fuel] is the length of the queue. *)
Fixpoint processQueue_quiet (cfg : FaucetConfig) (w : World) (fuel : nat)
    (st : View * Sys) : option Exn * (View * Sys) * list Dequeue :=
  match processQueue_round_during cfg w [] st with
  | (Left, st', d) => (None, st', d)
  | (Raised e, st', d) => (Some e, st', d)
  | (Again, st', d) =>
      match fuel with
      | O => (None, st', d)
      | S fuel' =>
          let '(o, st'', log) := processQueue_quiet cfg w fuel' st' in
          (o, st'', d ++ log)
      end
  end.

(** The [while] loop under the schedule [sched]: its [k]-th entry is
    what happens while the [k]-th round waits for the chain (a round
    that does not get to send waits for nothing); after the last entry
    nothing else happens. *)
Fixpoint processQueue_loop_during (cfg : FaucetConfig) (w : World)
    (sched : list (list Event)) (st : View * Sys)
    : option Exn * (View * Sys) * list Dequeue :=
  match sched with
  | [] => processQueue_quiet cfg w (length (claimTxQueue (mgr (snd st)))) st
  | evs :: sched' =>
      match processQueue_round_during cfg w evs st with
      | (Left, st', d) => (None, st', d)
      | (Raised e, st', d) => (Some e, st', d)
      | (Again, st', d) =>
          let '(o, st'', log) := processQueue_loop_during cfg w sched' st' in
          (o, st'', d ++ log)
      end
  end.

(** [processQueue] under the schedule [sched]: the claims it took, in
    order, what the loop read as the wallet state at its end, and the
    system it leaves. *)
Definition processQueue_during (cfg : FaucetConfig) (w : World)
    (sched : list (list Event)) (s : Sys) : list Dequeue * View * Sys :=
  if queueProcessing (mgr s) then ([], None, s)
  else
    let s1 := upd_mgr (set_queueProcessing true) s in
    match processQueue_loop_during cfg w sched (None, s1) with
    | (None, (view, s'), log) =>
        (log, view, upd_mgr (set_queueProcessing false) (notify s'))
    | (Some _, (view, s'), log) =>
        (log, view, upd_mgr (set_queueProcessing false) s')
    end.

End Interleaved.

(** [createSessionClaim] among other activity: the events [evs1]
    happen while it waits for the hooks, the events [evs2] while it
    waits for [updateSession]. *)
Definition createSessionClaim_during (cfg : FaucetConfig) (w : ClaimManager.World)
    (now : Z) (sessionData : Session.FaucetSessionStoreData) (userInput : string)
    (evs1 evs2 : list Event) (s : ClaimManager.Sys)
    : Res (ClaimManager.ref * ClaimInfo) * ClaimManager.Sys :=
  match ClaimManager.createSessionClaim_begin cfg now sessionData s with
  | (inl e, s1) => (throw e, s1)
  | (inr claimInfo, s1) =>
      let s2 := run cfg w evs1 s1 in
      match ClaimManager.createSessionClaim_hooked w sessionData userInput claimInfo with
      | inl e => (throw e, s2)
      | inr (claimInfo', sessionData') =>
          ClaimManager.createSessionClaim_end w claimInfo' sessionData' (run cfg w evs2 s2)
      end
  end.

(** No entry of the schedule holds a reload of the wallet state. *)
Definition no_reload (sched : list (list Event)) : bool :=
  forallb (forallb (fun ev => negb (is_reload ev))) sched.

(** The claim [d] was at the head of the queue when it was taken, with
    room among the pending transactions and the gate open on what the
    loop read as the wallet state. *)
Definition through_gate (cfg : FaucetConfig) (d : Interleaved.Dequeue) : Prop :=
  (exists rest,
     ClaimManager.claimTxQueue (ClaimManager.mgr (Interleaved.before d))
     = Interleaved.taken d :: rest) /\
  pending_count (Interleaved.before d) < cwMaxPending cfg /\
  gate_open cfg (Interleaved.seen_then d).

(** What the loop read was the wallet manager's state of that moment. *)
Definition read_live (d : Interleaved.Dequeue) : Prop :=
  Interleaved.seen_then d
  = Wallet.walletState (ClaimManager.wallet (Interleaved.before d)).

(** What the loop guarantees when it has run from [(view, s)]. *)
Definition loop_post (cfg : FaucetConfig) (view : View) (s : ClaimManager.Sys)
    (res : option Exn * (View * ClaimManager.Sys) * list Interleaved.Dequeue) : Prop :=
  let '(o, (view', s'), log) := res in
  Forall (through_gate cfg) log /\
  ClaimManager.claimTxQueue (ClaimManager.mgr s)
    ⊆+ map Interleaved.taken log ++ ClaimManager.claimTxQueue (ClaimManager.mgr s') /\
  ClaimManager.queueProcessing (ClaimManager.mgr s') = true /\
  (forall ws, view = Some ws -> view' = Some ws) /\
  (o = None ->
   ClaimManager.claimTxQueue (ClaimManager.mgr s') = [] \/
   cwMaxPending cfg <= pending_count s' \/
   ~ gate_open cfg (seen view' s')) /\
  (o <> None -> parseBigInt (cwMinGasAmount cfg) = None).

(** * Scenarios *)
Module Scenario.
Import ClaimManager.

(** A configuration with three decimals and the symbol SYM. *)
Definition cfg : FaucetConfig :=
  {| cwAddressPrefix := "cosmos"; cwDenom := "usym"; cwDecimals := 3; cwSymbol := "SYM";
     cwIsNativeToken := true; cwContractAddress := "cosmos1token"; cwGasAmount := "200";
     cwGasLimit := "200000"; cwMinGasAmount := "1000"; cwMinAmount := "10";
     cwMaxAmount := "1000000"; cwMaxPending := 5; cwMinBalance := "0";
     cwLowBalanceThreshold := "0"; cwRefillEnabled := true;
     cwRefillContract := Some "cosmos1treasury"; cwRefillAmount := Some "5000";
     cwRefillThreshold := Some "1000"; cwRefillOverflowAmount := Some "10000";
     cwRefillCooldown := 3600 |}.

(** The same with a contract token. *)
Definition cfg_cw20 : FaucetConfig :=
  {| cwAddressPrefix := "cosmos"; cwDenom := "usym"; cwDecimals := 3; cwSymbol := "SYM";
     cwIsNativeToken := false; cwContractAddress := "cosmos1token"; cwGasAmount := "200";
     cwGasLimit := "200000"; cwMinGasAmount := "1000"; cwMinAmount := "10";
     cwMaxAmount := "1000000"; cwMaxPending := 5; cwMinBalance := "0";
     cwLowBalanceThreshold := "0"; cwRefillEnabled := true;
     cwRefillContract := Some "cosmos1treasury"; cwRefillAmount := Some "5000";
     cwRefillThreshold := Some "1000"; cwRefillOverflowAmount := Some "10000";
     cwRefillCooldown := 3600 |}.

(** The same with room for a single pending transaction. *)
Definition cfg_one : FaucetConfig :=
  {| cwAddressPrefix := "cosmos"; cwDenom := "usym"; cwDecimals := 3; cwSymbol := "SYM";
     cwIsNativeToken := true; cwContractAddress := "cosmos1token"; cwGasAmount := "200";
     cwGasLimit := "200000"; cwMinGasAmount := "1000"; cwMinAmount := "10";
     cwMaxAmount := "1000000"; cwMaxPending := 1; cwMinBalance := "0";
     cwLowBalanceThreshold := "0"; cwRefillEnabled := true;
     cwRefillContract := Some "cosmos1treasury"; cwRefillAmount := Some "5000";
     cwRefillThreshold := Some "1000"; cwRefillOverflowAmount := Some "10000";
     cwRefillCooldown := 3600 |}.

(** A chain that accepts every request; the hash of the [n]-th
    transaction is [TX] followed by [n] in decimal. *)
Definition chain_ok : Chain :=
  fun before _ =>
    ok {| transactionHash := "TX" +:+ Z_toString (Z.of_nat (length before));
          height := 100 + Z.of_nat (length before); gasUsed := 90000 |}.

(** A chain that rejects every request. *)
Definition chain_down : Chain :=
  fun _ _ => throw (JsError "Error: connection refused").

Definition world : World :=
  {| chain := chain_ok;
     sessionClaimHooks := fun claimInfo _ => ok claimInfo;
     updateSession := fun _ => ok tt |}.

(** Hooks that reject every claim with a domain error. *)
Definition world_rejecting : World :=
  {| chain := chain_ok;
     sessionClaimHooks := fun _ _ => throw (FaucetError "RECURRING_LIMIT" "limit exceeded");
     updateSession := fun _ => ok tt |}.

Definition wallet_of (ws : WalletState) : Wallet.t :=
  {| Wallet.walletAddress := "cosmos1faucet"; Wallet.walletState := ws;
     Wallet.requests := [] |}.

Definition funded : WalletState :=
  {| ready := true; sequence := 7; balance := 100000; nativeBalance := 100000 |}.

(** All gas money but the reserve is gone: [nativeBalance] is [cwMinGasAmount]. *)
Definition drained : WalletState :=
  {| ready := true; sequence := 7; balance := 100000; nativeBalance := 1000 |}.


(** The system right after construction of its services. *)
Definition boot (ws : WalletState) : Sys :=
  {| mgr := fresh; objects := []; watchers := []; wallet := wallet_of ws;
     hub := Hub.empty; claimWrites := []; sessionWrites := [];
     queryClient := true; outflowModule := true |}.

Definition claimable (id addr amount : string) : Session.FaucetSessionStoreData :=
  {| Session.sessionId := id; Session.status := Session.CLAIMABLE;
     Session.targetAddr := addr; Session.dropAmount := amount; Session.claim := None |}.

Definition claiming (id : string) (idx : Z) (st : ClaimTxStatus) (h : option string)
    : Session.FaucetSessionStoreData :=
  {| Session.sessionId := id; Session.status := Session.CLAIMING;
     Session.targetAddr := "cosmos1user"; Session.dropAmount := "500";
     Session.claim := Some {| claimIdx := idx; claimStatus := st; claimTime := 1700000000;
                              txHash := h; txHeight := None; txFee := None;
                              txError := None |} |}.

(** Two claims are created and sent in one tick; the chain confirms
    the second one first. *)
Definition found (h : Z) : Res (option IndexedTx) :=
  ok (Some {| code := 0; tx_height := h |}).

Definition two_sent : Sys :=
  run cfg world
    [CreateClaim 1700000000 (claimable "A" "cosmos1alice" "500") "";
     CreateClaim 1700000001 (claimable "B" "cosmos1bob" "600") "";
     Tick]
    (boot funded).

Definition second_confirmed : Sys := step cfg world two_sent (GetTx 1%nat (found 101)).

Definition both_confirmed : Sys := step cfg world second_confirmed (GetTx 0%nat (found 100)).

(** The database holds two sessions with transactions in flight. *)
Definition two_in_flight : list Session.FaucetSessionStoreData :=
  [claiming "S4" 8 PENDING (Some "AB"); claiming "S5" 9 PENDING (Some "CD")].

(** The crash-recovery scenario: one session was being processed, one
    had its transaction in flight. *)
Definition crashed : list Session.FaucetSessionStoreData :=
  [claiming "S3" 7 PROCESSING None; claiming "S4" 8 PENDING (Some "0xAB")].

(** A world whose chain is down. *)
Definition world_down : World :=
  {| chain := chain_down;
     sessionClaimHooks := fun claimInfo _ => ok claimInfo;
     updateSession := fun _ => ok tt |}.

(** The happy path: one claim is made and sent in the next tick. *)
Definition one_sent : Sys :=
  run cfg world
    [CreateClaim 1700000000 (claimable "S1" "cosmos1alice" "1000") ""; Tick]
    (boot funded).

End Scenario.

(** * Further operations of the same files *)

(** ** [getRefillState] *)
Module RefillInfo.

Record RefillState := {
  lastRefillTime : Z;
  isRefilling : bool;
  cooldownRemaining : Z;
}.

Definition getRefillState (cfg : FaucetConfig) (now : Z) (rf : Refill.t) : RefillState :=
  let cooldownRemaining :=
    if negb (Refill.lastRefillTime rf =? 0) && negb (cwRefillCooldown cfg =? 0) then
      let elapsed := now - Refill.lastRefillTime rf in
      if elapsed <? cwRefillCooldown cfg then cwRefillCooldown cfg - elapsed else 0
    else 0 in
  {| lastRefillTime := Refill.lastRefillTime rf;
     isRefilling := Refill.isRefilling rf;
     cooldownRemaining := cooldownRemaining |}.

End RefillInfo.

(** ** [isValidAddress] ([interfaces.ts]) *)

(** [address?.startsWith(prefix) && address.length === prefix.length + 39],
    for strings of one-byte characters. *)
Definition isValidAddress (address prefix : string) : bool :=
  String.prefix prefix address
  && (String.length address =? String.length prefix + 39)%nat.

(** ** The subscribers still connected *)

(** No subscriber in [activeClients] waits for a claim that the last
    broadcast reported as confirmed. *)
Definition unconfirmed_clients (h : Hub.t) : bool :=
  match Hub.lastNotificationData h with
  | Some d => forallb (fun c => confirmedIdx d <? Hub.claimIdx c) (Hub.activeClients h)
  | None => true
  end.

(** ** Further scenarios *)

(** The configuration of the scenarios with a [cwMinBalance] that
    [BigInt] cannot read. *)
Definition cfg_unreadable : FaucetConfig :=
  {| cwAddressPrefix := "cosmos"; cwDenom := "usym"; cwDecimals := 3; cwSymbol := "SYM";
     cwIsNativeToken := true; cwContractAddress := "cosmos1token"; cwGasAmount := "200";
     cwGasLimit := "200000"; cwMinGasAmount := "1000"; cwMinAmount := "10";
     cwMaxAmount := "1000000"; cwMaxPending := 5; cwMinBalance := "1.5";
     cwLowBalanceThreshold := "0"; cwRefillEnabled := true;
     cwRefillContract := Some "cosmos1treasury"; cwRefillAmount := Some "5000";
     cwRefillThreshold := Some "1000"; cwRefillOverflowAmount := Some "10000";
     cwRefillCooldown := 3600 |}.

(** The answer of [Scenario.chain_ok] to the first request. *)
Definition first_tx : TxResponse :=
  {| transactionHash := "TX0"; height := 100; gasUsed := 90000 |}.

(** Two claims wait in the queue. *)
Definition two_queued (w : ClaimManager.World) : ClaimManager.Sys :=
  run Scenario.cfg w
    [CreateClaim 1700000000 (Scenario.claimable "A" "cosmos1alice" "500") "";
     CreateClaim 1700000001 (Scenario.claimable "B" "cosmos1bob" "600") ""]
    (Scenario.boot Scenario.funded).

(** A stored session in the status [CLAIMING] that has no claim record. *)
Definition no_claim_record : Session.FaucetSessionStoreData :=
  {| Session.sessionId := "S9"; Session.status := Session.CLAIMING;
     Session.targetAddr := "cosmos1user"; Session.dropAmount := "500";
     Session.claim := None |}.

(** ** Decimal digits *)

(** The number that the decimal digits [d], most significant first,
    denote on top of the digits [acc] already read. *)
Fixpoint uint_value (d : Decimal.uint) (acc : Z) : Z :=
  match d with
  | Decimal.Nil => acc
  | Decimal.D0 d => uint_value d (10 * acc)
  | Decimal.D1 d => uint_value d (10 * acc + 1)
  | Decimal.D2 d => uint_value d (10 * acc + 2)
  | Decimal.D3 d => uint_value d (10 * acc + 3)
  | Decimal.D4 d => uint_value d (10 * acc + 4)
  | Decimal.D5 d => uint_value d (10 * acc + 5)
  | Decimal.D6 d => uint_value d (10 * acc + 6)
  | Decimal.D7 d => uint_value d (10 * acc + 7)
  | Decimal.D8 d => uint_value d (10 * acc + 8)
  | Decimal.D9 d => uint_value d (10 * acc + 9)
  end.

(** * Properties *)

(** ** The wallet's local accounting *)

Lemma BigInt_inr (s : string) (z : Z) : BigInt s = inr z <-> parseBigInt s = Some z.
Proof.
  unfold BigInt, ok, throw. destruct (parseBigInt s); split; intros H; congruence.
Qed.

Lemma BigInt_parse (s : string) (z : Z) : parseBigInt s = Some z -> BigInt s = inr z.
Proof. apply BigInt_inr. Qed.





(** ** The display format *)

(** C9: with three decimals and the symbol SYM, [readableAmount]
    returns "1.234 SYM" for 1234, "1.239 SYM" for 1239, "0.001 SYM"
    for 1 and "0 SYM" for 0, as stated; yet it does not cut
    [amount / 10^decimals] after the third fractional digit for every
    amount: for 1001 the doubles give 1000.9999999999999 before
    [Math.floor], and the result is "1 SYM" where the cut value is
    "1.001 SYM". *)
Theorem readableAmount_floor_of_doubles :
  Wallet.readableAmount Scenario.cfg 1234 = "1.234 SYM"%string /\
  Wallet.readableAmount Scenario.cfg 1239 = "1.239 SYM"%string /\
  Wallet.readableAmount Scenario.cfg 1 = "0.001 SYM"%string /\
  Wallet.readableAmount Scenario.cfg 0 = "0 SYM"%string /\
  Wallet.readableAmount Scenario.cfg 1001 = "1 SYM"%string /\
  truncated_readableAmount Scenario.cfg 1001 = "1.001 SYM"%string.
Proof. vm_compute. repeat split. Qed.

(** The four amounts of the specification, in its own words. *)
Lemma truncated_readableAmount_examples :
  truncated_readableAmount Scenario.cfg 1234 = "1.234 SYM"%string /\
  truncated_readableAmount Scenario.cfg 1239 = "1.239 SYM"%string /\
  truncated_readableAmount Scenario.cfg 1 = "0.001 SYM"%string /\
  truncated_readableAmount Scenario.cfg 0 = "0 SYM"%string /\
  truncated_readableAmount Scenario.cfg 1230 = "1.23 SYM"%string.
Proof. vm_compute. repeat split. Qed.

(** ** [createSessionClaim] *)

Section CreateSessionClaim.
Import ClaimManager.

Variable cfg : FaucetConfig.
Variable w : World.
Variable now : Z.
Variable sd : Session.FaucetSessionStoreData.
Variable userInput : string.
Variable s : Sys.

Lemma status_eqb_eq (a b : Session.FaucetSessionStatus) :
  Session.status_eqb a b = true <-> a = b.
Proof. destruct a, b; cbn; split; congruence. Qed.

(** A failed guard is the outcome of the whole call. *)
Lemma check_claim_throws (e : Exn) :
  check_claim cfg sd s = inl e ->
  createSessionClaim cfg w now sd userInput s = (inl e, s).
Proof. unfold createSessionClaim. now intros ->. Qed.

(** C4: [createSessionClaim] tests its preconditions in the order
    status, lower bound, upper bound, address prefix, session already
    claiming, and throws for the first that fails: [NOT_CLAIMABLE],
    [AMOUNT_TOO_LOW], [AMOUNT_TOO_HIGH], [INVALID_ADDRESS],
    [RACE_CLAIMING]; the amounts are the integers that [BigInt] reads
    from the decimal strings. *)
Theorem createSessionClaim_guard_order (d lo hi : Z) :
  parseBigInt (Session.dropAmount sd) = Some d ->
  parseBigInt (cwMinAmount cfg) = Some lo ->
  parseBigInt (cwMaxAmount cfg) = Some hi ->
  (Session.status sd <> Session.CLAIMABLE ->
     rejects cfg w now sd userInput s "NOT_CLAIMABLE") /\
  (Session.status sd = Session.CLAIMABLE -> d < lo ->
     rejects cfg w now sd userInput s "AMOUNT_TOO_LOW") /\
  (Session.status sd = Session.CLAIMABLE -> lo <= d -> hi < d ->
     rejects cfg w now sd userInput s "AMOUNT_TOO_HIGH") /\
  (Session.status sd = Session.CLAIMABLE -> lo <= d <= hi ->
   String.prefix (cwAddressPrefix cfg) (Session.targetAddr sd) = false ->
     rejects cfg w now sd userInput s "INVALID_ADDRESS") /\
  (Session.status sd = Session.CLAIMABLE -> lo <= d <= hi ->
   String.prefix (cwAddressPrefix cfg) (Session.targetAddr sd) = true ->
   is_Some (claimTxDict (mgr s) !! Session.sessionId sd) ->
     rejects cfg w now sd userInput s "RACE_CLAIMING") /\
  (Session.status sd = Session.CLAIMABLE -> lo <= d <= hi ->
   String.prefix (cwAddressPrefix cfg) (Session.targetAddr sd) = true ->
   claimTxDict (mgr s) !! Session.sessionId sd = None ->
     check_claim cfg sd s = inr tt).
Proof.
  intros Hd Hlo Hhi.
  apply BigInt_parse in Hd, Hlo, Hhi.
  repeat split.
  - intros Hst. eexists. apply check_claim_throws. unfold check_claim.
    destruct (Session.status_eqb _ _) eqn:E; [apply status_eqb_eq in E; easy|].
    reflexivity.
  - intros Hst Hlt. eexists. apply check_claim_throws. unfold check_claim.
    rewrite Hst, Hd, Hlo. cbn.
    destruct (Z.ltb_spec d lo); [reflexivity|lia].
  - intros Hst H1 H2. eexists. apply check_claim_throws. unfold check_claim.
    rewrite Hst, Hd, Hlo, Hhi. cbn.
    destruct (Z.ltb_spec d lo); [lia|].
    destruct (Z.gtb_spec d hi); [reflexivity|lia].
  - intros Hst H1 Hp. eexists. apply check_claim_throws. unfold check_claim.
    rewrite Hst, Hd, Hlo, Hhi, Hp. cbn.
    destruct (Z.ltb_spec d lo); [lia|].
    destruct (Z.gtb_spec d hi); [lia|reflexivity].
  - intros Hst H1 Hp [r Hr]. eexists. apply check_claim_throws. unfold check_claim.
    rewrite Hst, Hd, Hlo, Hhi, Hp, Hr. cbn.
    destruct (Z.ltb_spec d lo); [lia|].
    destruct (Z.gtb_spec d hi); [lia|reflexivity].
  - intros Hst H1 Hp Hr. unfold check_claim.
    rewrite Hst, Hd, Hlo, Hhi, Hp, Hr. cbn.
    destruct (Z.ltb_spec d lo); [lia|].
    destruct (Z.gtb_spec d hi); [lia|reflexivity].
Qed.

(** C10: when [createSessionClaim] throws, whatever the stage, the
    queue, [claimTxDict] and [pendingTxQueue] are as before (and so are
    the history, the claim objects and the watchers); a failure of a
    guard leaves the whole system as it was, a failure after the guards
    (module hooks, database) has advanced [lastClaimTxIdx] by one. *)
Theorem createSessionClaim_throw_keeps_collections (e : Exn) (s' : Sys) :
  createSessionClaim cfg w now sd userInput s = (inl e, s') ->
  (claimTxQueue (mgr s') = claimTxQueue (mgr s) /\
   claimTxDict (mgr s') = claimTxDict (mgr s) /\
   pendingTxQueue (mgr s') = pendingTxQueue (mgr s) /\
   historyTxDict (mgr s') = historyTxDict (mgr s) /\
   objects s' = objects s /\ watchers s' = watchers s) /\
  (forall e0, check_claim cfg sd s = inl e0 -> s' = s) /\
  (check_claim cfg sd s = inr tt ->
     lastClaimTxIdx (mgr s') = lastClaimTxIdx (mgr s) + 1).
Proof.
  unfold createSessionClaim.
  destruct (check_claim cfg sd s) as [e0|[]] eqn:Hc.
  - intros [= <- <-]. repeat split; auto. discriminate.
  - destruct (sessionClaimHooks w _ userInput) as [[c m|t]|ci'].
    + intros [= <- <-]. repeat split; auto. discriminate.
    + intros [= <- <-]. repeat split; auto. discriminate.
    + destruct (updateSession w _) as [e1|[]].
      * intros [= <- <-]. repeat split; auto. discriminate.
      * cbn. discriminate.
Qed.

End CreateSessionClaim.

Lemma createSessionClaim_guard_order_witness :
  let sd := Scenario.claimable "S1" "osmo1user" "5" in
  let s := Scenario.boot Scenario.funded in
  (parseBigInt (Session.dropAmount sd) = Some 5 /\
   parseBigInt (cwMinAmount Scenario.cfg) = Some 10 /\
   parseBigInt (cwMaxAmount Scenario.cfg) = Some 1000000 /\
   Session.status sd = Session.CLAIMABLE /\ 5 < 10) /\
  rejects Scenario.cfg Scenario.world 1700000000 sd "" s "AMOUNT_TOO_LOW".
Proof.
  intros sd s.
  split; [repeat split; reflexivity|].
  refine (proj1 (proj2 (createSessionClaim_guard_order
            Scenario.cfg Scenario.world 1700000000 sd "" s 5 10 1000000 _ _ _)) _ _);
    reflexivity.
Defined.

Lemma createSessionClaim_throw_keeps_collections_witness :
  let sd := Scenario.claimable "S1" "cosmos1user" "500" in
  let s := Scenario.boot Scenario.funded in
  let s' := snd (ClaimManager.createSessionClaim Scenario.cfg Scenario.world_rejecting
                   1700000000 sd "" s) in
  ClaimManager.createSessionClaim Scenario.cfg Scenario.world_rejecting 1700000000 sd "" s
    = (inl (FaucetError "RECURRING_LIMIT" "limit exceeded"), s') /\
  ClaimManager.claimTxQueue (ClaimManager.mgr s') = [] /\
  ClaimManager.lastClaimTxIdx (ClaimManager.mgr s') = 1 + 1.
Proof.
  intros sd s s'.
  assert (H : ClaimManager.createSessionClaim Scenario.cfg Scenario.world_rejecting
                1700000000 sd "" s
              = (inl (FaucetError "RECURRING_LIMIT" "limit exceeded"), s'))
    by reflexivity.
  split; [exact H|].
  destruct (createSessionClaim_throw_keeps_collections _ _ _ _ _ _ _ _ H)
    as ((Hq & _) & _ & Hidx).
  split; [exact Hq | apply Hidx; reflexivity].
Defined.

(** ** The queue tick *)

Section Tick.
Import ClaimManager.

Variable cfg : FaucetConfig.
Variable w : World.

Lemma updateClaimStatus_inr (r : ref) (s s' : Sys) :
  updateClaimStatus r s = inr s' -> s' = updateClaimData r s.
Proof.
  unfold updateClaimStatus.
  destruct (claimStatus _); try (intros [= <-]; reflexivity).
  destruct (outflowModule s); [|intros [= <-]; reflexivity].
  destruct (outflow_fee _); [discriminate|intros [= <-]; reflexivity].
Qed.

(** A claim that is not [CONFIRMED] is just written to the database. *)
Lemma updateClaimStatus_unconfirmed (r : ref) (s : Sys) :
  claimStatus (claim (deref s r)) <> CONFIRMED ->
  updateClaimStatus r s = inr (updateClaimData r s).
Proof.
  unfold updateClaimStatus. destruct (claimStatus _); try reflexivity.
  intros H. now contradiction H.
Qed.

Lemma confirmation_succeeded_cases (tx : IndexedTx) (r : ref) (s : Sys) :
  confirmation_succeeded cfg tx r s
    = keep_history r (updateClaimData r (confirmation_assigned cfg tx r s)) \/
  exists e,
    confirmation_succeeded cfg tx r s
    = confirmation_failed e r (confirmation_assigned cfg tx r s).
Proof.
  unfold confirmation_succeeded. cbv zeta.
  destruct (updateClaimStatus r _) as [e|s7] eqn:Hu; [right; eauto|].
  left. now rewrite (updateClaimStatus_inr _ _ _ Hu).
Qed.

Lemma same_counters_refl (s : Sys) : same_counters s s.
Proof. unfold same_counters. tauto. Qed.

Lemma confirmation_failed_counters (e : Exn) (r : ref) (s : Sys) :
  same_counters s (confirmation_failed e r s).
Proof.
  unfold same_counters, confirmation_failed, delete_pending.
  destruct (txHash (claim (deref s r))) as [h|]; [destruct (truthy (Some h))|];
    cbn; tauto.
Qed.

Lemma awaitTxConfirmation_counters (r : ref) (s : Sys) :
  same_counters s (awaitTxConfirmation r s).
Proof.
  unfold awaitTxConfirmation.
  destruct (truthy _); [|apply confirmation_failed_counters].
  destruct (queryClient s); [unfold same_counters; cbn; tauto|].
  apply confirmation_failed_counters.
Qed.

Lemma processQueueTx_counters (r : ref) (s s' : Sys) (res : Res unit) :
  processQueueTx cfg w r s = (res, s') -> same_counters s s'.
Proof.
  unfold processQueueTx.
  destruct (ready _); cbn [negb].
  2:{ intros [= <- <-]. unfold same_counters. cbn. tauto. }
  destruct (BigInt (cwMinGasAmount cfg)) as [e|g].
  { intros [= <- <-]. apply same_counters_refl. }
  destruct (_ <=? g).
  { intros [= <- <-]. unfold same_counters. cbn. tauto. }
  destruct (Wallet.sendTokens _ _ _ _ _) as [[ex|tr] w'].
  { intros [= <- <-]. unfold same_counters. cbn. tauto. }
  intros [= <- <-].
  match goal with |- same_counters _ (awaitTxConfirmation r ?x) =>
    pose proof (awaitTxConfirmation_counters r x) as H end.
  unfold same_counters in *. cbn in H. tauto.
Qed.

Lemma delete_pending_size (h : option string) (s : Sys) :
  (size (pendingTxQueue (mgr (delete_pending h s))) <= size (pendingTxQueue (mgr s)))%nat.
Proof.
  unfold delete_pending. destruct h as [k|]; [|lia].
  destruct (truthy (Some k)); [|lia]. cbn.
  rewrite map_size_delete. destruct (_ !! k); cbn; lia.
Qed.

Lemma confirmation_failed_pending (e : Exn) (r : ref) (s : Sys) :
  (size (pendingTxQueue (mgr (confirmation_failed e r s)))
   <= size (pendingTxQueue (mgr s)))%nat.
Proof.
  unfold confirmation_failed. cbn.
  apply delete_pending_size.
Qed.

Lemma confirmation_succeeded_pending (tx : IndexedTx) (r : ref) (s : Sys) :
  (size (pendingTxQueue (mgr (confirmation_succeeded cfg tx r s)))
   <= size (pendingTxQueue (mgr s)))%nat.
Proof.
  assert (Ha : (size (pendingTxQueue (mgr (confirmation_assigned cfg tx r s)))
                <= size (pendingTxQueue (mgr s)))%nat)
    by (unfold confirmation_assigned; cbn; apply delete_pending_size).
  destruct (confirmation_succeeded_cases tx r s) as [->|[e ->]].
  - cbn. exact Ha.
  - etransitivity; [apply confirmation_failed_pending|exact Ha].
Qed.

Lemma awaitTxConfirmation_pending (r : ref) (s : Sys) :
  (size (pendingTxQueue (mgr (awaitTxConfirmation r s)))
   <= size (pendingTxQueue (mgr s)))%nat.
Proof.
  unfold awaitTxConfirmation. destruct (truthy _); [|apply confirmation_failed_pending].
  destruct (queryClient s); [cbn; lia|].
  apply confirmation_failed_pending.
Qed.

Lemma processQueueTx_pending (r : ref) (s s' : Sys) (res : Res unit) :
  processQueueTx cfg w r s = (res, s') ->
  (size (pendingTxQueue (mgr s')) <= S (size (pendingTxQueue (mgr s))))%nat.
Proof.
  unfold processQueueTx.
  destruct (ready _); cbn [negb].
  2:{ intros [= <- <-]. cbn. lia. }
  destruct (BigInt (cwMinGasAmount cfg)) as [e|g].
  { intros [= <- <-]. lia. }
  destruct (_ <=? g).
  { intros [= <- <-]. cbn. lia. }
  destruct (Wallet.sendTokens _ _ _ _ _) as [[ex|tr] w'].
  { intros [= <- <-]. cbn. lia. }
  intros [= <- <-].
  etransitivity; [apply awaitTxConfirmation_pending|].
  cbn. rewrite map_size_insert. destruct (_ !! _); cbn; lia.
Qed.

(** With the gate open, [processQueueTx] does not throw. *)
Lemma processQueueTx_returns (r : ref) (s : Sys) :
  gas_available cfg s -> exists s', processQueueTx cfg w r s = (inr tt, s').
Proof.
  intros (Hr & g & Hg & Hlt). unfold processQueueTx, Wallet.getWalletState.
  rewrite Hr, (BigInt_parse _ _ Hg). cbn [negb].
  destruct (Z.leb_spec (nativeBalance (Wallet.walletState (wallet s))) g); [lia|].
  destruct (Wallet.sendTokens _ _ _ _ _) as [[ex|tr] w']; eauto.
Qed.

Lemma out_of_gas_false (s : Sys) :
  out_of_gas cfg s = inr false <-> gas_available cfg s.
Proof.
  unfold out_of_gas, gas_available, Wallet.getWalletState, BigInt, ok, throw.
  destruct (ready _); cbn [negb]; [|split; [discriminate|intros [? _]; discriminate]].
  destruct (parseBigInt _) as [g|].
  - destruct (Z.leb_spec (nativeBalance (Wallet.walletState (wallet s))) g); split.
    + discriminate.
    + intros (_ & g' & [= <-] & Hlt). lia.
    + intros _. split; eauto.
    + reflexivity.
  - split; [discriminate|]. intros (_ & g' & ? & _). discriminate.
Qed.

(** One round of the loop: it either leaves the system alone, or it
    found the gate open and room among the pending transactions, took
    the first claim off the queue and handled it. *)
Lemma processQueue_round_spec (s s' : Sys) (rd : Round) :
  processQueue_round cfg w s = (rd, s') ->
  match rd with
  | Again =>
      pending_count s < cwMaxPending cfg /\ gas_available cfg s /\
      exists claimTx,
        claimTxQueue (mgr s) = claimTx :: claimTxQueue (mgr s') /\
        lastProcessedClaimTxIdx (mgr s') = claimIdx (claim (deref s claimTx)) /\
        (size (pendingTxQueue (mgr s')) <= S (size (pendingTxQueue (mgr s))))%nat /\
        lastConfirmedClaimTxIdx (mgr s') = lastConfirmedClaimTxIdx (mgr s) /\
        lastNotificationData (mgr s') = lastNotificationData (mgr s) /\
        queueProcessing (mgr s') = queueProcessing (mgr s) /\
        hub s' = hub s
  | _ => s' = s
  end.
Proof.
  unfold processQueue_round, pending_count.
  destruct (Z.ltb_spec (Z.of_nat (size (pendingTxQueue (mgr s)))) (cwMaxPending cfg));
    [|intros [= <- <-]; reflexivity].
  destruct (claimTxQueue (mgr s)) as [|claimTx rest] eqn:Hq; [intros [= <- <-]; reflexivity|].
  destruct (out_of_gas cfg s) as [e|[|]] eqn:Hg; try (intros [= <- <-]; reflexivity).
  apply out_of_gas_false in Hg.
  match goal with |- context [processQueueTx cfg w claimTx ?x] => set (s2 := x) end.
  destruct (processQueueTx_returns claimTx s2 Hg) as [s3 H3].
  rewrite H3. intros [= <- <-].
  pose proof (processQueueTx_counters claimTx s2 s3 _ H3) as (C1 & C2 & C3 & C4 & C5 & C6 & C7 & C8).
  pose proof (processQueueTx_pending claimTx s2 s3 _ H3) as Hp.
  split; [assumption|]. split; [exact Hg|]. exists claimTx.
  subst s2. cbn in *. repeat split; auto; congruence.
Qed.

(** An invariant of the rounds is an invariant of the loop. *)
Lemma processQueue_loop_inv (P : Sys -> Prop) :
  (forall s s', P s -> processQueue_round cfg w s = (Again, s') -> P s') ->
  forall fuel s o s', P s -> processQueue_loop cfg w fuel s = (o, s') -> P s'.
Proof.
  intros Hstep. induction fuel as [|fuel IH]; intros s o s' HP; cbn;
    destruct (processQueue_round cfg w s) as [[| e |] s1] eqn:Hr;
    try (apply processQueue_round_spec in Hr; subst s1; intros [= <- <-]; exact HP).
  - intros [= <- <-]. eapply Hstep; eauto.
  - intros H. eapply IH; [|exact H]. eapply Hstep; eauto.
Qed.

(** The fuel does not cut the loop short: a round that asks for
    another one has shortened the queue, and the loop starts with the
    length of the queue as fuel. *)
Lemma processQueue_loop_fuel :
  forall fuel s, (length (claimTxQueue (mgr s)) <= fuel)%nat ->
  forall fuel', (fuel <= fuel')%nat ->
    processQueue_loop cfg w fuel' s = processQueue_loop cfg w fuel s.
Proof.
  induction fuel as [|fuel IH]; intros s Hlen fuel' Hle.
  - destruct (claimTxQueue (mgr s)) eqn:Hq; [|cbn in Hlen; lia].
    assert (Hr : exists s1 rd, processQueue_round cfg w s = (rd, s1) /\ rd <> Again).
    { unfold processQueue_round. rewrite Hq.
      destruct (_ <? _); eexists _, _; split; try reflexivity; discriminate. }
    destruct Hr as (s1 & rd & Hr & Hne).
    destruct fuel'; cbn; rewrite Hr; destruct rd; congruence.
  - destruct fuel' as [|fuel']; [lia|]. cbn.
    destruct (processQueue_round cfg w s) as [[| e |] s1] eqn:Hr; try reflexivity.
    apply IH; [|lia].
    apply processQueue_round_spec in Hr as (_ & _ & c & Hq & _).
    rewrite Hq in Hlen. cbn in Hlen. lia.
Qed.

(** The loop ends by an exception only if [cwMinGasAmount] is no
    integer literal. *)
Lemma processQueue_loop_no_throw (g : Z) :
  parseBigInt (cwMinGasAmount cfg) = Some g ->
  forall fuel s o s', processQueue_loop cfg w fuel s = (o, s') -> o = None.
Proof.
  intros Hg. induction fuel as [|fuel IH]; intros s o s'; cbn;
    destruct (processQueue_round cfg w s) as [[| e |] s1] eqn:Hr;
    try (intros [= <- <-]; reflexivity); try (apply IH).
  all: exfalso; revert Hr; unfold processQueue_round;
    destruct (_ <? _); [|discriminate];
    destruct (claimTxQueue (mgr s)); [discriminate|];
    unfold out_of_gas; rewrite (BigInt_parse _ _ Hg);
    destruct (ready _); cbn [negb]; [|discriminate];
    destruct (_ <=? _); [discriminate|];
    destruct (processQueueTx _ _ _ _) as [[e'|u] s2] eqn:Ht; [|discriminate];
    revert Ht; unfold processQueueTx; cbn;
    rewrite (BigInt_parse _ _ Hg).
  all: repeat match goal with
       | |- context [if ?b then _ else _] => destruct b
       | |- context [match ?x with _ => _ end] => destruct x
       end; discriminate.
Qed.

(** With the gate shut the loop does nothing. *)
Lemma processQueue_loop_gate_shut (s : Sys) (fuel : nat) :
  ~ gas_available cfg s -> snd (processQueue_loop cfg w fuel s) = s.
Proof.
  intros Hno.
  destruct fuel; cbn;
    destruct (processQueue_round cfg w s) as [[| e |] s1] eqn:Hr;
    apply processQueue_round_spec in Hr; try (subst; reflexivity);
    destruct Hr as (_ & Hg & _); contradiction.
Qed.

Lemma notify_mgr (s : Sys) :
  mgr (notify s) = mgr s /\ objects (notify s) = objects s /\
  wallet (notify s) = wallet s /\ watchers (notify s) = watchers s.
Proof. unfold notify. destruct (notification_due s); cbn; auto. Qed.

(** A tick keeps the number of pending transactions within
    [cwMaxPending]. *)
Lemma processQueue_pending_bound (s : Sys) :
  pending_count s <= cwMaxPending cfg ->
  pending_count (processQueue cfg w s) <= cwMaxPending cfg.
Proof.
  intros Hb. unfold processQueue.
  destruct (queueProcessing (mgr s)); [exact Hb|].
  set (s1 := upd_mgr (set_queueProcessing true) s).
  assert (Hl : forall fuel o s2, processQueue_loop cfg w fuel s1 = (o, s2) ->
                 pending_count s2 <= cwMaxPending cfg).
  { intros fuel o s2.
    apply (processQueue_loop_inv (fun x => pending_count x <= cwMaxPending cfg)).
    - intros x x' _ Hr. apply processQueue_round_spec in Hr as (Hlt & _ & c & _ & _ & Hp & _).
      unfold pending_count in *. lia.
    - exact Hb. }
  destruct (processQueue_loop cfg w _ s1) as [[e|] s2] eqn:Hloop;
    specialize (Hl _ _ _ Hloop); unfold pending_count in *; cbn.
  + exact Hl.
  + destruct (notify_mgr s2) as (Hm & _). rewrite Hm. exact Hl.
Qed.

(** Nothing in a tick writes the manager's own [lastNotificationData];
    a tick that ends without exception and finds that field empty
    broadcasts the current pair. *)
Lemma tick_broadcast_when_unset (s : Sys) (minGas : Z) :
  parseBigInt (cwMinGasAmount cfg) = Some minGas ->
  queueProcessing (mgr s) = false ->
  lastNotificationData (mgr s) = None ->
  Hub.broadcasts (hub (processQueue cfg w s))
    = Hub.broadcasts (hub s) ++ [progress (processQueue cfg w s)] /\
  lastNotificationData (mgr (processQueue cfg w s)) = None /\
  queueProcessing (mgr (processQueue cfg w s)) = false.
Proof.
  intros Hg Hq Hn. unfold processQueue. rewrite Hq.
  set (s1 := upd_mgr (set_queueProcessing true) s).
  destruct (processQueue_loop cfg w _ s1) as [o s2] eqn:Hloop.
  pose proof (processQueue_loop_no_throw minGas Hg _ _ _ _ Hloop) as ->.
  assert (Hinv : lastNotificationData (mgr s2) = None /\ hub s2 = hub s).
  { revert Hloop.
    apply (processQueue_loop_inv (fun x => lastNotificationData (mgr x) = None /\ hub x = hub s)).
    - intros x x' [Hx1 Hx2] Hr.
      apply processQueue_round_spec in Hr as (_ & _ & c & _ & _ & _ & _ & Hn' & _ & Hh).
      split; congruence.
    - split; [exact Hn|reflexivity]. }
  destruct Hinv as [Hn2 Hh2].
  unfold notify, notification_due. rewrite Hn2. cbn. rewrite Hh2. auto.
Qed.

End Tick.

(** ** The manager's flags over a run *)

Section Run.
Import ClaimManager.

Variable cfg : FaucetConfig.
Variable w : World.

Lemma same_flags_refl (s : Sys) : same_flags s s.
Proof. split; reflexivity. Qed.

Lemma same_flags_trans (s1 s2 s3 : Sys) :
  same_flags s1 s2 -> same_flags s2 s3 -> same_flags s1 s3.
Proof. unfold same_flags. intros [] []. split; congruence. Qed.

Lemma same_counters_flags (s s' : Sys) : same_counters s s' -> same_flags s s'.
Proof. unfold same_counters, same_flags. tauto. Qed.

Lemma restoreSession_flags (sd : Session.FaucetSessionStoreData) (mx mx' : Z) (s s' : Sys) :
  restoreSession sd (mx, s) = inr (mx', s') -> same_flags s s'.
Proof.
  unfold restoreSession.
  destruct (Session.claim sd) as [c|]; [|discriminate].
  destruct (claimStatus c); cbn; intros [= _ <-]; try apply same_flags_refl.
  - split; reflexivity.
  - split; reflexivity.
  - match goal with |- same_flags _ (awaitTxConfirmation ?r ?x) =>
      pose proof (same_counters_flags _ _ (awaitTxConfirmation_counters r x)) as [H1 H2];
      assert (Hx : same_flags s x)
    end.
    { unfold put_pending_opt. destruct (txHash c) as [h|]; [destruct (truthy _)|];
        split; reflexivity. }
    eapply same_flags_trans; [exact Hx|]. split; assumption.
Qed.

Lemma restoreSessions_flags (l : list Session.FaucetSessionStoreData) :
  forall mx s, same_flags s (snd (snd (restoreSessions l (mx, s)))).
Proof.
  induction l as [|sd l IH]; intros mx s; cbn -[restoreSession]; [apply same_flags_refl|].
  destruct (restoreSession sd (mx, s)) as [e|[mx' s']] eqn:Hr; cbn -[restoreSession];
    [apply same_flags_refl|].
  eapply same_flags_trans; [eapply restoreSession_flags; eauto|apply IH].
Qed.

Lemma initialize_flags (l : list Session.FaucetSessionStoreData) (s : Sys) :
  same_flags s (snd (initialize l s)).
Proof.
  unfold initialize. destruct (initialized (mgr s)); [apply same_flags_refl|].
  pose proof (restoreSessions_flags l 0 (upd_mgr (set_initialized true) s)) as H.
  destruct (restoreSessions l _) as [[e|] [mx s']]; cbn in *;
    destruct H as [H1 H2]; split; cbn; assumption.
Qed.

Lemma createSessionClaim_flags (now : Z) (sd : Session.FaucetSessionStoreData)
    (userInput : string) (s : Sys) :
  same_flags s (snd (createSessionClaim cfg w now sd userInput s)).
Proof.
  unfold createSessionClaim.
  destruct (check_claim cfg sd s); [apply same_flags_refl|].
  destruct (sessionClaimHooks w _ userInput) as [[c m|t]|ci']; try (split; reflexivity).
  destruct (updateSession w _); split; reflexivity.
Qed.

Lemma getTx_resolved_flags (r : ref) (reply : Res (option IndexedTx)) (s : Sys) :
  same_flags s (getTx_resolved cfg r reply s).
Proof.
  unfold getTx_resolved. destruct (bool_decide _); [|apply same_flags_refl].
  set (s0 := set_watchers _ s).
  assert (Hf : forall e, same_flags s (confirmation_failed e r s0)).
  { intros e. pose proof (same_counters_flags _ _ (confirmation_failed_counters e r s0)) as H.
    exact H. }
  destruct reply as [e|[tx|]]; auto.
  destruct (code tx =? 0); auto.
  assert (Ha : same_flags s (confirmation_assigned cfg tx r s0)).
  { unfold confirmation_assigned, delete_pending.
    destruct (txHash (claim (deref s0 r))) as [h|]; [destruct (truthy _)|];
      split; reflexivity. }
  destruct (confirmation_succeeded_cases cfg tx r s0) as [->|[e ->]].
  - destruct Ha as [H1 H2]. split; cbn; assumption.
  - eapply same_flags_trans; [exact Ha|].
    apply same_counters_flags, confirmation_failed_counters.
Qed.

Lemma processQueue_flags (s : Sys) : same_flags s (processQueue cfg w s).
Proof.
  unfold processQueue. destruct (queueProcessing (mgr s)) eqn:Hq; [apply same_flags_refl|].
  set (s1 := upd_mgr (set_queueProcessing true) s).
  destruct (processQueue_loop cfg w _ s1) as [o s2] eqn:Hloop.
  assert (Hinv : lastNotificationData (mgr s2) = lastNotificationData (mgr s)).
  { revert Hloop.
    apply (processQueue_loop_inv cfg w
             (fun x => lastNotificationData (mgr x) = lastNotificationData (mgr s))).
    - intros x x' Hx Hr.
      apply processQueue_round_spec in Hr as (_ & _ & c & _ & _ & _ & _ & Hn' & _).
      congruence.
    - reflexivity. }
  destruct o as [e|]; split; cbn; auto.
  - destruct (notify_mgr s2) as (Hm & _). rewrite Hm. exact Hinv.
Qed.

Lemma step_flags (ev : Event) (s : Sys) : same_flags s (step cfg w s ev).
Proof.
  destruct ev; cbn.
  - apply initialize_flags.
  - apply createSessionClaim_flags.
  - apply processQueue_flags.
  - apply getTx_resolved_flags.
  - split; reflexivity.
  - split; reflexivity.
  - split; reflexivity.
  - unfold dispose. destruct (initialized (mgr s)); split; reflexivity.
Qed.

Lemma run_flags (evs : list Event) : forall s, same_flags s (run cfg w evs s).
Proof.
  induction evs as [|ev evs IH]; intros s; cbn; [apply same_flags_refl|].
  eapply same_flags_trans; [apply step_flags|apply IH].
Qed.

(** C1: the test before the broadcast reads the manager's own
    [lastNotificationData], which is [null] at construction and which
    no statement assigns; the pair of the last broadcast is stored in
    the notification client's static field instead.  Hence, whatever
    happened since the services were constructed, a tick that ends
    without exception broadcasts the pair, changed or not. *)
Theorem processQueue_broadcasts_every_tick (evs : list Event) (ws : WalletState)
    (minGas : Z) :
  parseBigInt (cwMinGasAmount cfg) = Some minGas ->
  Hub.broadcasts (hub (processQueue cfg w (run cfg w evs (Scenario.boot ws))))
  = Hub.broadcasts (hub (run cfg w evs (Scenario.boot ws)))
    ++ [progress (processQueue cfg w (run cfg w evs (Scenario.boot ws)))].
Proof.
  intros Hg.
  destruct (run_flags evs (Scenario.boot ws)) as [Hn Hq].
  now apply (tick_broadcast_when_unset cfg w _ minGas Hg Hq Hn).
Qed.

End Run.

(** The second of two idle ticks repeats the broadcast of the first. *)
Lemma processQueue_broadcasts_every_tick_witness :
  let s := run Scenario.cfg Scenario.world [Tick] (Scenario.boot Scenario.drained) in
  parseBigInt (cwMinGasAmount Scenario.cfg) = Some 1000 /\
  Hub.lastNotificationData (ClaimManager.hub s)
    = Some (progress (ClaimManager.processQueue Scenario.cfg Scenario.world s)) /\
  Hub.broadcasts (ClaimManager.hub (ClaimManager.processQueue Scenario.cfg Scenario.world s))
    = [ {| processedIdx := 0; confirmedIdx := 0 |};
        {| processedIdx := 0; confirmedIdx := 0 |} ].
Proof.
  intros s. subst s. split; [reflexivity|]. split; [reflexivity|].
  rewrite (processQueue_broadcasts_every_tick Scenario.cfg Scenario.world [Tick]
             Scenario.drained 1000 eq_refl).
  reflexivity.
Defined.

(** ** Confirmations *)

Section Confirmation.
Import ClaimManager.

Variable cfg : FaucetConfig.

Lemma deref_mutate_claimIdx (f : ClaimData -> ClaimData) (r r' : ref) (s : Sys) :
  (forall c, claimIdx (f c) = claimIdx c) ->
  claimIdx (claim (deref (mutate f r s) r')) = claimIdx (claim (deref s r')).
Proof.
  intros Hf. unfold deref, mutate. cbn.
  rewrite list_lookup_total_alter. case_decide as H; [|reflexivity].
  destruct H as [-> _]. cbn. apply Hf.
Qed.

Lemma deref_upd_mgr (f : t -> t) (s : Sys) (r : ref) : deref (upd_mgr f s) r = deref s r.
Proof. reflexivity. Qed.

Lemma deref_delete_pending (h : option string) (s : Sys) (r : ref) :
  deref (delete_pending h s) r = deref s r.
Proof.
  unfold delete_pending. destruct h; [destruct (truthy _)|]; reflexivity.
Qed.

Lemma lastConfirmed_delete_pending (h : option string) (s : Sys) :
  lastConfirmedClaimTxIdx (mgr (delete_pending h s)) = lastConfirmedClaimTxIdx (mgr s).
Proof.
  unfold delete_pending. destruct h; [destruct (truthy _)|]; reflexivity.
Qed.

Lemma confirmation_succeeded_lastConfirmed (tx : IndexedTx) (r : ref) (s : Sys) :
  lastConfirmedClaimTxIdx (mgr (confirmation_succeeded cfg tx r s))
  = claimIdx (claim (deref s r)).
Proof.
  assert (Ha : lastConfirmedClaimTxIdx (mgr (confirmation_assigned cfg tx r s))
               = claimIdx (claim (deref s r))).
  { unfold confirmation_assigned. cbn.
    rewrite !deref_mutate_claimIdx by reflexivity.
    unfold delete_claimTx. rewrite deref_upd_mgr. now rewrite deref_delete_pending. }
  destruct (confirmation_succeeded_cases cfg tx r s) as [->|[e ->]].
  - cbn. exact Ha.
  - destruct (confirmation_failed_counters e r (confirmation_assigned cfg tx r s))
      as (_ & _ & -> & _). exact Ha.
Qed.

Lemma confirmation_failed_lastConfirmed (e : Exn) (r : ref) (s : Sys) :
  lastConfirmedClaimTxIdx (mgr (confirmation_failed e r s))
  = lastConfirmedClaimTxIdx (mgr s).
Proof. now destruct (confirmation_failed_counters e r s) as (_ & _ & H & _). Qed.

(** C2 (as amended): when a waiting confirmation watcher completes,
    [lastConfirmedClaimTxIdx] becomes the [claimIdx] of its claim if
    the transaction was found with code 0, and stays as it was
    otherwise; so it does not decrease, and is the maximum of its old
    value and that [claimIdx], when the confirmed claim's index is not
    below it, that is when confirmations complete in ascending order
    of [claimIdx]. *)
Theorem getTx_resolved_lastConfirmed (r : ref) (reply : Res (option IndexedTx)) (s : Sys) :
  r ∈ watchers s ->
  lastConfirmedClaimTxIdx (mgr (getTx_resolved cfg r reply s))
  = (if confirms reply then claimIdx (claim (deref s r))
     else lastConfirmedClaimTxIdx (mgr s))
  /\ (lastConfirmedClaimTxIdx (mgr s) <= claimIdx (claim (deref s r)) ->
      lastConfirmedClaimTxIdx (mgr s)
        <= lastConfirmedClaimTxIdx (mgr (getTx_resolved cfg r reply s))
      /\ (confirms reply = true ->
          lastConfirmedClaimTxIdx (mgr (getTx_resolved cfg r reply s))
          = Z.max (lastConfirmedClaimTxIdx (mgr s)) (claimIdx (claim (deref s r))))).
Proof.
  intros Hin.
  assert (Heq : lastConfirmedClaimTxIdx (mgr (getTx_resolved cfg r reply s))
                = (if confirms reply then claimIdx (claim (deref s r))
                   else lastConfirmedClaimTxIdx (mgr s))).
  { unfold getTx_resolved. rewrite bool_decide_eq_true_2 by exact Hin.
    destruct reply as [e|[tx|]]; cbn [confirms].
    - now rewrite confirmation_failed_lastConfirmed.
    - destruct (code tx =? 0).
      + now rewrite confirmation_succeeded_lastConfirmed.
      + now rewrite confirmation_failed_lastConfirmed.
    - now rewrite confirmation_failed_lastConfirmed. }
  split; [exact Heq|].
  intros Hle. rewrite Heq. destruct (confirms reply); split; try lia; discriminate.
Qed.

End Confirmation.

Lemma getTx_resolved_lastConfirmed_witness :
  (1%nat ∈ ClaimManager.watchers Scenario.two_sent /\
   ClaimManager.lastConfirmedClaimTxIdx (ClaimManager.mgr Scenario.two_sent)
     <= claimIdx (claim (ClaimManager.deref Scenario.two_sent 1%nat))) /\
  ClaimManager.lastConfirmedClaimTxIdx (ClaimManager.mgr Scenario.second_confirmed)
    = Z.max 0 2.
Proof.
  assert (Hin : 1%nat ∈ ClaimManager.watchers Scenario.two_sent)
    by (apply (bool_decide_unpack _); vm_compute; exact I).
  assert (Hle : ClaimManager.lastConfirmedClaimTxIdx (ClaimManager.mgr Scenario.two_sent)
                <= claimIdx (claim (ClaimManager.deref Scenario.two_sent 1%nat)))
    by (vm_compute; discriminate).
  split; [split; assumption|].
  exact (proj2 (proj2 (getTx_resolved_lastConfirmed Scenario.cfg 1%nat
                         (Scenario.found 101) Scenario.two_sent Hin) Hle) eq_refl).
Defined.

(** C2 (as stated) fails: claims 1 and 2 are both sent; claim 2 is
    confirmed first and the watermark is 2; then claim 1 is confirmed
    and the watermark falls to 1, which is not the maximum of 2 and 1. *)
Lemma lastConfirmed_lowered_out_of_order :
  ClaimManager.lastConfirmedClaimTxIdx (ClaimManager.mgr Scenario.second_confirmed) = 2 /\
  0%nat ∈ ClaimManager.watchers Scenario.second_confirmed /\
  claimIdx (claim (ClaimManager.deref Scenario.second_confirmed 0%nat)) = 1 /\
  ClaimManager.lastConfirmedClaimTxIdx (ClaimManager.mgr Scenario.both_confirmed) = 1 /\
  ~ (ClaimManager.lastConfirmedClaimTxIdx (ClaimManager.mgr Scenario.second_confirmed)
     <= ClaimManager.lastConfirmedClaimTxIdx (ClaimManager.mgr Scenario.both_confirmed)) /\
  ClaimManager.lastConfirmedClaimTxIdx (ClaimManager.mgr Scenario.both_confirmed)
  <> Z.max (ClaimManager.lastConfirmedClaimTxIdx (ClaimManager.mgr Scenario.second_confirmed))
           (claimIdx (claim (ClaimManager.deref Scenario.second_confirmed 0%nat))).
Proof.
  repeat split; try (vm_compute; reflexivity).
  - apply (bool_decide_unpack _). vm_compute. exact I.
  - vm_compute. intros H. apply H. reflexivity.
  - vm_compute. discriminate.
Qed.

(** ** The bound on pending transactions *)

Section PendingBound.
Import ClaimManager.

Variable cfg : FaucetConfig.
Variable w : World.

Lemma getTx_resolved_pending (r : ref) (reply : Res (option IndexedTx)) (s : Sys) :
  pending_count (getTx_resolved cfg r reply s) <= pending_count s.
Proof.
  unfold pending_count, getTx_resolved. destruct (bool_decide _); [|lia].
  set (s0 := set_watchers _ s).
  change (pendingTxQueue (mgr s)) with (pendingTxQueue (mgr s0)).
  apply Nat2Z.inj_le.
  destruct reply as [e|[tx|]]; [| destruct (code tx =? 0) |];
    auto using confirmation_failed_pending, confirmation_succeeded_pending.
Qed.

Lemma put_pending_opt_size (h : option string) (r : ref) (s : Sys) :
  (size (pendingTxQueue (mgr (put_pending_opt h r s)))
   <= size (pendingTxQueue (mgr s)) + (if truthy h then 1 else 0))%nat.
Proof.
  unfold put_pending_opt. destruct h as [k|]; [|cbn; lia].
  destruct (truthy (Some k)); [|lia]. cbn.
  rewrite map_size_insert. destruct (_ !! k); cbn; lia.
Qed.

Lemma restoreSession_pending (sd : Session.FaucetSessionStoreData) (mx mx' : Z)
    (s s' : Sys) :
  restoreSession sd (mx, s) = inr (mx', s') ->
  (size (pendingTxQueue (mgr s'))
   <= size (pendingTxQueue (mgr s)) + (if pending_with_hash sd then 1 else 0))%nat.
Proof.
  unfold restoreSession, pending_with_hash.
  destruct (Session.claim sd) as [c|]; [|discriminate].
  destruct (claimStatus c); cbn; intros [= _ <-];
    cbn -[awaitTxConfirmation put_pending_opt]; try lia.
  etransitivity; [apply awaitTxConfirmation_pending|].
  cbn -[put_pending_opt].
  apply (put_pending_opt_size (txHash c) (length (objects s))
           (set_objects (objects s ++ [claimInfo_of sd c]) s)).
Qed.

Lemma restoreSessions_pending (l : list Session.FaucetSessionStoreData) :
  forall mx s,
    (size (pendingTxQueue (mgr (snd (snd (restoreSessions l (mx, s))))))
     <= size (pendingTxQueue (mgr s)) + length (List.filter pending_with_hash l))%nat.
Proof.
  induction l as [|sd l IH]; intros mx s; cbn -[restoreSession]; [lia|].
  destruct (restoreSession sd (mx, s)) as [e|[mx' s']] eqn:Hr; cbn -[restoreSession].
  - lia.
  - apply restoreSession_pending in Hr. specialize (IH mx' s').
    destruct (pending_with_hash sd); cbn [length]; lia.
Qed.

Lemma initialize_pending (l : list Session.FaucetSessionStoreData) (s : Sys) :
  pending_count (snd (initialize l s))
  <= pending_count s + Z.of_nat (length (List.filter pending_with_hash l)).
Proof.
  unfold pending_count, initialize. destruct (initialized (mgr s)); [cbn; lia|].
  pose proof (restoreSessions_pending l 0 (upd_mgr (set_initialized true) s)) as H.
  destruct (restoreSessions l _) as [[e|] [mx s']]; cbn in *; lia.
Qed.

(** C3 (as amended): a tick that starts with at most [cwMaxPending]
    pending transactions ends with at most [cwMaxPending]; a round of
    its loop adds at most one, and adds one only if there were fewer
    than [cwMaxPending] and a claim was taken off the queue; a
    completed confirmation adds none.  Start-up recovery puts every
    stored [PENDING] session that has a transaction hash into
    [pendingTxQueue], so after it the number of pending transactions is
    bounded by the number of such sessions (plus those present
    before), whatever [cwMaxPending] is. *)
Theorem pending_bound_preserved (s : Sys) :
  pending_count s <= cwMaxPending cfg ->
  pending_count (processQueue cfg w s) <= cwMaxPending cfg /\
  (forall rd s',
     processQueue_round cfg w s = (rd, s') ->
     pending_count s' <= pending_count s + 1 /\
     (pendingTxQueue (mgr s') <> pendingTxQueue (mgr s) ->
      pending_count s < cwMaxPending cfg /\
      exists claimTx, claimTxQueue (mgr s) = claimTx :: claimTxQueue (mgr s'))) /\
  (forall r reply, pending_count (getTx_resolved cfg r reply s) <= pending_count s) /\
  (forall storedSession,
     pending_count (snd (initialize storedSession s))
     <= pending_count s + Z.of_nat (length (List.filter pending_with_hash storedSession))).
Proof.
  intros Hb. split; [now apply processQueue_pending_bound|].
  split; [|split; intros; [apply getTx_resolved_pending|apply initialize_pending]].
  intros rd s' Hr. apply processQueue_round_spec in Hr.
  destruct rd; try (subst s'; split; [lia|congruence]).
  destruct Hr as (Hlt & _ & c & Hq & _ & Hp & _).
  unfold pending_count in *. split; [lia|]. intros _. eauto.
Qed.

End PendingBound.

Lemma pending_bound_preserved_witness :
  pending_count Scenario.two_sent <= cwMaxPending Scenario.cfg /\
  pending_count (ClaimManager.processQueue Scenario.cfg Scenario.world Scenario.two_sent)
    <= cwMaxPending Scenario.cfg.
Proof.
  assert (H : pending_count Scenario.two_sent <= cwMaxPending Scenario.cfg)
    by (vm_compute; discriminate).
  split; [exact H|].
  exact (proj1 (pending_bound_preserved Scenario.cfg Scenario.world Scenario.two_sent H)).
Defined.

(** C3 (as stated) fails after start-up recovery: with room for one
    pending transaction and two stored sessions in flight, recovery
    leaves two pending transactions, and so does the tick after it. *)
Lemma recovery_exceeds_maxPending :
  let s := snd (ClaimManager.initialize Scenario.two_in_flight
                  (Scenario.boot Scenario.funded)) in
  cwMaxPending Scenario.cfg_one = 1 /\
  pending_count s = 2 /\
  ~ (pending_count s <= cwMaxPending Scenario.cfg_one) /\
  ~ (pending_count (ClaimManager.processQueue Scenario.cfg_one Scenario.world s)
     <= cwMaxPending Scenario.cfg_one).
Proof.
  repeat split; try (vm_compute; reflexivity);
    vm_compute; intros H; apply H; reflexivity.
Qed.

(** ** The refill controller *)

Section RefillDecision.
Import ClaimManager.

Variable cfg : FaucetConfig.
Variable chain : Chain.






End RefillDecision.



(** ** Start-up recovery *)

Section Recovery.
Import ClaimManager.

Lemma alter_last {A} (f : A -> A) (l : list A) (x : A) :
  alter f (length l) (l ++ [x]) = l ++ [f x].
Proof.
  replace (length l) with (length l + 0)%nat by lia.
  now rewrite alter_app_r.
Qed.

(** What one stored session does to the system. *)
Lemma restoreSession_step (sd : Session.FaucetSessionStoreData) (c : ClaimData)
    (mx : Z) (s : Sys) :
  Session.claim sd = Some c ->
  exists s' ci,
    restoreSession sd (mx, s)
      = inr (if restored sd then Z.max (claimIdx c) mx else mx, s') /\
    objects s' = objects s ++ (if restored sd then [ci] else []) /\
    (restorable_queue sd || (queryClient s && pending_with_hash sd) = true ->
     ci = claimInfo_of sd c) /\
    claimTxQueue (mgr s')
      = claimTxQueue (mgr s) ++ (if restorable_queue sd then [length (objects s)] else []) /\
    watchers s'
      = watchers s ++ (if queryClient s && pending_with_hash sd
                       then [length (objects s)] else []) /\
    claimTxDict (mgr s')
      = (if restorable_queue sd || (queryClient s && pending_with_hash sd)
         then <[Session.sessionId sd := length (objects s)]> (claimTxDict (mgr s))
         else if restored sd then delete (Session.sessionId sd) (claimTxDict (mgr s))
         else claimTxDict (mgr s)) /\
    pendingTxQueue (mgr s')
      = (match pending_hash sd with
         | Some h =>
             if queryClient s then <[h := length (objects s)]> (pendingTxQueue (mgr s))
             else delete h (pendingTxQueue (mgr s))
         | None => pendingTxQueue (mgr s)
         end) /\
    queryClient s' = queryClient s.
Proof.
  intros Hc.
  assert (Hmax : forall i, (if i >? mx then i else mx) = Z.max i mx).
  { intros i. destruct (Z.gtb_spec i mx); lia. }
  unfold restoreSession, restored, restorable_queue, pending_with_hash, pending_hash,
    pending_with_hash.
  rewrite Hc.
  destruct (claimStatus c) eqn:Hst; cbn -[awaitTxConfirmation put_pending_opt].
  - eexists _, (claimInfo_of sd c). rewrite Hmax. split; [reflexivity|].
    cbn. rewrite ?andb_false_r. cbn. rewrite ?app_nil_r. repeat split; reflexivity.
  - eexists _, (claimInfo_of sd c). rewrite Hmax. split; [reflexivity|].
    cbn. rewrite ?andb_false_r. cbn. rewrite ?app_nil_r. repeat split; reflexivity.
  - rewrite Hmax. unfold awaitTxConfirmation, put_pending_opt, deref.
    destruct (txHash c) as [h|] eqn:Hh; [destruct (truthy (Some h)) eqn:Ht|];
      cbn -[truthy]; rewrite list_lookup_total_middle by reflexivity;
      cbn -[truthy]; rewrite Hh, ?Ht.
    + destruct (queryClient s) eqn:Hqc; cbn -[truthy].
      * eexists _, (claimInfo_of sd c). split; [reflexivity|].
        cbn. rewrite ?app_nil_r. repeat split; try reflexivity. exact Hqc.
      * eexists _, _. split; [reflexivity|].
        unfold confirmation_failed, deref. cbn -[truthy].
        rewrite list_lookup_total_middle by reflexivity. cbn -[truthy].
        rewrite Hh. cbn -[truthy]. rewrite Ht. cbn.
        rewrite ?list_lookup_total_middle by reflexivity. cbn.
        rewrite !alter_last. cbn. rewrite !delete_insert_eq, ?app_nil_r.
        repeat split; try reflexivity; try exact Hqc. discriminate.
    + eexists _, _. split; [reflexivity|].
      unfold confirmation_failed, deref. cbn -[truthy].
      rewrite list_lookup_total_middle by reflexivity. cbn -[truthy].
      rewrite Hh. cbn -[truthy]. rewrite Ht. cbn.
      rewrite ?list_lookup_total_middle by reflexivity. cbn.
      rewrite !alter_last. cbn. rewrite ?andb_false_r. cbn.
      rewrite delete_insert_eq, ?app_nil_r.
      repeat split; try reflexivity. discriminate.
    + eexists _, _. split; [reflexivity|].
      unfold confirmation_failed, deref. cbn.
      rewrite list_lookup_total_middle by reflexivity. cbn. rewrite Hh. cbn.
      rewrite ?list_lookup_total_middle by reflexivity. cbn.
      rewrite !alter_last. cbn. rewrite ?andb_false_r. cbn.
      rewrite delete_insert_eq, ?app_nil_r.
      repeat split; try reflexivity. discriminate.
  - exists s, inhabitant. cbn. rewrite ?andb_false_r. cbn. rewrite !app_nil_r.
    repeat split; try reflexivity; discriminate.
  - exists s, inhabitant. cbn. rewrite ?andb_false_r. cbn. rewrite !app_nil_r.
    repeat split; try reflexivity; discriminate.
Qed.

Lemma stored_facts (sd : Session.FaucetSessionStoreData) (c : ClaimData) :
  Session.claim sd = Some c ->
  stored_claim sd = claimInfo_of sd c /\ stored_claimIdx sd = claimIdx c.
Proof. unfold stored_claim, stored_claimIdx. now intros ->. Qed.

Lemma pending_hash_with (sd : Session.FaucetSessionStoreData) (h : string) :
  pending_hash sd = Some h -> pending_with_hash sd = true /\ restorable_queue sd = false.
Proof.
  unfold pending_hash, pending_with_hash, restorable_queue.
  destruct (Session.claim sd) as [c|]; [|discriminate].
  destruct (claimStatus c); try discriminate.
  destruct (truthy (txHash c)); [auto|discriminate].
Qed.

Lemma pending_with_hash_some (sd : Session.FaucetSessionStoreData) :
  pending_with_hash sd = true -> exists h, pending_hash sd = Some h.
Proof.
  unfold pending_hash. intros H. rewrite H. revert H. unfold pending_with_hash.
  destruct (Session.claim sd) as [c|]; [|discriminate].
  destruct (claimStatus c); try discriminate.
  destruct (txHash c) as [h|]; [eauto|discriminate].
Qed.

Lemma restorable_queue_restored (sd : Session.FaucetSessionStoreData) :
  restorable_queue sd = true -> restored sd = true /\ pending_with_hash sd = false.
Proof.
  unfold restorable_queue, restored, pending_with_hash.
  destruct (Session.claim sd) as [c|]; [|discriminate].
  destruct (claimStatus c); auto; discriminate.
Qed.

Lemma pending_with_hash_restored (sd : Session.FaucetSessionStoreData) :
  pending_with_hash sd = true -> restored sd = true.
Proof.
  unfold restored, pending_with_hash.
  destruct (Session.claim sd) as [c|]; [|discriminate].
  destruct (claimStatus c); auto; discriminate.
Qed.

(** The whole list: by induction, one session after the other. *)
Lemma restoreSessions_recovers (l : list Session.FaucetSessionStoreData) :
  Forall (fun sd => is_Some (Session.claim sd)) l ->
  NoDup (map Session.sessionId l) ->
  NoDup (omap pending_hash l) ->
  forall mx s,
    0 <= mx ->
    (forall k, k ∈ map Session.sessionId l -> claimTxDict (mgr s) !! k = None) ->
    exists mx' s',
      restoreSessions l (mx, s) = (None, (mx', s')) /\
      mx' = Z.max (max_claimIdx l) mx /\
      recovery_frame l s s' /\ recovery_placement (queryClient s) l s'.
Proof.
  induction l as [|sd l IH]; intros Hall Hids Hhs mx s Hmx Hfresh.
  { exists mx, s. split; [reflexivity|]. split; [cbn; lia|]. split.
    - repeat split; try (exists []; cbn; rewrite ?app_nil_r; auto); auto.
    - repeat split; intros; exfalso; eapply not_elem_of_nil; eauto. }
  apply Forall_cons in Hall as [[c Hc] Hall].
  cbn [map] in Hids. apply NoDup_cons in Hids as [Hid Hids].
  destruct (restoreSession_step sd c mx s Hc)
    as (s1 & ci & Hrs & Ho1 & Hci & Hq1 & Hw1 & Hd1 & Hp1 & Hqc1).
  destruct (stored_facts sd c Hc) as [Hsc Hsi].
  set (r0 := length (objects s)) in *.
  (* the hashes of the tail *)
  assert (Hhs' : NoDup (omap pending_hash l) /\
                 forall h, pending_hash sd = Some h -> h ∉ omap pending_hash l).
  { cbn in Hhs. destruct (pending_hash sd) as [h0|].
    - apply NoDup_cons in Hhs as [? ?]. split; [assumption|]. now intros h [= <-].
    - split; [assumption|discriminate]. }
  destruct Hhs' as [Hhs' Hhfresh].
  (* the dictionary after the head, away from its session id *)
  assert (Hd1ne : forall k, k <> Session.sessionId sd ->
                    claimTxDict (mgr s1) !! k = claimTxDict (mgr s) !! k).
  { intros k Hk. rewrite Hd1.
    destruct (restorable_queue sd || (queryClient s && pending_with_hash sd));
      [now rewrite lookup_insert_ne by congruence|].
    destruct (restored sd); [now rewrite lookup_delete_ne by congruence|reflexivity]. }
  assert (Hp1ne : forall h, pending_hash sd <> Some h ->
                    pendingTxQueue (mgr s1) !! h = pendingTxQueue (mgr s) !! h).
  { intros h Hh. rewrite Hp1. destruct (pending_hash sd) as [h0|]; [|reflexivity].
    destruct (queryClient s).
    - rewrite lookup_insert_ne; [reflexivity|congruence].
    - rewrite lookup_delete_ne; [reflexivity|congruence]. }
  destruct (IH Hall Hids Hhs' (if restored sd then Z.max (claimIdx c) mx else mx) s1)
    as (mx' & s' & Hrun & Hmx' & (Fo & Fq & Fw & Fd & Fp) & (Pq & Pp & Pn & Pd)).
  { destruct (restored sd); lia. }
  { intros k Hk. rewrite Hd1ne.
    - apply Hfresh. cbn. now apply list_elem_of_further.
    - intros ->. contradiction. }
  rewrite Hqc1 in Pp, Pn, Pd.
  destruct Fo as [e2 Fo]. destruct Fq as (q2 & Fq & Fqm). destruct Fw as [w2 Fw].
  (* the object of the head, if it was placed *)
  assert (Hderef : restorable_queue sd || (queryClient s && pending_with_hash sd) = true ->
                   deref s' r0 = stored_claim sd).
  { intros Hplaced. unfold deref. rewrite Fo, Ho1.
    assert (Hres : restored sd = true).
    { apply orb_true_iff in Hplaced as [H|H];
        [apply restorable_queue_restored in H; tauto|].
      apply andb_true_iff in H as [_ H]. now apply pending_with_hash_restored. }
    rewrite Hres, <- app_assoc. cbn.
    rewrite list_lookup_total_middle by reflexivity.
    rewrite Hsc. now apply Hci. }
  exists mx', s'. split.
  { cbn -[restoreSession]. rewrite Hrs. exact Hrun. }
  split.
  { rewrite Hmx'.
    change (max_claimIdx (sd :: l))
      with (if restored sd then Z.max (stored_claimIdx sd) (max_claimIdx l)
            else max_claimIdx l).
    rewrite Hsi. destruct (restored sd); lia. }
  split.
  - (* frame *)
    repeat split.
    + eexists. rewrite Fo, Ho1, <- app_assoc. reflexivity.
    + eexists. split; [rewrite Fq, Hq1, <- app_assoc; reflexivity|].
      cbn [List.filter]. destruct (restorable_queue sd) eqn:Hrq; [|exact Fqm].
      cbn. rewrite Fqm. f_equal. apply Hderef. reflexivity.
    + eexists. rewrite Fw, Hw1, <- app_assoc. reflexivity.
    + intros k Hk. cbn in Hk. apply not_elem_of_cons in Hk as [Hk1 Hk2].
      rewrite Fd by assumption. now apply Hd1ne.
    + intros h Hh. rewrite Fp.
      * apply Hp1ne. intros Heq. apply Hh. cbn. rewrite Heq. apply list_elem_of_here.
      * intros Hin. apply Hh. cbn. destruct (pending_hash sd);
          [now apply list_elem_of_further|assumption].
  - (* placement *)
    split; [|split; [|split]].
    + intros sd' Hin Hrq. apply elem_of_cons in Hin as [->|Hin]; [|now apply Pq].
      exists r0. split; [|split].
      * rewrite Fd by assumption. rewrite Hd1, Hrq. cbn. apply lookup_insert_eq.
      * rewrite Fq, Hq1, Hrq. apply elem_of_app. left. apply elem_of_app. right.
        apply list_elem_of_here.
      * apply Hderef. now rewrite Hrq.
    + intros sd' h Hin Hh Hcl. apply elem_of_cons in Hin as [->|Hin]; [|now eapply Pp].
      destruct (pending_hash_with _ _ Hh) as [Hpw Hnq].
      exists r0. split; [|split; [|split]].
      * rewrite Fp by now apply Hhfresh. rewrite Hp1, Hh, Hcl. apply lookup_insert_eq.
      * rewrite Fd by assumption. rewrite Hd1, Hpw, Hcl, orb_true_r.
        apply lookup_insert_eq.
      * rewrite Fw, Hw1, Hpw, Hcl. apply elem_of_app. left. apply elem_of_app. right.
        apply list_elem_of_here.
      * apply Hderef. now rewrite Hpw, Hcl, orb_true_r.
    + intros sd' h Hin Hh Hcl. apply elem_of_cons in Hin as [->|Hin];
        [|exact (Pn sd' h Hin Hh Hcl)].
      rewrite Fp by now apply Hhfresh. rewrite Hp1, Hh, Hcl. apply lookup_delete_eq.
    + intros sd' Hin Hrq Hpw. apply elem_of_cons in Hin as [->|Hin]; [|now apply Pd].
      rewrite Fd by assumption. rewrite Hd1, Hrq, Hpw. cbn.
      destruct (restored sd); [apply lookup_delete_eq|].
      apply Hfresh. cbn. apply list_elem_of_here.
Qed.

(** The sort of the queue. *)
Lemma insert_sorted_perm (key : ref -> Z) (r : ref) (l : list ref) :
  Permutation (insert_sorted key r l) (r :: l).
Proof.
  induction l as [|x l IH]; cbn; [reflexivity|].
  destruct (key r <=? key x); [reflexivity|].
  rewrite IH. apply perm_swap.
Qed.

Lemma sort_by_perm (key : ref -> Z) (l : list ref) : Permutation (sort_by key l) l.
Proof.
  induction l as [|x l IH]; cbn; [reflexivity|].
  fold (sort_by key l). rewrite insert_sorted_perm. now constructor.
Qed.

Lemma insert_sorted_sorted (key : ref -> Z) (r : ref) (l : list ref) :
  StronglySorted (fun a b => key a <= key b) l ->
  StronglySorted (fun a b => key a <= key b) (insert_sorted key r l).
Proof.
  induction 1 as [|x l Hs IH Hall]; cbn; [repeat constructor|].
  destruct (Z.leb_spec (key r) (key x)).
  - constructor; [now constructor|].
    constructor; [assumption|].
    eapply Forall_impl; [exact Hall|]. cbn. intros; lia.
  - constructor; [exact IH|].
    eapply Permutation_Forall; [symmetry; apply insert_sorted_perm|].
    constructor; [lia|exact Hall].
Qed.

Lemma sort_by_sorted (key : ref -> Z) (l : list ref) :
  StronglySorted (fun a b => key a <= key b) (sort_by key l).
Proof.
  induction l as [|x l IH]; cbn; [constructor|].
  now apply insert_sorted_sorted.
Qed.

Lemma sorted_deref (s : Sys) (q : list ref) :
  StronglySorted (fun a b => claimIdx (claim (deref s a)) <= claimIdx (claim (deref s b))) q ->
  StronglySorted claimIdx_le (map (deref s) q).
Proof.
  induction 1 as [|x l Hs IH Hall]; cbn; constructor; [assumption|].
  apply Forall_map. exact Hall.
Qed.

Lemma max_claimIdx_nonneg (l : list Session.FaucetSessionStoreData) : 0 <= max_claimIdx l.
Proof.
  induction l as [|sd l IH]; cbn; [lia|].
  fold (max_claimIdx l). destruct (restored sd); lia.
Qed.

Lemma max_claimIdx_none (l : list Session.FaucetSessionStoreData) :
  Forall (fun sd => restored sd = false) l -> max_claimIdx l = 0.
Proof.
  induction 1 as [|sd l Hsd Hl IH]; cbn; [reflexivity|].
  fold (max_claimIdx l). now rewrite Hsd.
Qed.

(** [max_claimIdx] is an upper bound of the restored indices, and is
    reached by one of them unless it is 0. *)
Lemma max_claimIdx_spec (l : list Session.FaucetSessionStoreData) :
  Forall (fun sd => restored sd = true -> stored_claimIdx sd <= max_claimIdx l) l /\
  (max_claimIdx l = 0 \/
   Exists (fun sd => restored sd = true /\ stored_claimIdx sd = max_claimIdx l) l).
Proof.
  induction l as [|sd l [IH1 IH2]]; cbn; [split; [constructor|now left]|].
  fold (max_claimIdx l). split.
  - constructor.
    + destruct (restored sd); [lia|discriminate].
    + eapply Forall_impl; [exact IH1|]. cbn. intros x Hx Hr. specialize (Hx Hr).
      destruct (restored sd); lia.
  - destruct (restored sd) eqn:Hr.
    + destruct (Z.max_spec (stored_claimIdx sd) (max_claimIdx l)) as [[Hlt ->]|[Hle ->]].
      * destruct IH2 as [H0|Hex]; [now left|right; now constructor 2].
      * right. now constructor 1.
    + destruct IH2 as [H0|Hex]; [now left|right; now constructor 2].
Qed.

(** C5 (as amended): from a fresh manager, and for stored sessions
    with distinct ids and distinct transaction hashes that all carry a
    claim record, [initialize] ends normally and
    - the queue holds exactly the sessions stored as [QUEUE] or
      [PROCESSING], in ascending order of [claimIdx], each of them
      also recorded in [claimTxDict];
    - if the wallet manager has its query client, every session
      stored as [PENDING] with a transaction hash is in
      [pendingTxQueue] under that hash and in [claimTxDict], with a
      confirmation watcher waiting; if it has none, [getTx] cannot be
      called, the watcher fails at once, and such a session is in
      neither dictionary;
    - every other session, a [PENDING] one without transaction hash
      included, is in neither dictionary nor in the queue, and the
      dictionaries have no entries but the ones named;
    - [lastClaimTxIdx] is one more than the greatest [claimIdx] among
      the sessions stored as [QUEUE], [PROCESSING] or [PENDING] if
      that is positive, and 1 otherwise, in particular if there is
      none. *)
Theorem initialize_recovery (l : list Session.FaucetSessionStoreData) (s : Sys) :
  initialized (mgr s) = false ->
  claimTxQueue (mgr s) = [] ->
  claimTxDict (mgr s) = ∅ ->
  Forall (fun sd => is_Some (Session.claim sd)) l ->
  NoDup (map Session.sessionId l) ->
  NoDup (omap pending_hash l) ->
  exists s',
    initialize l s = (None, s') /\
    Permutation (map (deref s') (claimTxQueue (mgr s')))
                (map stored_claim (List.filter restorable_queue l)) /\
    Sorted claimIdx_le (map (deref s') (claimTxQueue (mgr s'))) /\
    recovery_placement (queryClient s) l s' /\
    lastClaimTxIdx (mgr s') = max_claimIdx l + 1 /\
    (Forall (fun sd => restored sd = false) l -> lastClaimTxIdx (mgr s') = 1) /\
    (forall k, k ∉ map Session.sessionId l -> claimTxDict (mgr s') !! k = None) /\
    (forall h, h ∉ omap pending_hash l ->
       pendingTxQueue (mgr s') !! h = pendingTxQueue (mgr s) !! h).
Proof.
  intros Hinit Hq Hd Hall Hids Hhs.
  destruct (restoreSessions_recovers l Hall Hids Hhs 0 (upd_mgr (set_initialized true) s))
    as (mx' & s1 & Hrun & Hmx' & (_ & (q & Fq & Fqm) & _ & Fd & Fp) & (Pq & Pp & Pn & Pd)).
  { lia. }
  { intros k _. cbn. rewrite Hd. apply lookup_empty. }
  cbn in Fq. rewrite Hq in Fq. cbn in Fq.
  unfold initialize. rewrite Hinit, Hrun.
  eexists. split; [reflexivity|].
  set (key := fun r => claimIdx (claim (deref s1 r))).
  assert (Hperm : Permutation (sort_by key (claimTxQueue (mgr s1))) q).
  { rewrite Fq. apply sort_by_perm. }
  split; [|split; [|split; [|split; [|split; [|split]]]]].
  - cbn. fold key. change (map (deref ?x)) with (map (deref s1)).
    rewrite <- Fqm. now apply Permutation_map.
  - cbn. fold key. change (map (deref ?x)) with (map (deref s1)).
    apply StronglySorted_Sorted, sorted_deref, sort_by_sorted.
  - cbn in Pp, Pn, Pd. split; [|split; [|split]].
    + intros sd Hin Hrq. destruct (Pq sd Hin Hrq) as (r & H1 & H2 & H3).
      exists r. repeat split; try assumption.
      cbn. fold key. rewrite Fq in H2 |- *.
      apply list_elem_of_In. eapply Permutation_in; [symmetry; apply sort_by_perm|].
      now apply list_elem_of_In.
    + intros sd h Hin Hh Hcl. destruct (Pp sd h Hin Hh Hcl) as (r & H1 & H2 & H3 & H4).
      exists r. repeat split; assumption.
    + intros sd h Hin Hh Hcl. cbn. now apply (Pn sd h).
    + intros sd Hin H1 H2. now apply Pd.
  - cbn. pose proof (max_claimIdx_nonneg l). lia.
  - intros Hnone. cbn. rewrite Hmx', (max_claimIdx_none l Hnone). reflexivity.
  - intros k Hk. cbn. rewrite (Fd k Hk). cbn. rewrite Hd. apply lookup_empty.
  - intros h Hh. cbn. now rewrite (Fp h Hh).
Qed.

End Recovery.

Lemma initialize_recovery_witness :
  let s := Scenario.boot Scenario.funded in
  (ClaimManager.initialized (ClaimManager.mgr s) = false /\
   Forall (fun sd => is_Some (Session.claim sd)) Scenario.crashed /\
   NoDup (map Session.sessionId Scenario.crashed) /\
   NoDup (omap pending_hash Scenario.crashed)) /\
  exists s',
    ClaimManager.initialize Scenario.crashed s = (None, s') /\
    ClaimManager.lastClaimTxIdx (ClaimManager.mgr s') = 8 + 1 /\
    map (ClaimManager.deref s') (ClaimManager.claimTxQueue (ClaimManager.mgr s'))
      = [stored_claim (Scenario.claiming "S3" 7 PROCESSING None)] /\
    ClaimManager.pendingTxQueue (ClaimManager.mgr s') !! "0xAB"%string = Some 1%nat.
Proof.
  intros s.
  assert (H1 : Forall (fun sd => is_Some (Session.claim sd)) Scenario.crashed)
    by (apply (bool_decide_unpack _); vm_compute; exact I).
  assert (H2 : NoDup (map Session.sessionId Scenario.crashed))
    by (apply (bool_decide_unpack _); vm_compute; exact I).
  assert (H3 : NoDup (omap pending_hash Scenario.crashed))
    by (apply (bool_decide_unpack _); vm_compute; exact I).
  split; [repeat split; assumption|].
  destruct (initialize_recovery Scenario.crashed s eq_refl eq_refl eq_refl H1 H2 H3)
    as (s' & Hi & _ & _ & _ & Hidx & _).
  exists s'. split; [exact Hi|]. split; [exact Hidx|].
  injection Hi as <-. split; reflexivity.
Defined.

(** C5 (as stated) fails for a session stored as [PENDING] without a
    transaction hash: [initialize] ends normally, but the session is
    not in [pendingTxQueue]; its watcher has failed at once and taken
    it out of [claimTxDict] again, and no watcher is waiting. *)
Lemma pending_without_hash_not_reinstated :
  let sd := Scenario.claiming "S6" 3 PENDING None in
  let s' := snd (ClaimManager.initialize [sd] (Scenario.boot Scenario.funded)) in
  fst (ClaimManager.initialize [sd] (Scenario.boot Scenario.funded)) = None /\
  Session.status sd = Session.CLAIMING /\
  option_map claimStatus (Session.claim sd) = Some PENDING /\
  ClaimManager.pendingTxQueue (ClaimManager.mgr s') = ∅ /\
  ClaimManager.claimTxDict (ClaimManager.mgr s') !! Session.sessionId sd = None /\
  ClaimManager.watchers s' = [] /\
  ~ (exists h r, ClaimManager.pendingTxQueue (ClaimManager.mgr s') !! h = Some r).
Proof.
  repeat split.
  intros (h & r & H). vm_compute in H. discriminate.
Qed.

(** ** The tick as a chain of rounds, and some runs *)

Section Rounds.
Import ClaimManager.

Variable cfg : FaucetConfig.
Variable w : World.

(** The state the loop ends in is reached from the state it started
    in through rounds that each took a claim off the queue; by
    [processQueue_round_spec] each of them found the gate open. *)
Lemma processQueue_loop_rounds (fuel : nat) :
  forall s o s',
    processQueue_loop cfg w fuel s = (o, s') ->
    rtc (fun a b => processQueue_round cfg w a = (Again, b)) s s'.
Proof.
  induction fuel as [|fuel IH]; intros s o s'; cbn;
    destruct (processQueue_round cfg w s) as [[| e |] s1] eqn:Hr;
    try (apply processQueue_round_spec in Hr; subst s1; intros [= <- <-]; apply rtc_refl).
  - intros [= <- <-]. now apply rtc_once.
  - intros H. eapply rtc_l; [exact Hr|]. eapply IH; eauto.
Qed.

End Rounds.

Example sendTokens_contract_token :
  let r := Wallet.sendTokens Scenario.cfg_cw20 Scenario.chain_ok "cosmos1a" "500"
             (Scenario.wallet_of Scenario.funded) in
  Wallet.walletState (snd r)
    = {| ready := true; sequence := 8; balance := 99500; nativeBalance := 99800 |} /\
  Wallet.requests (snd r)
    = [Execute "cosmos1faucet" "cosmos1token" (transfer "cosmos1a" "500")
         (Wallet.gasFee Scenario.cfg_cw20)].
Proof. split; reflexivity. Qed.

Example sendTokens_rejected :
  let r := Wallet.sendTokens Scenario.cfg Scenario.chain_down "cosmos1a" "500"
             (Scenario.wallet_of Scenario.funded) in
  fst r = inl (JsError "Error: Failed to send tokens: Error: connection refused") /\
  Wallet.walletState (snd r) = Scenario.funded.
Proof. split; reflexivity. Qed.

Example happy_path_sent :
  ClaimManager.claimTxQueue (ClaimManager.mgr Scenario.one_sent) = [] /\
  ClaimManager.pendingTxQueue (ClaimManager.mgr Scenario.one_sent) !! "TX0"%string
    = Some 0%nat /\
  claimStatus (claim (ClaimManager.deref Scenario.one_sent 0%nat)) = PENDING /\
  Hub.broadcasts (ClaimManager.hub Scenario.one_sent)
    = [ {| processedIdx := 1; confirmedIdx := 0 |} ].
Proof. repeat split. Qed.

Example happy_path_confirmed :
  let s := run Scenario.cfg Scenario.world [GetTx 0%nat (Scenario.found 100); Tick]
             Scenario.one_sent in
  ClaimManager.pendingTxQueue (ClaimManager.mgr s) = ∅ /\
  ClaimManager.claimTxDict (ClaimManager.mgr s) = ∅ /\
  ClaimManager.historyTxDict (ClaimManager.mgr s) !! 8 = Some 0%nat /\
  claimStatus (claim (ClaimManager.deref s 0%nat)) = CONFIRMED /\
  Hub.broadcasts (ClaimManager.hub s)
    = [ {| processedIdx := 1; confirmedIdx := 0 |};
        {| processedIdx := 1; confirmedIdx := 1 |} ].
Proof. repeat split. Qed.

Example confirmation_failure :
  let s := step Scenario.cfg Scenario.world Scenario.one_sent
             (GetTx 0%nat (ok (Some {| ClaimManager.code := 11;
                                       ClaimManager.tx_height := 100 |}))) in
  claimStatus (claim (ClaimManager.deref s 0%nat)) = FAILED /\
  txError (claim (ClaimManager.deref s 0%nat))
    = Some "Transaction Error: Error: Transaction failed"%string /\
  ClaimManager.pendingTxQueue (ClaimManager.mgr s) = ∅ /\
  ClaimManager.claimTxDict (ClaimManager.mgr s) = ∅ /\
  ClaimManager.lastConfirmedClaimTxIdx (ClaimManager.mgr s) = 0.
Proof. repeat split. Qed.

Example chain_down_fails_claim :
  let s := run Scenario.cfg Scenario.world_down
             [CreateClaim 1700000000 (Scenario.claimable "S1" "cosmos1alice" "1000") "";
              Tick]
             (Scenario.boot Scenario.funded) in
  claimStatus (claim (ClaimManager.deref s 0%nat)) = FAILED /\
  txError (claim (ClaimManager.deref s 0%nat))
    = Some ("Processing Exception: Error: Failed to send tokens: "
            +:+ "Error: connection refused")%string /\
  ClaimManager.claimTxQueue (ClaimManager.mgr s) = [] /\
  ClaimManager.pendingTxQueue (ClaimManager.mgr s) = ∅.
Proof. repeat split. Qed.

Example second_claim_of_a_session :
  let sd := Scenario.claimable "S1" "cosmos1alice" "1000" in
  let s := step Scenario.cfg Scenario.world (Scenario.boot Scenario.funded)
             (CreateClaim 1700000000 sd "") in
  rejects Scenario.cfg Scenario.world 1700000001 sd "" s "RACE_CLAIMING".
Proof. eexists. reflexivity. Qed.

Example stable_sort :
  ClaimManager.sort_by (fun r => nth r [5; 3; 5; 1; 3] 0) [0; 1; 2; 3; 4]%nat
  = [3; 1; 4; 0; 2]%nat.
Proof. reflexivity. Qed.

Example BigInt_examples :
  parseBigInt "1000000" = Some 1000000 /\ parseBigInt " -12 " = Some (-12) /\
  parseBigInt "0x1f" = Some 31 /\ parseBigInt "" = Some 0 /\
  parseBigInt "1.5" = None /\ parseBigInt "-0x1" = None /\ parseBigInt "12a" = None.
Proof. repeat split. Qed.

Example Double_toString_examples :
  Double.toString (Double.div (Double.of_Z 1) (Double.of_Z 3)) = "0.3333333333333333"%string /\
  Double.toString (Double.div (Double.of_Z 1) (Double.of_Z 10000000)) = "1e-7"%string /\
  Double.toString (Double.of_Z (10 ^ 21)) = "1e+21"%string /\
  Double.toString (Double.of_Z 123456789012345678) = "123456789012345680"%string /\
  Double.toString (Double.mul (Double.div (Double.of_Z 1001) (Double.of_Z 1000))
                     (Double.of_Z 1000)) = "1000.9999999999999"%string.
Proof. vm_compute. repeat split. Qed.

(** * Further properties of the wallet manager *)

Section WalletMore.

Variable cfg : FaucetConfig.
Variable chain : Chain.

(** X1: a successful [executeContract] raises [sequence] by one, lowers
    [nativeBalance] by the amount of the first coin of the fee, leaves
    the token [balance] alone, and has handed the chain exactly one
    request; the receipt reports that same fee. *)
Theorem executeContract_accounting (contractAddr : string) (msg : ContractMsg)
    (fee : StdFee) (w w' : Wallet.t) (res : TransactionResult) :
  Wallet.executeContract chain contractAddr msg fee w = (inr res, w') ->
  exists c rest f,
    fee_amount fee = c :: rest /\ parseBigInt (coin_amount c) = Some f /\
    Wallet.walletState w' =
      {| ready := true;
         sequence := sequence (Wallet.walletState w) + 1;
         balance := balance (Wallet.walletState w);
         nativeBalance := nativeBalance (Wallet.walletState w) - f |} /\
    Wallet.requests w' =
      Wallet.requests w ++ [Execute (Wallet.walletAddress w) contractAddr msg fee] /\
    receipt_fee (txPromise res) = f.
Proof.
  unfold Wallet.executeContract, Wallet.signingClient.
  destruct (ready (Wallet.walletState w)) eqn:Hr; cbn [negb]; [|discriminate].
  destruct (chain _ _) as [e|tx]; [discriminate|].
  unfold Wallet.executeContract_update, Wallet.fee_amount0.
  destruct (fee_amount fee) as [|c rest] eqn:Hf; [discriminate|].
  unfold ok. cbv beta iota.
  destruct (BigInt (coin_amount c)) as [e|f] eqn:Hb; [discriminate|].
  apply BigInt_inr in Hb.
  intros [= <- <-]. exists c, rest, f.
  unfold Wallet.sub_nativeBalance, Wallet.incr_sequence. cbn. rewrite ?Hr.
  repeat split; auto.
Qed.

(** X2: [sendTokens] with readable amounts, case by case.  A wallet
    that is not ready throws at once and nothing is sent; a request
    the chain rejects is reported as "Failed to send tokens" and
    leaves the wallet state as it was; a request the chain accepts
    succeeds with the hash of the transaction. *)
Theorem sendTokens_cases (recipientAddr amount : string) (w : Wallet.t) (a g : Z) :
  parseBigInt amount = Some a ->
  parseBigInt (cwGasAmount cfg) = Some g ->
  let rq := Wallet.sendTokens_request cfg w recipientAddr amount in
  let r := Wallet.sendTokens cfg chain recipientAddr amount w in
  (ready (Wallet.walletState w) = false ->
     r = (inl (JsError "Error: Wallet not ready"), w)) /\
  (ready (Wallet.walletState w) = true ->
     forall e, chain (Wallet.requests w) rq = inl e ->
       fst r = inl (JsError ("Error: Failed to send tokens: " +:+ Exn_toString e)) /\
       Wallet.walletState (snd r) = Wallet.walletState w /\
       Wallet.requests (snd r) = Wallet.requests w ++ [rq]) /\
  (ready (Wallet.walletState w) = true ->
     forall tx, chain (Wallet.requests w) rq = inr tx ->
       exists res, fst r = inr res /\ tr_txHash res = transactionHash tx /\
                   receipt_fee (txPromise res) = g).
Proof.
  intros Ha Hg rq r. subst rq r.
  apply BigInt_parse in Ha, Hg.
  unfold Wallet.sendTokens, Wallet.signingClient.
  repeat split.
  - intros ->. reflexivity.
  - rewrite H, H0. reflexivity.
  - rewrite H, H0. reflexivity.
  - rewrite H, H0. reflexivity.
  - intros Hr tx Hc. rewrite Hr, Hc. cbn [negb]. unfold Wallet.sendTokens_update.
    rewrite Ha, Hg. destruct (cwIsNativeToken cfg); eexists; repeat split.
Qed.

(** X3: when the chain accepted the transfer but [amount] is not an
    integer literal, [sendTokens] throws although the transaction is
    out, and [sequence] has already been advanced; the balances are
    untouched. *)
Theorem sendTokens_unreadable_amount (recipientAddr amount : string) (w : Wallet.t)
    (tx : TxResponse) :
  ready (Wallet.walletState w) = true ->
  parseBigInt amount = None ->
  chain (Wallet.requests w) (Wallet.sendTokens_request cfg w recipientAddr amount) = inr tx ->
  let r := Wallet.sendTokens cfg chain recipientAddr amount w in
  (exists text, fst r = inl (JsError text)) /\
  Wallet.walletState (snd r) =
    {| ready := true;
       sequence := sequence (Wallet.walletState w) + 1;
       balance := balance (Wallet.walletState w);
       nativeBalance := nativeBalance (Wallet.walletState w) |} /\
  Wallet.requests (snd r) =
    Wallet.requests w ++ [Wallet.sendTokens_request cfg w recipientAddr amount].
Proof.
  intros Hr Ha Hc r. subst r.
  unfold Wallet.sendTokens, Wallet.signingClient. rewrite Hr, Hc. cbn [negb].
  unfold Wallet.sendTokens_update, BigInt. rewrite Ha. cbn.
  split; [eexists; reflexivity|]. split; [|reflexivity].
  unfold Wallet.incr_sequence. now rewrite Hr.
Qed.

End WalletMore.

(** * The published status *)

Section Status.
Import ClaimManager.

Variable cfg : FaucetConfig.

(** X4: whenever [updateFaucetStatus] reports a level other than
    [ERROR], the wallet is ready, its token balance is above
    [cwMinBalance] and its native balance above [cwMinGasAmount]: the
    gate of the claim queue is then open. *)
Theorem updateFaucetStatus_not_error (s : Sys) (msg : string)
    (lvl : FaucetStatus.FaucetStatusLevel) :
  FaucetStatus.updateFaucetStatus cfg (Wallet.walletState (wallet s)) = inr (msg, lvl) ->
  lvl <> FaucetStatus.ERROR ->
  gas_available cfg s /\ out_of_gas cfg s = inr false /\
  exists minBalance,
    parseBigInt (cwMinBalance cfg) = Some minBalance /\
    minBalance < balance (Wallet.walletState (wallet s)).
Proof.
  unfold FaucetStatus.updateFaucetStatus.
  destruct (ready (Wallet.walletState (wallet s))) eqn:Hr; cbn [negb].
  2:{ intros [= _ <-] H. now contradiction H. }
  destruct (BigInt (cwMinBalance cfg)) as [e|mb] eqn:Hmb; [discriminate|].
  apply BigInt_inr in Hmb.
  destruct (Z.leb_spec (balance (Wallet.walletState (wallet s))) mb).
  { unfold ok. intros [= _ <-] H'. now contradiction H'. }
  destruct (BigInt (cwMinGasAmount cfg)) as [e|mg] eqn:Hmg; [discriminate|].
  apply BigInt_inr in Hmg. unfold ok. cbv beta iota.
  destruct (Z.leb_spec (nativeBalance (Wallet.walletState (wallet s))) mg).
  { intros [= _ <-] H'. now contradiction H'. }
  intros _ _.
  assert (Hg : gas_available cfg s) by (split; [exact Hr|eauto]).
  split; [exact Hg|]. split; [now apply out_of_gas_false|eauto].
Qed.

(** X5: with thresholds that are integer literals, [loadWalletState]
    publishes a status and leaves the wallet state the queries
    returned (the not-ready state if a query failed); a failed query
    is always published as the error "Cannot connect to network". *)
Theorem loadWalletState_published (reply : Wallet.LoadReply) (w : Wallet.t)
    (minBalance minGas low : Z) :
  parseBigInt (cwMinBalance cfg) = Some minBalance ->
  parseBigInt (cwMinGasAmount cfg) = Some minGas ->
  parseBigInt (cwLowBalanceThreshold cfg) = Some low ->
  snd (FaucetStatus.loadWalletState cfg reply w) = Wallet.loadWalletState reply w /\
  (exists st, fst (FaucetStatus.loadWalletState cfg reply w) = inr st) /\
  (reply = None ->
   fst (FaucetStatus.loadWalletState cfg reply w)
   = inr ("Cannot connect to network"%string, FaucetStatus.ERROR)).
Proof.
  intros H1 H2 H3. apply BigInt_parse in H1, H2, H3.
  unfold FaucetStatus.loadWalletState, Wallet.loadWalletState.
  destruct reply as [[[sq bal] nat]|].
  - unfold FaucetStatus.updateFaucetStatus. cbn [ready negb balance nativeBalance].
    rewrite H1, H2, H3. unfold ok. cbv beta iota.
    destruct (bal <=? minBalance); cbv beta iota.
    + repeat split; eauto. discriminate.
    + destruct (nat <=? minGas); cbv beta iota.
      * repeat split; eauto. discriminate.
      * destruct (bal <=? low); repeat split; eauto; discriminate.
  - cbn. repeat split; eauto.
Qed.

(** X6: when [cwMinBalance] is no integer literal, every reload ends
    with the wallet not ready and the error "Cannot connect to
    network", even if all queries succeeded: the exception of
    [updateFaucetStatus] is caught by the [catch] of [loadWalletState]. *)
Theorem loadWalletState_unreadable_threshold (reply : Wallet.LoadReply) (w : Wallet.t) :
  parseBigInt (cwMinBalance cfg) = None ->
  FaucetStatus.loadWalletState cfg reply w
  = (inr ("Cannot connect to network"%string, FaucetStatus.ERROR),
     Wallet.set_walletState FaucetStatus.not_ready w).
Proof.
  intros H. unfold FaucetStatus.loadWalletState.
  destruct reply as [[[sq bal] nat]|]; [|reflexivity].
  unfold FaucetStatus.updateFaucetStatus at 1. cbn [ready negb].
  unfold BigInt. rewrite H. reflexivity.
Qed.

End Status.

(** * The refill controller's cooldowns *)

Section RefillCooldowns.
Import ClaimManager.

Variable cfg : FaucetConfig.
Variable chain : Chain.

Lemma execute_action_lastRefillTry (now' : Z) (load : Wallet.LoadReply)
    (action : Refill.RefillAction) (available : Z) (s : Sys) (rf : Refill.t) :
  Refill.lastRefillTry
    (snd (Refill.execute_action cfg chain now' load action available s rf))
  = Refill.lastRefillTry rf.
Proof.
  unfold Refill.execute_action.
  destruct (match action with Refill.refill => _ | Refill.overflow => _ end)
    as [[e|tr] wl]; [reflexivity|].
  destruct (negb (truthy _)); [reflexivity|].
  destruct (negb (receipt_status _)); [reflexivity|].
  destruct (FaucetStatus.loadWalletState cfg load wl) as [[e|st] wl'']; reflexivity.
Qed.

(** An invocation that gets past the switches and the cooldowns
    stamps [lastRefillTry] and clears [isRefilling], whatever
    happens afterwards. *)
Lemma tryRefillWallet_stamps (now now' : Z) (unclaimed : Res Z) (load : Wallet.LoadReply)
    (s : Sys) (rf : Refill.t) :
  cwRefillEnabled cfg = true ->
  truthy (cwRefillContract cfg) = true ->
  Refill.cooled_down cfg now rf = true ->
  Refill.lastRefillTry (snd (Refill.tryRefillWallet cfg chain now now' unclaimed load s rf))
    = now /\
  Refill.isRefilling (snd (Refill.tryRefillWallet cfg chain now now' unclaimed load s rf))
    = false.
Proof.
  intros He Hc Hcd. unfold Refill.tryRefillWallet. rewrite He, Hc, Hcd. cbn [negb orb].
  destruct (Refill.availableBalance unclaimed s) as [e|av]; [split; reflexivity|].
  destruct (Refill.refillAction cfg av) as [e|[act|]]; try (split; reflexivity).
  match goal with |- context [Refill.execute_action ?a ?b ?c ?d ?e ?f ?g ?h] =>
    pose proof (execute_action_lastRefillTry c d e f g h) as Hx;
    destruct (Refill.execute_action a b c d e f g h) as [[res s'] rf']
  end.
  cbn in Hx |- *. split; [exact Hx|reflexivity].
Qed.

(** X7: the attempt cooldown.  After an invocation at the time [now]
    (not 0) that got past the switches and the cooldowns, whatever its
    outcome, every invocation less than 60 seconds later changes
    nothing: neither the system nor the controller's own state. *)
Theorem tryRefillWallet_attempt_cooldown (now now' t t' : Z) (unclaimed unclaimed2 : Res Z)
    (load load2 : Wallet.LoadReply) (s : Sys) (rf : Refill.t) :
  cwRefillEnabled cfg = true ->
  truthy (cwRefillContract cfg) = true ->
  Refill.cooled_down cfg now rf = true ->
  now <> 0 ->
  t - now < 60 ->
  let first := Refill.tryRefillWallet cfg chain now now' unclaimed load s rf in
  Refill.tryRefillWallet cfg chain t t' unclaimed2 load2 (fst first) (snd first) = first.
Proof.
  intros He Hc Hcd Hnow Ht first.
  destruct (tryRefillWallet_stamps now now' unclaimed load s rf He Hc Hcd) as [Htry _].
  fold first in Htry. destruct first as [s1 rf1]. cbn in Htry |- *.
  unfold Refill.tryRefillWallet. rewrite He, Hc. cbn [negb orb].
  unfold Refill.cooled_down. rewrite Htry.
  destruct (Z.eqb_spec now 0); [contradiction|].
  destruct (Z.ltb_spec (t - now) 60); [reflexivity|lia].
Qed.

(** X8: [getRefillState] and the success cooldown.  The reported
    [cooldownRemaining] is never negative, is at most
    [cwRefillCooldown] unless the clock went back behind the last
    refill, and as long as it is positive an invocation of the
    controller at that time changes nothing. *)
Theorem getRefillState_cooldown (now now' : Z) (unclaimed : Res Z)
    (load : Wallet.LoadReply) (s : Sys) (rf : Refill.t) :
  0 <= RefillInfo.cooldownRemaining (RefillInfo.getRefillState cfg now rf) /\
  (Refill.lastRefillTime rf <= now ->
   RefillInfo.cooldownRemaining (RefillInfo.getRefillState cfg now rf)
     <= Z.max 0 (cwRefillCooldown cfg)) /\
  (0 < RefillInfo.cooldownRemaining (RefillInfo.getRefillState cfg now rf) ->
   Refill.tryRefillWallet cfg chain now now' unclaimed load s rf = (s, rf)).
Proof.
  unfold RefillInfo.getRefillState. cbn [RefillInfo.cooldownRemaining].
  destruct (Z.eqb_spec (Refill.lastRefillTime rf) 0) as [Hz|Hz]; cbn [negb andb];
    [repeat split; lia|].
  destruct (Z.eqb_spec (cwRefillCooldown cfg) 0) as [Hc|Hc]; cbn [negb andb];
    [repeat split; lia|].
  destruct (Z.ltb_spec (now - Refill.lastRefillTime rf) (cwRefillCooldown cfg)) as [Hlt|Hge];
    [|repeat split; lia].
  repeat split; try lia.
  intros _. unfold Refill.tryRefillWallet.
  destruct (negb (cwRefillEnabled cfg) || negb (truthy (cwRefillContract cfg)));
    [reflexivity|].
  unfold Refill.cooled_down.
  destruct (Z.eqb_spec (Refill.lastRefillTime rf) 0); [contradiction|].
  destruct (Z.eqb_spec (cwRefillCooldown cfg) 0); [contradiction|].
  destruct (Z.ltb_spec (now - Refill.lastRefillTime rf) (cwRefillCooldown cfg)); [|lia].
  cbn. rewrite andb_false_r. reflexivity.
Qed.

End RefillCooldowns.

(** * Amounts written and read back *)

Section DecimalRoundTrip.

Lemma digits_value_string_of_uint (d : Decimal.uint) :
  forall acc,
    digits_value 10 (NilEmpty.string_of_uint d) acc = Some (uint_value d acc).
Proof.
  induction d; intros acc; [reflexivity|..];
    cbn [NilEmpty.string_of_uint uint_value];
    rewrite <- IHd; try reflexivity.
  rewrite <- (Z.add_0_r (10 * acc)). reflexivity.
Qed.

Lemma uint_value_revapp (d : Decimal.uint) :
  forall d',
    uint_value d (Z.of_N (DecimalPos.Unsigned.of_lu d'))
    = Z.of_N (DecimalPos.Unsigned.of_lu (Decimal.revapp d d')).
Proof.
  induction d; intros d'; cbn [uint_value Decimal.revapp]; [reflexivity|..];
    rewrite <- IHd; f_equal; cbn [DecimalPos.Unsigned.of_lu]; lia.
Qed.

Lemma uint_value_of_uint (d : Decimal.uint) : uint_value d 0 = Z.of_uint d.
Proof.
  unfold Z.of_uint. rewrite DecimalPos.Unsigned.of_uint_alt.
  unfold Decimal.rev. rewrite <- uint_value_revapp. reflexivity.
Qed.

Lemma trim_start_string_of_uint (d : Decimal.uint) :
  trim_start (NilEmpty.string_of_uint d) = NilEmpty.string_of_uint d.
Proof. destruct d; reflexivity. Qed.

Lemma trim_end_string_of_uint (d : Decimal.uint) :
  trim_end (NilEmpty.string_of_uint d) = NilEmpty.string_of_uint d.
Proof.
  induction d; [reflexivity|..];
    cbn [NilEmpty.string_of_uint trim_end]; rewrite IHd;
    destruct (NilEmpty.string_of_uint d); reflexivity.
Qed.

Lemma integer_literal_string_of_uint (d : Decimal.uint) :
  d <> Decimal.Nil ->
  integer_literal (NilEmpty.string_of_uint d) = Some (Z.of_uint d).
Proof.
  intros Hd. rewrite <- uint_value_of_uint, <- digits_value_string_of_uint.
  destruct d as [|d|d|d|d|d|d|d|d|d|d]; [congruence|..]; try reflexivity.
  destruct d; reflexivity.
Qed.

Lemma parseBigInt_string_of_int (i : Decimal.int) :
  parseBigInt (NilZero.string_of_int i) = Some (Z.of_int i).
Proof.
  destruct i as [d|d]; cbn [NilZero.string_of_int Z.of_int].
  - destruct (Decimal.uint_eq_dec d Decimal.Nil) as [->|Hd]; [reflexivity|].
    assert (NilZero.string_of_uint d = NilEmpty.string_of_uint d) as ->
      by (destruct d; [congruence|reflexivity..]).
    unfold parseBigInt.
    rewrite trim_start_string_of_uint, trim_end_string_of_uint.
    rewrite <- (integer_literal_string_of_uint d Hd).
    destruct d; [congruence|reflexivity..].
  - destruct (Decimal.uint_eq_dec d Decimal.Nil) as [->|Hd]; [reflexivity|].
    assert (NilZero.string_of_uint d = NilEmpty.string_of_uint d) as ->
      by (destruct d; [congruence|reflexivity..]).
    unfold parseBigInt.
    change (trim_start (String "-" (NilEmpty.string_of_uint d)))
      with (String "-" (NilEmpty.string_of_uint d)).
    assert (trim_end (String "-" (NilEmpty.string_of_uint d))
            = String "-" (NilEmpty.string_of_uint d)) as ->.
    { cbn [trim_end]. rewrite trim_end_string_of_uint.
      destruct d; [congruence|reflexivity..]. }
    cbv beta iota.
    change (integer_literal (String "-" (NilEmpty.string_of_uint d)))
      with (option_map Z.opp (number_value 10 (NilEmpty.string_of_uint d))).
    assert (number_value 10 (NilEmpty.string_of_uint d)
            = digits_value 10 (NilEmpty.string_of_uint d) 0) as ->
      by (destruct d; [congruence|reflexivity..]).
    rewrite digits_value_string_of_uint, uint_value_of_uint. reflexivity.
Qed.

Lemma parseBigInt_toString (z : Z) : parseBigInt (Z_toString z) = Some z.
Proof.
  unfold Z_toString. rewrite parseBigInt_string_of_int, DecimalZ.of_to. reflexivity.
Qed.

Lemma BigInt_toString (z : Z) : BigInt (Z_toString z) = inr z.
Proof. unfold BigInt. rewrite parseBigInt_toString. reflexivity. Qed.

End DecimalRoundTrip.

(** * The overflow deposit *)

Section RefillOverflow.
Import ClaimManager.

Variable cfg : FaucetConfig.
Variable chain : Chain.

(** X9: the amount of an overflow deposit survives its way through
    text.  [executeOverflow] is handed [overflowAmount.toString()] and
    [executeContract] reads it back with [BigInt]: on a ready wallet
    and a request the chain accepts, the call succeeds for every
    amount [z], the native balance goes down by exactly [z], the
    sequence up by one, and the receipt reports [z] as the fee. *)
Theorem executeOverflow_debits (z : Z) (w : Wallet.t) (contract : string)
    (tx : TxResponse) :
  cwRefillContract cfg = Some contract ->
  contract <> ""%string ->
  ready (Wallet.walletState w) = true ->
  let fee := {| fee_amount := [ {| denom := cwDenom cfg; coin_amount := Z_toString z |} ];
                gas := cwGasLimit cfg |} in
  let rq := Execute (Wallet.walletAddress w) contract deposit fee in
  chain (Wallet.requests w) rq = inr tx ->
  Refill.executeOverflow cfg chain (Z_toString z) w
  = (inr (Wallet.receipt tx z),
     {| Wallet.walletAddress := Wallet.walletAddress w;
        Wallet.walletState :=
          {| ready := true;
             sequence := sequence (Wallet.walletState w) + 1;
             balance := balance (Wallet.walletState w);
             nativeBalance := nativeBalance (Wallet.walletState w) - z |};
        Wallet.requests := Wallet.requests w ++ [rq] |}).
Proof.
  intros Hc Hne Hr fee rq Hch. subst fee rq.
  unfold Refill.executeOverflow. rewrite Hc.
  assert (truthy (Some contract) = true) as ->.
  { cbn [truthy]. destruct (String.eqb_spec contract ""); [contradiction|reflexivity]. }
  unfold Wallet.executeContract, Wallet.signingClient. rewrite Hr, Hch. cbn [negb].
  unfold Wallet.executeContract_update, Wallet.fee_amount0.
  cbn [fee_amount coin_amount]. unfold ok. cbv beta iota.
  rewrite BigInt_toString.
  unfold Wallet.set_walletState, Wallet.sub_nativeBalance, Wallet.incr_sequence.
  cbn. rewrite Hr. reflexivity.
Qed.



(** X11: a refill attempt on a chain that rejects every request never
    starts the success cooldown and never touches the wallet state:
    [lastRefillTime], [sequence] and both balances are as before. *)
Theorem tryRefillWallet_rejected (now now' : Z) (unclaimed : Res Z)
    (load : Wallet.LoadReply) (s : Sys) (rf : Refill.t) :
  (forall sent rq, exists e, chain sent rq = inl e) ->
  let r := Refill.tryRefillWallet cfg chain now now' unclaimed load s rf in
  Refill.lastRefillTime (snd r) = Refill.lastRefillTime rf /\
  Wallet.walletState (wallet (fst r)) = Wallet.walletState (wallet s).
Proof.
  intros Hrej r. subst r. unfold Refill.tryRefillWallet.
  destruct (negb (cwRefillEnabled cfg) || negb (truthy (cwRefillContract cfg))); [auto|].
  destruct (negb (Refill.cooled_down cfg now rf)); [auto|].
  destruct (Refill.availableBalance unclaimed s) as [e|av]; [auto|].
  destruct (Refill.refillAction cfg av) as [e|[act|]]; [auto| |auto].
  assert (Hx : forall contract msg fee w,
            exists e w', Wallet.executeContract chain contract msg fee w = (inl e, w') /\
                         Wallet.walletState w' = Wallet.walletState w).
  { intros contract msg fee w. unfold Wallet.executeContract, Wallet.signingClient.
    destruct (ready (Wallet.walletState w)); cbn [negb].
    - destruct (Hrej (Wallet.requests w) (Execute (Wallet.walletAddress w) contract msg fee))
        as [e ->]. eexists _, _. split; reflexivity.
    - eexists _, _. split; reflexivity. }
  unfold Refill.execute_action.
  destruct act.
  - unfold Refill.executeRefill.
    destruct (cwRefillContract cfg) as [c|]; [|auto].
    destruct (cwRefillAmount cfg) as [a|]; [|auto].
    destruct (truthy (Some c) && truthy (Some a)); [|auto].
    destruct (Hx c (withdraw a) (Wallet.gasFee cfg) (wallet s)) as (e & w' & -> & Hw); auto.
  - destruct (BigInt_opt (cwRefillOverflowAmount cfg)) as [e|o]; [auto|].
    unfold Refill.executeOverflow.
    destruct (cwRefillContract cfg) as [c|]; [|auto].
    destruct (truthy (Some c)); [|auto].
    match goal with |- context [Wallet.executeContract chain c deposit ?fee (wallet s)] =>
      destruct (Hx c deposit fee (wallet s)) as (e & w' & -> & Hw); auto
    end.
Qed.

End RefillOverflow.

(** * The notification hub in the running system *)

Section HubInvariant.
Import ClaimManager.

Variable cfg : FaucetConfig.
Variable w : World.

Lemma broadcast_unconfirmed (d : IClaimNotificationData) (h : Hub.t) :
  unconfirmed_clients (Hub.broadcastClaimNotification d h) = true.
Proof.
  unfold unconfirmed_clients, Hub.broadcastClaimNotification. cbn.
  induction (Hub.activeClients h) as [|c l IH]; [reflexivity|].
  rewrite filter_cons. destruct (decide (confirmedIdx d < Hub.claimIdx c)); [|exact IH].
  cbn. rewrite IH, andb_true_r. now apply Z.ltb_lt.
Qed.

Lemma subscribe_unconfirmed (c : Hub.Client) (h : Hub.t) :
  unconfirmed_clients h = true -> unconfirmed_clients (Hub.subscribe c h) = true.
Proof.
  unfold unconfirmed_clients, Hub.subscribe.
  destruct (Hub.lastNotificationData h) as [d|]; cbn; [|reflexivity].
  intros H. rewrite forallb_app, H. cbn.
  destruct (Z.geb_spec (confirmedIdx d) (Hub.claimIdx c)); cbn; [reflexivity|].
  rewrite andb_true_r. apply Z.ltb_lt. lia.
Qed.

Lemma restoreSession_hub (sd : Session.FaucetSessionStoreData) (mx mx' : Z) (s s' : Sys) :
  restoreSession sd (mx, s) = inr (mx', s') -> hub s' = hub s.
Proof.
  unfold restoreSession.
  destruct (Session.claim sd) as [c|]; [|discriminate].
  destruct (claimStatus c); cbn; intros [= _ <-]; try reflexivity.
  match goal with |- hub (awaitTxConfirmation ?r ?x) = _ =>
    destruct (awaitTxConfirmation_counters r x) as (_ & _ & _ & _ & _ & _ & _ & ->)
  end.
  unfold put_pending_opt. destruct (txHash c) as [h|]; [destruct (truthy _)|]; reflexivity.
Qed.

Lemma restoreSessions_hub (l : list Session.FaucetSessionStoreData) :
  forall mx s, hub (snd (snd (restoreSessions l (mx, s)))) = hub s.
Proof.
  induction l as [|sd l IH]; intros mx s; cbn -[restoreSession]; [reflexivity|].
  destruct (restoreSession sd (mx, s)) as [e|[mx' s']] eqn:Hr; cbn -[restoreSession];
    [reflexivity|].
  rewrite IH. eapply restoreSession_hub; eauto.
Qed.

Lemma initialize_hub (l : list Session.FaucetSessionStoreData) (s : Sys) :
  hub (snd (initialize l s)) = hub s.
Proof.
  unfold initialize. destruct (initialized (mgr s)); [reflexivity|].
  pose proof (restoreSessions_hub l 0 (upd_mgr (set_initialized true) s)) as H.
  destruct (restoreSessions l _) as [[e|] [mx s']]; cbn in *; exact H.
Qed.

Lemma createSessionClaim_hub (now : Z) (sd : Session.FaucetSessionStoreData)
    (userInput : string) (s : Sys) :
  hub (snd (createSessionClaim cfg w now sd userInput s)) = hub s.
Proof.
  unfold createSessionClaim.
  destruct (check_claim cfg sd s); [reflexivity|].
  destruct (sessionClaimHooks w _ userInput) as [[c m|t]|ci']; try reflexivity.
  destruct (updateSession w _); reflexivity.
Qed.

Lemma getTx_resolved_hub (r : ref) (reply : Res (option IndexedTx)) (s : Sys) :
  hub (getTx_resolved cfg r reply s) = hub s.
Proof.
  unfold getTx_resolved. destruct (bool_decide _); [|reflexivity].
  set (s0 := set_watchers _ s).
  assert (Hf : forall e, hub (confirmation_failed e r s0) = hub s).
  { intros e. now destruct (confirmation_failed_counters e r s0)
      as (_ & _ & _ & _ & _ & _ & _ & ->). }
  destruct reply as [e|[tx|]]; auto.
  destruct (code tx =? 0); auto.
  assert (Ha : hub (confirmation_assigned cfg tx r s0) = hub s).
  { unfold confirmation_assigned, delete_pending.
    destruct (txHash (claim (deref s0 r))) as [h|]; [destruct (truthy _)|]; reflexivity. }
  destruct (confirmation_succeeded_cases cfg tx r s0) as [->|[e ->]]; [exact Ha|].
  now destruct (confirmation_failed_counters e r (confirmation_assigned cfg tx r s0))
    as (_ & _ & _ & _ & _ & _ & _ & ->).
Qed.

(** A tick leaves the hub alone or broadcasts once. *)
Lemma processQueue_hub (s : Sys) :
  hub (processQueue cfg w s) = hub s \/
  exists d, hub (processQueue cfg w s) = Hub.broadcastClaimNotification d (hub s).
Proof.
  unfold processQueue. destruct (queueProcessing (mgr s)); [now left|].
  set (s1 := upd_mgr (set_queueProcessing true) s).
  destruct (processQueue_loop cfg w _ s1) as [o s2] eqn:Hloop.
  assert (Hinv : hub s2 = hub s).
  { revert Hloop. apply (processQueue_loop_inv cfg w (fun x => hub x = hub s)).
    - intros x x' Hx Hr.
      apply processQueue_round_spec in Hr as (_ & _ & c & _ & _ & _ & _ & _ & _ & Hh).
      congruence.
    - reflexivity. }
  destruct o as [e|]; cbn; [now left|].
  unfold notify. destruct (notification_due s2); cbn; [|now left].
  right. rewrite Hinv. eauto.
Qed.

Lemma step_unconfirmed (ev : Event) (s : Sys) :
  unconfirmed_clients (hub s) = true -> unconfirmed_clients (hub (step cfg w s ev)) = true.
Proof.
  intros H. destruct ev; cbn [step].
  - now rewrite initialize_hub.
  - now rewrite createSessionClaim_hub.
  - destruct (processQueue_hub s) as [->|[d ->]]; [exact H|apply broadcast_unconfirmed].
  - now rewrite getTx_resolved_hub.
  - exact H.
  - exact H.
  - cbn. now apply subscribe_unconfirmed.
  - unfold dispose. destruct (initialized (mgr s)); [reflexivity|exact H].
Qed.

(** X12: whatever happens to the running system, no subscriber stays
    connected once a broadcast has reported its claim as confirmed:
    every client in [activeClients] waits for a claim index above the
    [confirmedIdx] of the last notification. *)
Theorem active_clients_unconfirmed (evs : list Event) :
  forall s,
    unconfirmed_clients (hub s) = true ->
    unconfirmed_clients (hub (run cfg w evs s)) = true.
Proof.
  induction evs as [|ev evs IH]; intros s H; [exact H|].
  cbn. apply IH. now apply step_unconfirmed.
Qed.

End HubInvariant.

(** * More on claim requests *)

Section ClaimsMore.
Import ClaimManager.

Variable cfg : FaucetConfig.


Lemma createSessionClaim_phases (w : World) (now : Z)
    (sd : Session.FaucetSessionStoreData) (userInput : string) (s : Sys) :
  createSessionClaim cfg w now sd userInput s
  = createSessionClaim_during cfg w now sd userInput [] [] s.
Proof.
  unfold createSessionClaim, createSessionClaim_during, createSessionClaim_begin,
    createSessionClaim_hooked, createSessionClaim_end.
  destruct (check_claim cfg sd s); [reflexivity|].
  cbn. destruct (sessionClaimHooks w _ userInput) as [[c m|t]|ci']; reflexivity.
Qed.


Lemma sum_amounts_app (l1 l2 : list ClaimInfo) :
  forall acc,
    sum_amounts (l1 ++ l2) acc
    = match sum_amounts l1 acc with
      | inl e => inl e
      | inr q => sum_amounts l2 q
      end.
Proof.
  induction l1 as [|ci l1 IH]; intros acc; cbn; [reflexivity|].
  destruct (BigInt (amount ci)); [reflexivity|apply IH].
Qed.

(** X14: a new claim counts at once against the balance the refill
    controller reckons with.  After a successful [createSessionClaim],
    [getQueuedAmount] is what it was plus the amount of the new claim,
    provided the queue refers to claims that exist. *)
Theorem getQueuedAmount_grows (w : World) (now : Z)
    (sd : Session.FaucetSessionStoreData) (userInput : string) (s s' : Sys)
    (r : ref) (ci : ClaimInfo) (q a : Z) :
  createSessionClaim cfg w now sd userInput s = (inr (r, ci), s') ->
  Forall (fun x => (x < length (objects s))%nat) (claimTxQueue (mgr s)) ->
  getQueuedAmount s = inr q ->
  parseBigInt (amount ci) = Some a ->
  getQueuedAmount s' = inr (q + a).
Proof.
  unfold createSessionClaim.
  destruct (check_claim cfg sd s); [discriminate|].
  destruct (sessionClaimHooks w _ userInput) as [[c m|t]|ci']; try discriminate.
  destruct (updateSession w _); [discriminate|].
  cbn. intros [= <- <- <-] Hwf Hq Ha.
  unfold getQueuedAmount in *. cbn.
  rewrite map_app, sum_amounts_app.
  assert (Hm : map (deref (put_claimTx (session ci') (length (objects s))
                 (push_queue (length (objects s))
                    (set_objects (objects s ++ [ci'])
                       (set_sessionWrites
                          (sessionWrites s ++
                             [{| Session.sessionId := Session.sessionId sd;
                                 Session.status := Session.CLAIMING;
                                 Session.targetAddr := Session.targetAddr sd;
                                 Session.dropAmount := amount ci';
                                 Session.claim := Some (claim ci') |}])
                          (upd_mgr (fun m => set_lastClaimTxIdx (lastClaimTxIdx m + 1) m) s))))))
              (claimTxQueue (mgr s))
            = map (deref s) (claimTxQueue (mgr s))).
  { apply map_ext_Forall. eapply Forall_impl; [exact Hwf|].
    intros x Hx. unfold deref. cbn. now apply lookup_total_app_l. }
  rewrite Hm, Hq. cbn.
  unfold deref. cbn. rewrite list_lookup_total_middle by reflexivity.
  rewrite (BigInt_parse _ _ Ha). reflexivity.
Qed.

End ClaimsMore.

(** * A tick while the chain rejects *)

Section ChainRejects.
Import ClaimManager.

Variable cfg : FaucetConfig.
Variable w : World.
Hypothesis chain_rejects : forall sent rq, exists e, chain w sent rq = inl e.

Lemma sendTokens_rejected_keeps (recipientAddr amount : string) (wl : Wallet.t) :
  exists e wl',
    Wallet.sendTokens cfg (chain w) recipientAddr amount wl = (inl e, wl') /\
    Wallet.walletState wl' = Wallet.walletState wl.
Proof.
  unfold Wallet.sendTokens, Wallet.signingClient.
  destruct (ready (Wallet.walletState wl)); cbn [negb].
  - destruct (chain_rejects (Wallet.requests wl)
                (Wallet.sendTokens_request cfg wl recipientAddr amount)) as [e ->].
    eexists _, _. split; reflexivity.
  - eexists _, _. split; reflexivity.
Qed.

Lemma failed_after_alters (f1 f2 f3 : ClaimInfo -> ClaimInfo) (r x : ref)
    (l : list ClaimInfo) :
  (forall c, claimStatus (claim (f3 (f2 (f1 c)))) = FAILED) ->
  (x = r /\ (r < length l)%nat) \/ claimStatus (claim (l !!! x)) = FAILED ->
  claimStatus (claim (alter f3 r (alter f2 r (alter f1 r l)) !!! x)) = FAILED.
Proof.
  intros HF H. rewrite !list_lookup_total_alter, !length_alter.
  destruct (decide (r = x /\ (r < length l)%nat)) as [[-> Hlt]|Hn].
  - rewrite !decide_True by auto. apply HF.
  - rewrite !(decide_False (P := r = x /\ (r < length l)%nat)) by exact Hn.
    destruct H as [[-> ?]|H]; [exfalso; auto|exact H].
Qed.

(** One round on a rejecting chain: the first claim of the queue is
    taken and fails; dictionaries and wallet state stay as they are. *)
Lemma processQueue_round_rejected (s : Sys) (r : ref) (rest : list ref) :
  gas_available cfg s ->
  pending_count s < cwMaxPending cfg ->
  claimTxQueue (mgr s) = r :: rest ->
  exists s',
    processQueue_round cfg w s = (Again, s') /\
    claimTxQueue (mgr s') = rest /\
    claimTxDict (mgr s') = claimTxDict (mgr s) /\
    pendingTxQueue (mgr s') = pendingTxQueue (mgr s) /\
    Wallet.walletState (wallet s') = Wallet.walletState (wallet s) /\
    length (objects s') = length (objects s) /\
    (forall x, (x = r /\ (r < length (objects s))%nat) \/
               claimStatus (claim (deref s x)) = FAILED ->
               claimStatus (claim (deref s' x)) = FAILED).
Proof.
  intros Hg Hp Hq.
  pose proof Hg as (Hr & g & Hpg & Hlt).
  unfold processQueue_round. unfold pending_count in Hp.
  destruct (Z.ltb_spec (Z.of_nat (size (pendingTxQueue (mgr s)))) (cwMaxPending cfg)); [|lia].
  rewrite Hq. rewrite (proj2 (out_of_gas_false cfg s) Hg).
  unfold processQueueTx, Wallet.getWalletState. cbn [wallet upd_mgr].
  rewrite Hr, (BigInt_parse _ _ Hpg). cbn [negb].
  destruct (Z.leb_spec (nativeBalance (Wallet.walletState (wallet s))) g); [lia|].
  match goal with |- context [Wallet.sendTokens cfg (chain w) ?a ?b ?c] =>
    destruct (sendTokens_rejected_keeps a b c) as (e & wl' & -> & Hwl)
  end.
  eexists. split; [reflexivity|].
  cbn in Hwl. cbn. rewrite !length_alter.
  repeat split; auto.
  intros x Hx. unfold deref in *. cbn.
  apply failed_after_alters; [reflexivity|exact Hx].
Qed.

(** The loop on a rejecting chain empties the queue. *)
Lemma processQueue_loop_rejected (q : list ref) :
  forall s,
    gas_available cfg s ->
    pending_count s < cwMaxPending cfg ->
    claimTxQueue (mgr s) = q ->
    exists s',
      processQueue_loop cfg w (length q) s = (None, s') /\
      claimTxQueue (mgr s') = [] /\
      claimTxDict (mgr s') = claimTxDict (mgr s) /\
      pendingTxQueue (mgr s') = pendingTxQueue (mgr s) /\
      Wallet.walletState (wallet s') = Wallet.walletState (wallet s) /\
      (forall x, (x ∈ q /\ (x < length (objects s))%nat) \/
                 claimStatus (claim (deref s x)) = FAILED ->
                 claimStatus (claim (deref s' x)) = FAILED).
Proof.
  induction q as [|r rest IH]; intros s Hg Hp Hq.
  - exists s. cbn. unfold processQueue_round. rewrite Hq.
    destruct (_ <? _); repeat split; auto;
      intros x [[Hin _]|Hx]; solve [inversion Hin|exact Hx].
  - destruct (processQueue_round_rejected s r rest Hg Hp Hq)
      as (s1 & Hrd & Hq1 & Hd1 & Hp1 & Hw1 & Hl1 & Hf1).
    assert (Hg1 : gas_available cfg s1) by (unfold gas_available in *; now rewrite Hw1).
    assert (Hpc1 : pending_count s1 < cwMaxPending cfg)
      by (unfold pending_count in *; now rewrite Hp1).
    destruct (IH s1 Hg1 Hpc1 Hq1) as (s' & Hloop & Hq' & Hd' & Hp' & Hw' & Hf').
    exists s'. cbn [length processQueue_loop]. rewrite Hrd.
    split; [exact Hloop|]. repeat split; try congruence.
    intros x Hx. apply Hf'.
    destruct Hx as [[Hin Hlt]|Hx].
    + apply elem_of_cons in Hin as [->|Hin].
      * right. apply Hf1. now left.
      * left. split; [exact Hin|lia].
    + right. apply Hf1. now right.
Qed.

(** X15: a tick while the chain rejects every request.  With the
    gate open and room among the pending transactions, the tick takes
    the whole queue: every claim of it ends as [FAILED], the queue is
    empty, no transaction is pending that was not before, the wallet
    state is untouched, and [claimTxDict] keeps every session, those
    of the failed claims included. *)
Theorem processQueue_chain_rejects (s : Sys) :
  queueProcessing (mgr s) = false ->
  gas_available cfg s ->
  pending_count s < cwMaxPending cfg ->
  Forall (fun r => (r < length (objects s))%nat) (claimTxQueue (mgr s)) ->
  claimTxQueue (mgr (processQueue cfg w s)) = [] /\
  Forall (fun r => claimStatus (claim (deref (processQueue cfg w s) r)) = FAILED)
    (claimTxQueue (mgr s)) /\
  claimTxDict (mgr (processQueue cfg w s)) = claimTxDict (mgr s) /\
  pendingTxQueue (mgr (processQueue cfg w s)) = pendingTxQueue (mgr s) /\
  Wallet.walletState (wallet (processQueue cfg w s)) = Wallet.walletState (wallet s).
Proof.
  intros Hqp Hg Hp Hwf. unfold processQueue. rewrite Hqp.
  set (s1 := upd_mgr (set_queueProcessing true) s).
  destruct (processQueue_loop_rejected (claimTxQueue (mgr s)) s1)
    as (s2 & Hloop & Hq2 & Hd2 & Hp2 & Hw2 & Hf2); try reflexivity; try assumption.
  change (claimTxQueue (mgr s1)) with (claimTxQueue (mgr s)). rewrite Hloop.
  destruct (notify_mgr s2) as (Hm & Ho & Hw & _).
  cbn. rewrite Hm, Hw. unfold deref. cbn. rewrite Ho.
  repeat split; auto.
  apply Forall_forall. intros r Hin. apply Hf2. left. split; [exact Hin|].
  rewrite Forall_forall in Hwf. apply Hwf, Hin.
Qed.

End ChainRejects.

(** * The end of a claim *)

Section Settlement.
Import ClaimManager.

Variable cfg : FaucetConfig.

Lemma lookup_total_alter_same (f : ClaimInfo -> ClaimInfo) (r : ref) (l : list ClaimInfo) :
  (r < length l)%nat -> alter f r l !!! r = f (l !!! r).
Proof. intros H. rewrite list_lookup_total_alter. now rewrite decide_True by auto. Qed.

Lemma delete_pending_frame (h : option string) (s : Sys) :
  objects (delete_pending h s) = objects s /\
  claimTxDict (mgr (delete_pending h s)) = claimTxDict (mgr s) /\
  historyTxDict (mgr (delete_pending h s)) = historyTxDict (mgr s) /\
  claimWrites (delete_pending h s) = claimWrites s /\
  watchers (delete_pending h s) = watchers s /\
  wallet (delete_pending h s) = wallet s /\
  outflowModule (delete_pending h s) = outflowModule s /\
  (forall k, h = Some k -> k <> ""%string ->
             pendingTxQueue (mgr (delete_pending h s)) !! k = None) /\
  (forall k, pendingTxQueue (mgr s) !! k = None ->
             pendingTxQueue (mgr (delete_pending h s)) !! k = None).
Proof.
  unfold delete_pending. destruct h as [k|]; [|repeat split; auto; intros; discriminate].
  cbn [truthy]. destruct (String.eqb_spec k ""); cbn.
  - repeat split; auto. intros k' [= <-] Hne. contradiction.
  - repeat split.
    + intros k' [= <-] _. apply lookup_delete_eq.
    + intros k' Hk'. rewrite lookup_delete_None. now right.
Qed.

(** The [catch] block and [finally], on any state. *)
Lemma confirmation_failed_settles (e : Exn) (r : ref) (s : Sys) :
  (r < length (objects s))%nat ->
  claimStatus (claim (deref (confirmation_failed e r s) r)) = FAILED /\
  txFee (claim (deref (confirmation_failed e r s) r)) = txFee (claim (deref s r)) /\
  claimTxDict (mgr (confirmation_failed e r s))
    = delete (session (deref s r)) (claimTxDict (mgr s)) /\
  (forall h, txHash (claim (deref s r)) = Some h -> h <> ""%string ->
             pendingTxQueue (mgr (confirmation_failed e r s)) !! h = None) /\
  (forall h, pendingTxQueue (mgr s) !! h = None ->
             pendingTxQueue (mgr (confirmation_failed e r s)) !! h = None) /\
  historyTxDict (mgr (confirmation_failed e r s))
    = <[sequence (Wallet.walletState (wallet s)) := r]> (historyTxDict (mgr s)) /\
  claimWrites (confirmation_failed e r s)
    = claimWrites s ++ [(session (deref s r), claim (deref (confirmation_failed e r s) r))] /\
  watchers (confirmation_failed e r s) = watchers s.
Proof.
  intros Hlt. unfold confirmation_failed.
  destruct (delete_pending_frame (txHash (claim (deref s r))) s)
    as (Ho & Hd & Hh & Hc & Hw & Hwl & _ & Hp & Hp').
  set (s1 := delete_pending (txHash (claim (deref s r))) s) in *.
  assert (Hd1 : deref s1 r = deref s r) by (unfold deref; now rewrite Ho).
  rewrite Hd1. unfold updateClaimData, mutate, deref. cbn.
  rewrite Ho, Hd, Hh, Hc, Hw, Hwl. cbn.
  rewrite !lookup_total_alter_same by (rewrite ?length_alter; exact Hlt). cbn.
  repeat split; auto.
Qed.

(** The assignments of the [try] block. *)
Lemma confirmation_assigned_spec (tx : IndexedTx) (r : ref) (s : Sys) :
  (r < length (objects s))%nat ->
  deref (confirmation_assigned cfg tx r s) r
    = map_claim (fun c => set_claimStatus CONFIRMED
                            (set_txFee (cwGasAmount cfg) (set_txHeight (tx_height tx) c)))
        (deref s r) /\
  length (objects (confirmation_assigned cfg tx r s)) = length (objects s) /\
  claimTxDict (mgr (confirmation_assigned cfg tx r s))
    = delete (session (deref s r)) (claimTxDict (mgr s)) /\
  (forall h, txHash (claim (deref s r)) = Some h -> h <> ""%string ->
             pendingTxQueue (mgr (confirmation_assigned cfg tx r s)) !! h = None) /\
  historyTxDict (mgr (confirmation_assigned cfg tx r s)) = historyTxDict (mgr s) /\
  claimWrites (confirmation_assigned cfg tx r s) = claimWrites s /\
  watchers (confirmation_assigned cfg tx r s) = watchers s /\
  wallet (confirmation_assigned cfg tx r s) = wallet s /\
  outflowModule (confirmation_assigned cfg tx r s) = outflowModule s.
Proof.
  intros Hlt. unfold confirmation_assigned.
  destruct (delete_pending_frame (txHash (claim (deref s r))) s)
    as (Ho & Hd & Hh & Hc & Hw & Hwl & Hom & Hp & _).
  set (s1 := delete_pending (txHash (claim (deref s r))) s) in *.
  assert (Hd1 : deref s1 r = deref s r) by (unfold deref; now rewrite Ho).
  rewrite Hd1. unfold mutate, deref. cbn.
  rewrite Ho, Hd, Hh, Hc, Hw, Hwl, Hom, !length_alter. cbn.
  rewrite !lookup_total_alter_same by (rewrite ?length_alter; exact Hlt).
  repeat split; auto.
Qed.

(** Whether [updateClaimStatus] of the claim just confirmed throws. *)
Lemma updateClaimStatus_assigned (tx : IndexedTx) (r : ref) (s : Sys) :
  (r < length (objects s))%nat ->
  if fee_accepted cfg s
  then updateClaimStatus r (confirmation_assigned cfg tx r s)
       = inr (updateClaimData r (confirmation_assigned cfg tx r s))
  else exists e, updateClaimStatus r (confirmation_assigned cfg tx r s) = inl e.
Proof.
  intros Hlt.
  destruct (confirmation_assigned_spec tx r s Hlt) as (Hd & _ & _ & _ & _ & _ & _ & _ & Hom).
  unfold updateClaimStatus, fee_accepted, outflow_fee. rewrite Hd, Hom. cbn -[truthy].
  destruct (outflowModule s); cbn -[truthy]; [|reflexivity].
  destruct (truthy (Some (cwGasAmount cfg))); cbn; [|reflexivity].
  unfold BigInt. destruct (parseBigInt (cwGasAmount cfg)); cbn; [reflexivity|eauto].
Qed.

(** X16: what the answer of [getTx] settles.  For a claim that was
    waiting for it, the claim ends as [CONFIRMED] if the transaction
    was found with code 0 and [updateClaimStatus] goes through, that
    is, if no faucet-outflow module is registered or [cwGasAmount] is
    empty or an integer literal; it ends as [FAILED] otherwise, also
    when the transaction was found but the fee cannot be read.  Either
    way its session leaves [claimTxDict], its hash leaves
    [pendingTxQueue], the claim is written to the database once and is
    kept in [historyTxDict] under the sequence number the wallet has
    at that moment; a claim whose transaction was found records
    [cwGasAmount] as its fee. *)
Theorem getTx_resolved_settles (r : ref) (reply : Res (option IndexedTx)) (s : Sys) :
  r ∈ watchers s ->
  (r < length (objects s))%nat ->
  let s' := getTx_resolved cfg r reply s in
  claimStatus (claim (deref s' r))
    = (if confirms reply && fee_accepted cfg s then CONFIRMED else FAILED) /\
  claimTxDict (mgr s') = delete (session (deref s r)) (claimTxDict (mgr s)) /\
  (forall h, txHash (claim (deref s r)) = Some h -> h <> ""%string ->
             pendingTxQueue (mgr s') !! h = None) /\
  historyTxDict (mgr s')
    = <[sequence (Wallet.walletState (wallet s)) := r]> (historyTxDict (mgr s)) /\
  claimWrites s' = claimWrites s ++ [(session (deref s r), claim (deref s' r))] /\
  watchers s' = remove_first r (watchers s) /\
  (confirms reply = true -> txFee (claim (deref s' r)) = Some (cwGasAmount cfg)).
Proof.
  intros Hin Hlt s'. subst s'. unfold getTx_resolved.
  rewrite bool_decide_true by exact Hin.
  set (s0 := set_watchers (remove_first r (watchers s)) s).
  assert (Hlt0 : (r < length (objects s0))%nat) by exact Hlt.
  assert (Hfail : forall e,
    let s' := confirmation_failed e r s0 in
    claimStatus (claim (deref s' r)) = FAILED /\
    claimTxDict (mgr s') = delete (session (deref s r)) (claimTxDict (mgr s)) /\
    (forall h, txHash (claim (deref s r)) = Some h -> h <> ""%string ->
               pendingTxQueue (mgr s') !! h = None) /\
    historyTxDict (mgr s')
      = <[sequence (Wallet.walletState (wallet s)) := r]> (historyTxDict (mgr s)) /\
    claimWrites s' = claimWrites s ++ [(session (deref s r), claim (deref s' r))] /\
    watchers s' = remove_first r (watchers s)).
  { intros e.
    destruct (confirmation_failed_settles e r s0 Hlt0) as (H1 & _ & H2 & H3 & _ & H4 & H5 & H6).
    repeat split; assumption. }
  destruct reply as [e|[tx|]]; cbn [confirms andb].
  - destruct (Hfail e) as (H1 & H2 & H3 & H4 & H5 & H6).
    repeat split; auto; discriminate.
  - destruct (code tx =? 0); cbn [andb].
    + destruct (confirmation_assigned_spec tx r s0 Hlt0)
        as (Ad & Al & Adict & Ap & Ah & Ac & Aw & Awl & Aom).
      pose proof (updateClaimStatus_assigned tx r s0 Hlt0) as Hu.
      change (fee_accepted cfg s0) with (fee_accepted cfg s) in Hu.
      unfold confirmation_succeeded. cbv zeta.
      set (s6 := confirmation_assigned cfg tx r s0) in *.
      destruct (fee_accepted cfg s).
      * rewrite Hu.
        change (deref (keep_history r (updateClaimData r s6)) r) with (deref s6 r).
        cbn [keep_history updateClaimData upd_mgr set_claimWrites mgr claimTxDict
             set_historyTxDict pendingTxQueue historyTxDict claimWrites watchers wallet].
        rewrite Ad, Adict, Ah, Ac, Aw, Awl.
        repeat split; auto.
      * destruct Hu as [e ->].
        assert (Hlt6 : (r < length (objects s6))%nat) by (rewrite Al; exact Hlt).
        destruct (confirmation_failed_settles e r s6 Hlt6)
          as (H1 & H1' & H2 & H3 & H3' & H4 & H5 & H6).
        split; [exact H1|].
        split; [rewrite H2, Ad, Adict; cbn [session map_claim]; apply delete_delete_eq|].
        split; [intros h Hh Hne; apply H3'; now apply Ap|].
        split; [rewrite H4, Ah, Awl; reflexivity|].
        split; [rewrite H5, Ac, Ad; reflexivity|].
        split; [rewrite H6, Aw; reflexivity|].
        intros _. rewrite H1', Ad. reflexivity.
    + destruct (Hfail (JsError "Error: Transaction failed")) as (H1 & H2 & H3 & H4 & H5 & H6).
      repeat split; auto; discriminate.
  - destruct (Hfail (JsError "Error: Transaction failed")) as (H1 & H2 & H3 & H4 & H5 & H6).
    repeat split; auto; discriminate.
Qed.

Lemma getTx_resolved_history (r : ref) (reply : Res (option IndexedTx)) (s : Sys) :
  r ∈ watchers s ->
  historyTxDict (mgr (getTx_resolved cfg r reply s))
    = <[sequence (Wallet.walletState (wallet s)) := r]> (historyTxDict (mgr s)) /\
  wallet (getTx_resolved cfg r reply s) = wallet s /\
  watchers (getTx_resolved cfg r reply s) = remove_first r (watchers s).
Proof.
  intros Hin. unfold getTx_resolved. rewrite bool_decide_true by exact Hin.
  set (s0 := set_watchers (remove_first r (watchers s)) s).
  assert (Hfail : forall e s1,
    historyTxDict (mgr s1) = historyTxDict (mgr s) -> wallet s1 = wallet s ->
    watchers s1 = remove_first r (watchers s) ->
    historyTxDict (mgr (confirmation_failed e r s1))
      = <[sequence (Wallet.walletState (wallet s)) := r]> (historyTxDict (mgr s)) /\
    wallet (confirmation_failed e r s1) = wallet s /\
    watchers (confirmation_failed e r s1) = remove_first r (watchers s)).
  { intros e s1 E1 E2 E3.
    destruct (delete_pending_frame (txHash (claim (deref s1 r))) s1)
      as (Ho & Hd & Hh & Hc & Hw & Hwl & _).
    unfold confirmation_failed. cbn. rewrite Hh, Hwl, Hw, E1, E2, E3. auto. }
  destruct reply as [e|[tx|]]; try (apply Hfail; reflexivity).
  destruct (code tx =? 0); [|apply Hfail; reflexivity].
  destruct (delete_pending_frame (txHash (claim (deref s0 r))) s0)
    as (Ho & Hd & Hh & Hc & Hw & Hwl & _).
  assert (Ha : historyTxDict (mgr (confirmation_assigned cfg tx r s0)) = historyTxDict (mgr s) /\
               wallet (confirmation_assigned cfg tx r s0) = wallet s /\
               watchers (confirmation_assigned cfg tx r s0) = remove_first r (watchers s)).
  { unfold confirmation_assigned. cbn. rewrite Hh, Hwl, Hw. auto. }
  destruct Ha as (A1 & A2 & A3).
  destruct (confirmation_succeeded_cases cfg tx r s0) as [->|[e ->]].
  - cbn [keep_history updateClaimData upd_mgr set_claimWrites mgr claimTxDict
         set_historyTxDict pendingTxQueue historyTxDict claimWrites watchers wallet].
    rewrite A1, A2, A3. auto.
  - now apply Hfail.
Qed.

Lemma elem_of_remove_first_ne (r1 r2 : ref) (l : list ref) :
  r2 ∈ l -> r1 <> r2 -> r2 ∈ remove_first r1 l.
Proof.
  intros Hin Hne. induction l as [|x l IH]; [inversion Hin|].
  cbn. destruct (Nat.eqb_spec x r1) as [->|Hx].
  - apply elem_of_cons in Hin as [->|Hin]; [contradiction|exact Hin].
  - apply elem_of_cons in Hin as [->|Hin]; [apply list_elem_of_here|].
    apply list_elem_of_further, IH, Hin.
Qed.

(** X17: two claims settled while the wallet's sequence number stands
    still share one slot of [historyTxDict]: the second takes the
    place of the first, which the history then no longer holds under
    that number. *)
Theorem historyTxDict_slot_shared (r1 r2 : ref) (reply1 reply2 : Res (option IndexedTx))
    (s : Sys) :
  r1 ∈ watchers s -> r2 ∈ watchers s -> r1 <> r2 ->
  let s1 := getTx_resolved cfg r1 reply1 s in
  let s2 := getTx_resolved cfg r2 reply2 s1 in
  historyTxDict (mgr s1) !! sequence (Wallet.walletState (wallet s)) = Some r1 /\
  historyTxDict (mgr s2)
    = <[sequence (Wallet.walletState (wallet s)) := r2]> (historyTxDict (mgr s)) /\
  size (historyTxDict (mgr s2)) = size (historyTxDict (mgr s1)).
Proof.
  intros H1 H2 Hne s1 s2.
  destruct (getTx_resolved_history r1 reply1 s H1) as (Hh1 & Hw1 & Hws1).
  fold s1 in Hh1, Hw1, Hws1.
  assert (H2' : r2 ∈ watchers s1)
    by (rewrite Hws1; now apply elem_of_remove_first_ne).
  destruct (getTx_resolved_history r2 reply2 s1 H2') as (Hh2 & _ & _).
  fold s2 in Hh2. rewrite Hw1 in Hh2.
  rewrite Hh2, Hh1, insert_insert_eq.
  repeat split.
  - apply lookup_insert_eq.
  - rewrite !map_size_insert. reflexivity.
Qed.

End Settlement.

(** * Start-up, once *)

Section StartUp.
Import ClaimManager.

Lemma restoreSession_initialized (sd : Session.FaucetSessionStoreData) (mx mx' : Z)
    (s s' : Sys) :
  restoreSession sd (mx, s) = inr (mx', s') ->
  initialized (mgr s') = initialized (mgr s) /\
  lastClaimTxIdx (mgr s') = lastClaimTxIdx (mgr s).
Proof.
  unfold restoreSession.
  destruct (Session.claim sd) as [c|]; [|discriminate].
  destruct (claimStatus c); cbn; intros [= _ <-]; try (split; reflexivity).
  match goal with |- context [awaitTxConfirmation ?r ?x] =>
    destruct (awaitTxConfirmation_counters r x) as (_ & _ & _ & -> & _ & _ & -> & _)
  end.
  unfold put_pending_opt. destruct (txHash c) as [h|]; [destruct (truthy _)|];
    split; reflexivity.
Qed.

Lemma restoreSessions_initialized (l : list Session.FaucetSessionStoreData) :
  forall mx s,
    initialized (mgr (snd (snd (restoreSessions l (mx, s))))) = initialized (mgr s) /\
    lastClaimTxIdx (mgr (snd (snd (restoreSessions l (mx, s))))) = lastClaimTxIdx (mgr s).
Proof.
  induction l as [|sd l IH]; intros mx s; cbn -[restoreSession]; [split; reflexivity|].
  destruct (restoreSession sd (mx, s)) as [e|[mx' s']] eqn:Hr; cbn -[restoreSession];
    [split; reflexivity|].
  destruct (IH mx' s') as [-> ->]. eapply restoreSession_initialized; eauto.
Qed.

(** X19: [initialize] runs once.  Whatever the first call met, a
    stored session it could not read included, the manager counts as
    initialized afterwards, and a second call returns at once without
    reading a single session. *)
Theorem initialize_once (l l2 : list Session.FaucetSessionStoreData) (s : Sys) :
  initialized (mgr (snd (initialize l s))) = true /\
  initialize l2 (snd (initialize l s)) = (None, snd (initialize l s)).
Proof.
  assert (H : initialized (mgr (snd (initialize l s))) = true).
  { unfold initialize. destruct (initialized (mgr s)) eqn:Hi; [exact Hi|].
    destruct (restoreSessions_initialized l 0 (upd_mgr (set_initialized true) s)) as [H _].
    destruct (restoreSessions l _) as [[e|] [mx s']]; cbn in *; exact H. }
  split; [exact H|]. unfold initialize at 1. rewrite H. reflexivity.
Qed.

Lemma restoreSessions_app (l1 l2 : list Session.FaucetSessionStoreData) :
  forall st,
    restoreSessions (l1 ++ l2) st
    = match restoreSessions l1 st with
      | (Some e, st') => (Some e, st')
      | (None, st') => restoreSessions l2 st'
      end.
Proof.
  induction l1 as [|sd l1 IH]; intros st; cbn -[restoreSession]; [reflexivity|].
  destruct (restoreSession sd st) as [e|st']; [reflexivity|apply IH].
Qed.

(** X20: a stored session without claim record stops the recovery.
    The sessions before it are restored, it and all sessions after it
    are not, the queue is left unsorted and [lastClaimTxIdx] is never
    set; [initialize] ends with the [TypeError] of reading
    [claimStatus] of the missing record. *)
Theorem initialize_stops_at_missing_claim
    (l1 l2 : list Session.FaucetSessionStoreData) (sd : Session.FaucetSessionStoreData)
    (s : Sys) :
  initialized (mgr s) = false ->
  Session.claim sd = None ->
  Forall (fun x => Session.claim x <> None) l1 ->
  initialize (l1 ++ sd :: l2) s
  = (Some (JsError "TypeError: Cannot read properties of undefined (reading 'claimStatus')"),
     snd (snd (restoreSessions l1 (0, upd_mgr (set_initialized true) s)))) /\
  fst (restoreSessions l1 (0, upd_mgr (set_initialized true) s)) = None /\
  lastClaimTxIdx (mgr (snd (initialize (l1 ++ sd :: l2) s))) = lastClaimTxIdx (mgr s).
Proof.
  intros Hi Hc Hl1.
  assert (Hok : forall st, fst (restoreSessions l1 st) = None).
  { induction Hl1 as [|x l Hx _ IH]; intros st; cbn -[restoreSession]; [reflexivity|].
    unfold restoreSession at 1. destruct st as [mx s0].
    destruct (Session.claim x) as [c|]; [|contradiction].
    destruct (claimStatus c); cbn -[restoreSession]; try apply IH.
    all: match goal with
         | |- context [let '(_, _) := ?p in _] => destruct p
         | _ => idtac
         end; apply IH. }
  unfold initialize. rewrite Hi, restoreSessions_app.
  specialize (Hok (0, upd_mgr (set_initialized true) s)).
  destruct (restoreSessions_initialized l1 0 (upd_mgr (set_initialized true) s)) as [_ Hidx].
  destruct (restoreSessions l1 _) as [[e|] [mx s']]; [discriminate|].
  cbn -[restoreSession]. unfold restoreSession. rewrite Hc.
  split; [reflexivity|]. split; [reflexivity|]. exact Hidx.
Qed.

End StartUp.

(** * The address guard and [isValidAddress] *)

Section Addresses.
Import ClaimManager.

Variable cfg : FaucetConfig.

Lemma prefix_append (p rest : string) : String.prefix p (p +:+ rest) = true.
Proof.
  induction p as [|c p IH]; [now destruct rest|].
  simpl. destruct (ascii_dec c c); [exact IH|contradiction].
Qed.

Lemma length_append (p rest : string) :
  String.length (p +:+ rest) = (String.length p + String.length rest)%nat.
Proof. induction p as [|c p IH]; simpl; [reflexivity|now rewrite IH]. Qed.

(** X21: the address guard of [createSessionClaim] looks at the
    prefix only.  A claimable session with an amount within the limits
    is accepted for every target address that continues
    [cwAddressPrefix], whatever follows the prefix, while
    [isValidAddress] holds of such an address exactly when 39
    characters follow. *)
Theorem createSessionClaim_prefix_only (w : World) (now : Z)
    (sd : Session.FaucetSessionStoreData) (userInput rest : string) (s : Sys)
    (d lo hi : Z) :
  Session.status sd = Session.CLAIMABLE ->
  parseBigInt (Session.dropAmount sd) = Some d ->
  parseBigInt (cwMinAmount cfg) = Some lo ->
  parseBigInt (cwMaxAmount cfg) = Some hi ->
  lo <= d <= hi ->
  Session.targetAddr sd = cwAddressPrefix cfg +:+ rest ->
  claimTxDict (mgr s) !! Session.sessionId sd = None ->
  (forall ci, sessionClaimHooks w ci userInput = inr ci) ->
  (forall x, updateSession w x = inr tt) ->
  (exists ci s',
     createSessionClaim cfg w now sd userInput s = (inr (length (objects s), ci), s') /\
     target ci = cwAddressPrefix cfg +:+ rest) /\
  isValidAddress (Session.targetAddr sd) (cwAddressPrefix cfg)
    = (String.length rest =? 39)%nat.
Proof.
  intros Hst Hd Hlo Hhi Hrange Ht Hdict Hhooks Hupd.
  apply BigInt_parse in Hd, Hlo, Hhi.
  split.
  - unfold createSessionClaim, check_claim.
    rewrite Hst, Hd, Hlo, Hhi, Ht, prefix_append, Hdict. cbn [Session.status_eqb negb].
    destruct (Z.ltb_spec d lo); [lia|].
    destruct (Z.gtb_spec d hi); [lia|].
    unfold ok. cbv beta iota. rewrite Hhooks, Hupd. cbn.
    eexists _, _. split; reflexivity.
  - unfold isValidAddress. rewrite Ht, prefix_append, length_append. cbn [andb].
    destruct (Nat.eqb_spec (String.length rest) 39) as [->|Hne].
    + apply Nat.eqb_refl.
    + apply Nat.eqb_neq. lia.
Qed.

End Addresses.


(** * The tick among other activity *)

Section InterleavedTick.
Import ClaimManager Interleaved.

Variable cfg : FaucetConfig.
Variable w : World.

Lemma sendTokens_parts (recipientAddr amount : string) (wl : Wallet.t) :
  Wallet.sendTokens cfg (chain w) recipientAddr amount wl
  = match Wallet.sendTokens_call cfg (chain w) recipientAddr amount wl with
    | None => (throw (JsError "Error: Wallet not ready"), wl)
    | Some (answer, wl') => Wallet.sendTokens_return cfg amount answer wl'
    end.
Proof.
  unfold Wallet.sendTokens, Wallet.sendTokens_call, Wallet.sendTokens_return,
    Wallet.signingClient.
  destruct (ready (Wallet.walletState wl)); cbn [negb]; [|reflexivity].
  destruct (chain w _ _); reflexivity.
Qed.

(** ** Nothing but the loop takes claims off the queue *)

Lemma restoreSession_queue (sd : Session.FaucetSessionStoreData) (mx mx' : Z) (s s' : Sys) :
  restoreSession sd (mx, s) = inr (mx', s') ->
  exists q, claimTxQueue (mgr s') = claimTxQueue (mgr s) ++ q.
Proof.
  unfold restoreSession.
  destruct (Session.claim sd) as [c|]; [|discriminate].
  destruct (claimStatus c); cbn; intros [= _ <-];
    try (exists []; now rewrite app_nil_r); try (eexists; reflexivity).
  match goal with |- context [awaitTxConfirmation ?r ?x] =>
    destruct (awaitTxConfirmation_counters r x) as (-> & _)
  end.
  exists []. rewrite app_nil_r.
  unfold put_pending_opt. destruct (txHash c) as [h|]; [destruct (truthy _)|]; reflexivity.
Qed.

Lemma restoreSessions_queue (l : list Session.FaucetSessionStoreData) :
  forall mx s,
    exists q,
      claimTxQueue (mgr (snd (snd (restoreSessions l (mx, s))))) = claimTxQueue (mgr s) ++ q.
Proof.
  induction l as [|sd l IH]; intros mx s; cbn -[restoreSession];
    [exists []; now rewrite app_nil_r|].
  destruct (restoreSession sd (mx, s)) as [e|[mx' s']] eqn:Hr; cbn -[restoreSession];
    [exists []; now rewrite app_nil_r|].
  destruct (restoreSession_queue _ _ _ _ _ Hr) as [q1 Hq1].
  destruct (IH mx' s') as [q2 Hq2]. exists (q1 ++ q2).
  rewrite Hq2, Hq1, app_assoc. reflexivity.
Qed.

Lemma initialize_queue (l : list Session.FaucetSessionStoreData) (s : Sys) :
  claimTxQueue (mgr s) ⊆+ claimTxQueue (mgr (snd (initialize l s))).
Proof.
  unfold initialize. destruct (initialized (mgr s)); [reflexivity|].
  destruct (restoreSessions_queue l 0 (upd_mgr (set_initialized true) s)) as [q Hq].
  destruct (restoreSessions l _) as [[e|] [mx s']]; cbn in Hq |- *.
  - rewrite Hq. now apply submseteq_inserts_r.
  - rewrite sort_by_perm, Hq. now apply submseteq_inserts_r.
Qed.

Lemma createSessionClaim_queue (now : Z) (sd : Session.FaucetSessionStoreData)
    (userInput : string) (s : Sys) :
  claimTxQueue (mgr s)
    ⊆+ claimTxQueue (mgr (snd (createSessionClaim cfg w now sd userInput s))).
Proof.
  unfold createSessionClaim.
  destruct (check_claim cfg sd s); [reflexivity|].
  destruct (sessionClaimHooks w _ userInput) as [[c m|t]|ci']; try reflexivity.
  destruct (updateSession w _); [reflexivity|].
  cbn. now apply submseteq_inserts_r.
Qed.

Lemma getTx_resolved_queue (r : ref) (reply : Res (option IndexedTx)) (s : Sys) :
  claimTxQueue (mgr (getTx_resolved cfg r reply s)) = claimTxQueue (mgr s).
Proof.
  unfold getTx_resolved. destruct (bool_decide _); [|reflexivity].
  set (s0 := set_watchers _ s).
  assert (Hf : forall e x, claimTxQueue (mgr x) = claimTxQueue (mgr s) ->
                 claimTxQueue (mgr (confirmation_failed e r x)) = claimTxQueue (mgr s)).
  { intros e x Hx. now destruct (confirmation_failed_counters e r x) as (-> & _). }
  destruct reply as [e|[tx|]]; try (apply Hf; reflexivity).
  destruct (code tx =? 0); [|apply Hf; reflexivity].
  assert (Ha : claimTxQueue (mgr (confirmation_assigned cfg tx r s0)) = claimTxQueue (mgr s)).
  { unfold confirmation_assigned, delete_pending.
    destruct (txHash (claim (deref s0 r))) as [h|]; [destruct (truthy _)|]; reflexivity. }
  destruct (confirmation_succeeded_cases cfg tx r s0) as [->|[e ->]]; [exact Ha|].
  now apply Hf.
Qed.

(** While a tick is under way, no event takes a claim off the queue:
    a second tick returns at once. *)
Lemma step_queue (ev : Event) (s : Sys) :
  queueProcessing (mgr s) = true ->
  claimTxQueue (mgr s) ⊆+ claimTxQueue (mgr (step cfg w s ev)).
Proof.
  intros Hq. destruct ev; cbn [step].
  - apply initialize_queue.
  - apply createSessionClaim_queue.
  - unfold processQueue. rewrite Hq. reflexivity.
  - now rewrite getTx_resolved_queue.
  - reflexivity.
  - reflexivity.
  - reflexivity.
  - unfold dispose. destruct (initialized (mgr s)); reflexivity.
Qed.

Lemma meanwhile_spec (evs : list Event) :
  forall view s view' s',
    meanwhile cfg w evs (view, s) = (view', s') ->
    queueProcessing (mgr s') = queueProcessing (mgr s) /\
    (queueProcessing (mgr s) = true -> claimTxQueue (mgr s) ⊆+ claimTxQueue (mgr s')) /\
    (forall ws, view = Some ws -> view' = Some ws) /\
    (forallb (fun ev => negb (is_reload ev)) evs = true -> view' = view) /\
    (evs = [] -> s' = s).
Proof.
  induction evs as [|ev evs IH]; intros view s view' s'; cbn [meanwhile fold_left].
  - intros [= <- <-]. repeat split; auto.
  - intros H. apply IH in H as (Hqp & Hq & Hv & Hnr & _).
    destruct (step_flags cfg w ev s) as [_ Hf].
    split; [congruence|]. split; [|split; [|split]].
    + intros Htrue. etransitivity; [now apply step_queue|].
      apply Hq. congruence.
    + intros ws ->. now apply Hv.
    + cbn [forallb]. intros Hall. apply andb_true_iff in Hall as [Hev Hall].
      rewrite (Hnr Hall). destruct view; [reflexivity|].
      destruct (is_reload ev); [discriminate|reflexivity].
    + discriminate.
Qed.

(** ** One round *)

Lemma processQueueTx_during_spec (evs : list Event) (r : ref) (view view' : View)
    (s s' : Sys) (res : Res unit) :
  processQueueTx_during cfg w evs r (view, s) = (res, (view', s')) ->
  queueProcessing (mgr s') = queueProcessing (mgr s) /\
  (queueProcessing (mgr s) = true -> claimTxQueue (mgr s) ⊆+ claimTxQueue (mgr s')) /\
  (forall ws, view = Some ws -> view' = Some ws) /\
  (forallb (fun ev => negb (is_reload ev)) evs = true -> view' = view) /\
  ((exists g, parseBigInt (cwMinGasAmount cfg) = Some g) -> res = inr tt) /\
  (evs = [] -> claimTxQueue (mgr s') = claimTxQueue (mgr s)).
Proof.
  unfold processQueueTx_during.
  destruct (ready _); cbn [negb].
  2:{ intros [= <- <- <-]. cbn. repeat split; auto. }
  destruct (BigInt (cwMinGasAmount cfg)) as [e|g] eqn:Hg.
  { intros [= <- <- <-]. repeat split; auto.
    intros [g' Hg']. apply BigInt_parse in Hg'. congruence. }
  destruct (_ <=? g).
  { intros [= <- <- <-]. cbn. repeat split; auto. }
  destruct (Wallet.sendTokens_call _ _ _ _ _) as [[answer wl']|].
  2:{ intros [= <- <- <-]. cbn. repeat split; auto. }
  destruct (meanwhile cfg w evs _) as [v2 s2] eqn:Hm.
  apply meanwhile_spec in Hm as (Hqp & Hq & Hv & Hnr & Hnil). cbn in Hqp, Hq.
  destruct (Wallet.sendTokens_return _ _ _ _) as [[ex|tr] wl''].
  - intros [= <- <- <-]. cbn. repeat split; auto.
    intros He. now rewrite (Hnil He).
  - intros [= <- <- <-].
    match goal with |- context [awaitTxConfirmation r ?x] =>
      destruct (awaitTxConfirmation_counters r x) as (Cq & _ & _ & _ & _ & Cqp & _)
    end.
    rewrite Cq, Cqp. cbn. repeat split; auto.
    intros He. now rewrite (Hnil He).
Qed.

Lemma gate_shut_false (ws : WalletState) :
  gate_shut cfg ws = inr false <-> gate_open cfg ws.
Proof.
  unfold gate_shut, gate_open, BigInt, ok, throw.
  destruct (ready ws); cbn [negb]; [|split; [discriminate|intros [? _]; discriminate]].
  destruct (parseBigInt _) as [g|].
  - destruct (Z.leb_spec (nativeBalance ws) g); split.
    + discriminate.
    + intros (_ & g' & [= <-] & Hlt). lia.
    + intros _. split; eauto.
    + reflexivity.
  - split; [discriminate|]. intros (_ & g' & ? & _). discriminate.
Qed.

(** What a round does: it leaves everything alone, or it found room
    among the pending transactions and the gate open on what the loop
    reads as the wallet state, and took the claim at the head of the
    queue. *)
Lemma processQueue_round_during_spec (evs : list Event) (view view' : View) (s s' : Sys)
    (rd : Round) (d : list Dequeue) :
  processQueue_round_during cfg w evs (view, s) = (rd, (view', s'), d) ->
  match rd with
  | Again =>
      exists c rest,
        claimTxQueue (mgr s) = c :: rest /\
        d = [ {| taken := c; seen_then := seen view s; before := s |} ] /\
        pending_count s < cwMaxPending cfg /\
        gate_open cfg (seen view s) /\
        queueProcessing (mgr s') = queueProcessing (mgr s) /\
        (queueProcessing (mgr s) = true -> rest ⊆+ claimTxQueue (mgr s')) /\
        (forall ws, view = Some ws -> view' = Some ws) /\
        (forallb (fun ev => negb (is_reload ev)) evs = true -> view' = view) /\
        (evs = [] -> claimTxQueue (mgr s') = rest)
  | Left =>
      view' = view /\ s' = s /\ d = [] /\
      (claimTxQueue (mgr s) = [] \/ cwMaxPending cfg <= pending_count s \/
       ~ gate_open cfg (seen view s))
  | Raised _ =>
      view' = view /\ s' = s /\ d = [] /\ parseBigInt (cwMinGasAmount cfg) = None
  end.
Proof.
  unfold processQueue_round_during, pending_count.
  destruct (Z.ltb_spec (Z.of_nat (size (pendingTxQueue (mgr s)))) (cwMaxPending cfg)).
  2:{ intros [= <- <- <- <-]. repeat split; auto. }
  destruct (claimTxQueue (mgr s)) as [|c rest] eqn:Hq.
  { intros [= <- <- <- <-]. repeat split; auto. }
  destruct (gate_shut cfg (seen view s)) as [e|[|]] eqn:Hg.
  - intros [= <- <- <- <-]. repeat split; auto.
    revert Hg. unfold gate_shut, BigInt.
    destruct (ready _); cbn [negb]; [|discriminate].
    destruct (parseBigInt _); [discriminate|reflexivity].
  - intros [= <- <- <- <-]. repeat split; auto. right. right.
    intros Ho. apply gate_shut_false in Ho. congruence.
  - pose proof (proj1 (gate_shut_false _) Hg) as Ho.
    destruct (processQueueTx_during _ _ _ _ _) as [res [v3 s3]] eqn:Ht.
    apply processQueueTx_during_spec in Ht as (Hqp & Hqq & Hv & Hnr & Hres & Hnil).
    cbn in Hqp, Hqq, Hnil.
    assert (res = inr tt) as -> by (apply Hres; destruct Ho as (_ & g & Hg' & _); eauto).
    intros [= <- <- <- <-]. exists c, rest.
    split; [reflexivity|]. split; [reflexivity|]. split; [assumption|].
    split; [exact Ho|]. split; [exact Hqp|]. split; [exact Hqq|].
    split; [exact Hv|]. split; [exact Hnr|exact Hnil].
Qed.

(** ** The loop as a chain of rounds *)

Lemma loop_post_left (view : View) (s : Sys) :
  queueProcessing (mgr s) = true ->
  claimTxQueue (mgr s) = [] \/ cwMaxPending cfg <= pending_count s \/
    ~ gate_open cfg (seen view s) ->
  loop_post cfg view s (None, (view, s), []).
Proof.
  intros Hqp Hex. cbn. repeat split; auto. congruence.
Qed.

Lemma loop_post_raised (view : View) (s : Sys) (e : Exn) :
  queueProcessing (mgr s) = true ->
  parseBigInt (cwMinGasAmount cfg) = None ->
  loop_post cfg view s (Some e, (view, s), []).
Proof.
  intros Hqp Hp. cbn. repeat split; auto. discriminate.
Qed.

Lemma loop_post_again (view view1 view' : View) (s s1 s' : Sys) (c : ref)
    (rest : list ref) (d : Dequeue) (o : option Exn) (log : list Dequeue) :
  claimTxQueue (mgr s) = c :: rest ->
  taken d = c ->
  through_gate cfg d ->
  rest ⊆+ claimTxQueue (mgr s1) ->
  (forall ws, view = Some ws -> view1 = Some ws) ->
  loop_post cfg view1 s1 (o, (view', s'), log) ->
  loop_post cfg view s (o, (view', s'), [d] ++ log).
Proof.
  intros Hq Ht Hd Hsub Hv (Hall & Hqq & Hqp & Hvv & Hex & Hr).
  unfold loop_post. split; [constructor; assumption|]. split.
  { cbn. rewrite Hq, Ht. apply submseteq_skip.
    transitivity (claimTxQueue (mgr s1)); assumption. }
  split; [exact Hqp|]. split; [|split; assumption].
  intros ws Hws. apply Hvv. now apply Hv.
Qed.

Lemma round_through_gate (evs : list Event) (view view' : View) (s s' : Sys)
    (d : list Dequeue) :
  processQueue_round_during cfg w evs (view, s) = (Again, (view', s'), d) ->
  exists c rest dd,
    d = [dd] /\ taken dd = c /\ seen_then dd = seen view s /\ before dd = s /\
    claimTxQueue (mgr s) = c :: rest /\ through_gate cfg dd /\
    queueProcessing (mgr s') = queueProcessing (mgr s) /\
    (queueProcessing (mgr s) = true -> rest ⊆+ claimTxQueue (mgr s')) /\
    (forall ws, view = Some ws -> view' = Some ws) /\
    (forallb (fun ev => negb (is_reload ev)) evs = true -> view' = view) /\
    (evs = [] -> claimTxQueue (mgr s') = rest).
Proof.
  intros H. apply processQueue_round_during_spec in H.
  destruct H as (c & rest & Hq & -> & Hp & Hg & Hqp & Hsub & Hv & Hnr & Hnil).
  exists c, rest, {| taken := c; seen_then := seen view s; before := s |}.
  split; [reflexivity|]. do 4 (split; [reflexivity || assumption|]).
  split; [split; [cbn; eauto|split; assumption]|].
  repeat (split; [assumption|]). assumption.
Qed.

Lemma processQueue_quiet_post (fuel : nat) : forall (view : View) (s : Sys),
  queueProcessing (mgr s) = true ->
  (length (claimTxQueue (mgr s)) <= fuel)%nat ->
  loop_post cfg view s (processQueue_quiet cfg w fuel (view, s)).
Proof.
  induction fuel as [|fuel IH]; intros view s Hqp Hlen; cbn [processQueue_quiet];
    destruct (processQueue_round_during cfg w [] (view, s)) as [[rd [view1 s1]] d] eqn:Hr;
    destruct rd as [|e|].
  1,4: apply processQueue_round_during_spec in Hr as (-> & -> & -> & Hex);
       now apply loop_post_left.
  1,3: apply processQueue_round_during_spec in Hr as (-> & -> & -> & Hp);
       now apply loop_post_raised.
  - apply round_through_gate in Hr as (c & rest & dd & _ & _ & _ & _ & Hq & _).
    rewrite Hq in Hlen. cbn in Hlen. lia.
  - apply round_through_gate in Hr
      as (c & rest & dd & -> & Ht & _ & _ & Hq & Hd & Hqp1 & Hsub & Hv & _ & Hnil).
    specialize (IH view1 s1).
    destruct (processQueue_quiet cfg w fuel (view1, s1)) as [[o [view' s']] log].
    eapply loop_post_again; eauto.
    apply IH; [congruence|]. rewrite (Hnil eq_refl). rewrite Hq in Hlen.
    cbn in Hlen. lia.
Qed.

Lemma processQueue_loop_during_post (sched : list (list Event)) :
  forall (view : View) (s : Sys),
  queueProcessing (mgr s) = true ->
  loop_post cfg view s (processQueue_loop_during cfg w sched (view, s)).
Proof.
  induction sched as [|evs sched IH]; intros view s Hqp;
    cbn [processQueue_loop_during snd].
  { now apply processQueue_quiet_post. }
  destruct (processQueue_round_during cfg w evs (view, s)) as [[rd [view1 s1]] d] eqn:Hr.
  destruct rd as [|e|].
  - apply processQueue_round_during_spec in Hr as (-> & -> & -> & Hex).
    now apply loop_post_left.
  - apply processQueue_round_during_spec in Hr as (-> & -> & -> & Hp).
    now apply loop_post_raised.
  - apply round_through_gate in Hr
      as (c & rest & dd & -> & Ht & _ & _ & Hq & Hd & Hqp1 & Hsub & Hv & _ & _).
    specialize (IH view1 s1).
    destruct (processQueue_loop_during cfg w sched (view1, s1)) as [[o [view' s']] log].
    eapply loop_post_again; eauto; apply IH; congruence.
Qed.

(** Without a reload the loop reads the wallet manager's own state
    throughout. *)
Lemma processQueue_quiet_live (fuel : nat) : forall (view : View) (s : Sys),
  view = None ->
  Forall read_live (snd (processQueue_quiet cfg w fuel (view, s))) /\
  fst (snd (fst (processQueue_quiet cfg w fuel (view, s)))) = None.
Proof.
  induction fuel as [|fuel IH]; intros view s Hview; cbn [processQueue_quiet];
    destruct (processQueue_round_during cfg w [] (view, s)) as [[rd [view1 s1]] d] eqn:Hr;
    destruct rd as [|e|].
  1,4: apply processQueue_round_during_spec in Hr as (-> & -> & -> & _); cbn; auto.
  1,3: apply processQueue_round_during_spec in Hr as (-> & -> & -> & _); cbn; auto.
  - apply round_through_gate in Hr
      as (c & rest & dd & -> & _ & Hs & Hb & _ & _ & _ & _ & _ & Hnr & _).
    cbn. split; [|rewrite (Hnr eq_refl); exact Hview]. constructor; [|constructor].
    unfold read_live. rewrite Hs, Hb, Hview. reflexivity.
  - apply round_through_gate in Hr
      as (c & rest & dd & -> & _ & Hs & Hb & _ & _ & _ & _ & _ & Hnr & _).
    specialize (Hnr eq_refl); subst view1. specialize (IH view s1 Hview).
    destruct (processQueue_quiet cfg w fuel (view, s1)) as [[o [view' s']] log].
    cbn in *. destruct IH as [IH1 IH2]. split; [|exact IH2].
    constructor; [|exact IH1]. unfold read_live. rewrite Hs, Hb, Hview. reflexivity.
Qed.

Lemma processQueue_loop_during_live (sched : list (list Event)) :
  forall (view : View) (s : Sys),
  view = None ->
  no_reload sched = true ->
  Forall read_live (snd (processQueue_loop_during cfg w sched (view, s))) /\
  fst (snd (fst (processQueue_loop_during cfg w sched (view, s)))) = None.
Proof.
  induction sched as [|evs sched IH]; intros view s Hview Hno;
    cbn [processQueue_loop_during snd].
  { now apply processQueue_quiet_live. }
  cbn in Hno. apply andb_true_iff in Hno as [Hevs Hno].
  destruct (processQueue_round_during cfg w evs (view, s)) as [[rd [view1 s1]] d] eqn:Hr.
  destruct rd as [|e|].
  1,2: apply processQueue_round_during_spec in Hr as (-> & -> & -> & _); cbn; auto.
  apply round_through_gate in Hr
    as (c & rest & dd & -> & _ & Hs & Hb & _ & _ & _ & _ & _ & Hnr & _).
  specialize (Hnr Hevs); subst view1. specialize (IH view s1 Hview Hno).
  destruct (processQueue_loop_during cfg w sched (view, s1)) as [[o [view' s']] log].
  cbn in *. destruct IH as [IH1 IH2]. split; [|exact IH2].
  constructor; [|exact IH1]. unfold read_live. rewrite Hs, Hb, Hview. reflexivity.
Qed.

(** With nothing else going on, the claims taken are a prefix of the
    queue, in its order. *)
Lemma processQueue_quiet_fifo (fuel : nat) : forall (view : View) (s : Sys),
  claimTxQueue (mgr s)
  = map taken (snd (processQueue_quiet cfg w fuel (view, s)))
    ++ claimTxQueue (mgr (snd (snd (fst (processQueue_quiet cfg w fuel (view, s)))))).
Proof.
  induction fuel as [|fuel IH]; intros view s; cbn [processQueue_quiet];
    destruct (processQueue_round_during cfg w [] (view, s)) as [[rd [view1 s1]] d] eqn:Hr;
    destruct rd as [|e|].
  1,4: apply processQueue_round_during_spec in Hr as (-> & -> & -> & _); reflexivity.
  1,3: apply processQueue_round_during_spec in Hr as (-> & -> & -> & _); reflexivity.
  - apply round_through_gate in Hr
      as (c & rest & dd & -> & Ht & _ & _ & Hq & _ & _ & _ & _ & _ & Hnil).
    cbn. now rewrite Hq, Ht, (Hnil eq_refl).
  - apply round_through_gate in Hr
      as (c & rest & dd & -> & Ht & _ & _ & Hq & _ & _ & _ & _ & _ & Hnil).
    specialize (IH view1 s1).
    destruct (processQueue_quiet cfg w fuel (view1, s1)) as [[o [view' s']] log].
    cbn in *. now rewrite Hq, Ht, <- IH, (Hnil eq_refl).
Qed.

(** ** The tick in which nothing else happens *)

Lemma processQueueTx_quiet (r : ref) (view : View) (s : Sys) :
  processQueueTx_during cfg w [] r (view, s)
  = (fst (processQueueTx cfg w r s), (view, snd (processQueueTx cfg w r s))).
Proof.
  unfold processQueueTx_during, processQueueTx, Wallet.getWalletState.
  destruct (ready (Wallet.walletState (wallet s))) eqn:Hr; cbn [negb]; [|reflexivity].
  destruct (BigInt (cwMinGasAmount cfg)); [reflexivity|].
  destruct (_ <=? _); [reflexivity|].
  rewrite sendTokens_parts. unfold Wallet.sendTokens_call.
  change (wallet (mutate (set_claimStatus PROCESSING) r s)) with (wallet s).
  rewrite Hr. cbn [negb].
  destruct (Wallet.signingClient _ _ _) as [answer wl'].
  cbn [meanwhile fold_left wallet set_wallet].
  destruct (Wallet.sendTokens_return _ _ _ _) as [[ex|res] wl'']; reflexivity.
Qed.

Lemma processQueue_round_quiet (view : View) (s : Sys) :
  view = None ->
  fst (processQueue_round_during cfg w [] (view, s))
  = (fst (processQueue_round cfg w s), (view, snd (processQueue_round cfg w s))).
Proof.
  intros ->. unfold processQueue_round_during, processQueue_round.
  destruct (_ <? _); [|reflexivity].
  destruct (claimTxQueue (mgr s)) as [|c rest]; [reflexivity|].
  change (gate_shut cfg (seen None s)) with (out_of_gas cfg s).
  destruct (out_of_gas cfg s) as [e|[|]]; [reflexivity..|].
  rewrite processQueueTx_quiet.
  destruct (processQueueTx cfg w c _) as [[e|u] s3]; reflexivity.
Qed.

Lemma processQueue_loop_quiet (fuel : nat) : forall (view : View) (s : Sys),
  view = None ->
  fst (processQueue_quiet cfg w fuel (view, s))
  = (fst (processQueue_loop cfg w fuel s), (view, snd (processQueue_loop cfg w fuel s))).
Proof.
  induction fuel as [|fuel IH]; intros view s Hview;
    cbn [processQueue_quiet processQueue_loop];
    pose proof (processQueue_round_quiet view s Hview) as Hr;
    destruct (processQueue_round_during cfg w [] (view, s)) as [[rd [view1 s1]] d];
    destruct (processQueue_round cfg w s) as [rd0 s0];
    cbn in Hr; injection Hr as -> -> ->;
    destruct rd0 as [|e|]; try reflexivity.
  specialize (IH view s0 Hview).
  destruct (processQueue_quiet cfg w fuel (view, s0)) as [[o [view' s']] log].
  exact IH.
Qed.

(** The tick in which nothing else happens is the tick among other
    activity under the empty schedule. *)
Lemma processQueue_during_quiet (s : Sys) :
  snd (processQueue_during cfg w [] s) = processQueue cfg w s /\
  snd (fst (processQueue_during cfg w [] s)) = None.
Proof.
  unfold processQueue_during, processQueue.
  destruct (queueProcessing (mgr s)); [auto|].
  cbn [processQueue_loop_during snd].
  match goal with |- context [processQueue_quiet cfg w ?n ?st] =>
    assert (H : fst (processQueue_quiet cfg w n st)
                = (fst (processQueue_loop cfg w n (snd st)),
                   (None, snd (processQueue_loop cfg w n (snd st)))))
      by exact (processQueue_loop_quiet n None (snd st) eq_refl);
    destruct (processQueue_quiet cfg w n st) as [[o [view' s']] log];
    cbn [snd] in H;
    destruct (processQueue_loop cfg w n _) as [o0 s0]
  end.
  cbn in H. injection H as -> -> ->.
  destruct o0; auto.
Qed.

(** ** The gate *)

Lemma processQueue_loop_during_shut (sched : list (list Event)) (view : View) (s : Sys)
    (minGas : Z) :
  parseBigInt (cwMinGasAmount cfg) = Some minGas ->
  ~ gate_open cfg (seen view s) ->
  processQueue_loop_during cfg w sched (view, s) = (None, (view, s), []).
Proof.
  intros Hg Hshut.
  assert (Hround : forall evs,
            processQueue_round_during cfg w evs (view, s) = (Left, (view, s), [])).
  { intros evs.
    destruct (processQueue_round_during cfg w evs (view, s)) as [[rd [view1 s1]] d] eqn:Hr.
    pose proof (processQueue_round_during_spec _ _ _ _ _ _ _ Hr) as Hs.
    destruct rd as [|e|].
    - destruct Hs as (-> & -> & -> & _). reflexivity.
    - destruct Hs as (_ & _ & _ & Hp). congruence.
    - destruct Hs as (c & rest & _ & _ & _ & Hopen & _). contradiction. }
  destruct sched as [|evs sched]; cbn [processQueue_loop_during snd].
  - destruct (length (claimTxQueue (mgr s))); cbn [processQueue_quiet];
      now rewrite Hround.
  - now rewrite Hround.
Qed.

Lemma through_gate_balance (minGas : Z) (d : Dequeue) :
  parseBigInt (cwMinGasAmount cfg) = Some minGas ->
  through_gate cfg d ->
  (exists rest, claimTxQueue (mgr (before d)) = taken d :: rest) /\
  pending_count (before d) < cwMaxPending cfg /\
  ready (seen_then d) = true /\
  minGas < nativeBalance (seen_then d).
Proof.
  intros Hg (Hq & Hp & Hr & g & Hg' & Hlt).
  rewrite Hg in Hg'. injection Hg' as <-. auto.
Qed.

(** What a tick among other activity guarantees. *)
Lemma processQueue_during_post (sched : list (list Event)) (s s' : Sys) (minGas : Z)
    (log : list Dequeue) (view : View) :
  parseBigInt (cwMinGasAmount cfg) = Some minGas ->
  processQueue_during cfg w sched s = (log, view, s') ->
  Forall (through_gate cfg) log /\
  claimTxQueue (mgr s) ⊆+ map taken log ++ claimTxQueue (mgr s') /\
  (no_reload sched = true -> Forall read_live log /\ view = None) /\
  (queueProcessing (mgr s) = false ->
   claimTxQueue (mgr s') = [] \/ cwMaxPending cfg <= pending_count s' \/
   ~ gate_open cfg (seen view s')) /\
  (~ gate_open cfg (Wallet.walletState (wallet s)) ->
   log = [] /\ mgr s' = mgr s /\ objects s' = objects s /\ wallet s' = wallet s).
Proof.
  intros Hg. unfold processQueue_during.
  destruct (queueProcessing (mgr s)) eqn:Hqp.
  { intros [= <- <- <-]. cbn. repeat split; auto; discriminate. }
  set (s1 := upd_mgr (set_queueProcessing true) s).
  match goal with |- context [processQueue_loop_during cfg w sched ?st] =>
    assert (Hpost : loop_post cfg None s1 (processQueue_loop_during cfg w sched st))
      by exact (processQueue_loop_during_post sched None s1 eq_refl);
    assert (Hlive : no_reload sched = true ->
              Forall read_live (snd (processQueue_loop_during cfg w sched st)) /\
              fst (snd (fst (processQueue_loop_during cfg w sched st))) = None)
      by exact (processQueue_loop_during_live sched None s1 eq_refl);
    assert (Hshut : ~ gate_open cfg (seen None s1) ->
              processQueue_loop_during cfg w sched st = (None, (None, s1), []))
      by exact (processQueue_loop_during_shut sched None s1 minGas Hg);
    destruct (processQueue_loop_during cfg w sched st) as [[o [view' s2]] log']
  end.
  unfold loop_post in Hpost. destruct Hpost as (Hall & Hsub & Hqp2 & _ & Hex & Hr).
  destruct o as [e|]; [exfalso; rewrite Hr in Hg; [discriminate|discriminate]|].
  intros [= <- <- <-].
  destruct (notify_mgr s2) as (Hm & Ho & Hw & _).
  split; [exact Hall|]. split; [cbn; rewrite Hm; exact Hsub|].
  split; [exact Hlive|]. split.
  - intros _. unfold pending_count, seen in *. cbn. rewrite Hm, Hw. now apply Hex.
  - intros Hno. specialize (Hshut Hno). injection Hshut as -> -> ->.
    split; [reflexivity|]. cbn. rewrite Hm, Ho, Hw. cbn.
    split; [|auto]. clear - Hqp. destruct (mgr s). cbn in *. now subst.
Qed.

(** C7 (as amended): in every tick the gate is tested before each
    dequeue, on the wallet state object the tick fetched when it
    began: every claim the tick takes was at the head of the queue
    with that object showing the wallet ready and a native balance
    above [cwMinGasAmount], and no claim leaves the queue in any
    other way.  As long as no [loadWalletState] puts a new object in
    its place while the tick waits for the chain, that object is the
    wallet manager's state of the moment, so that nothing is taken
    while the wallet is not ready or its balance is at most
    [cwMinGasAmount].  When the wallet is not ready or the balance is
    at most [cwMinGasAmount] as the tick begins (equal to it, in
    particular), the tick takes nothing, whatever else happens: queue,
    pending transactions, [lastProcessedClaimTxIdx], claim objects and
    wallet are as before. *)
Theorem processQueue_gas_gate (sched : list (list Event)) (s s' : Sys) (minGas : Z)
    (log : list Dequeue) (view : View) :
  parseBigInt (cwMinGasAmount cfg) = Some minGas ->
  processQueue_during cfg w sched s = (log, view, s') ->
  Forall (fun d =>
            (exists rest, claimTxQueue (mgr (before d)) = taken d :: rest) /\
            ready (seen_then d) = true /\
            minGas < nativeBalance (seen_then d)) log /\
  claimTxQueue (mgr s) ⊆+ map taken log ++ claimTxQueue (mgr s') /\
  (no_reload sched = true ->
   Forall (fun d =>
             ready (Wallet.walletState (wallet (before d))) = true /\
             minGas < nativeBalance (Wallet.walletState (wallet (before d)))) log) /\
  (ready (Wallet.walletState (wallet s)) = false \/
   nativeBalance (Wallet.walletState (wallet s)) <= minGas ->
     log = [] /\
     claimTxQueue (mgr s') = claimTxQueue (mgr s) /\
     pendingTxQueue (mgr s') = pendingTxQueue (mgr s) /\
     lastProcessedClaimTxIdx (mgr s') = lastProcessedClaimTxIdx (mgr s) /\
     objects s' = objects s /\
     wallet s' = wallet s).
Proof.
  intros Hg Hrun.
  destruct (processQueue_during_post _ _ _ _ _ _ Hg Hrun) as (Hall & Hsub & Hlive & _ & Hshut).
  split; [|split; [exact Hsub|split]].
  - eapply Forall_impl; [exact Hall|]. intros d Hd.
    destruct (through_gate_balance minGas d Hg Hd) as (Hq & _ & Hr & Hlt). auto.
  - intros Hno. destruct (Hlive Hno) as [Hl _].
    apply Forall_forall. intros d Hin.
    rewrite Forall_forall in Hall, Hl.
    destruct (through_gate_balance minGas d Hg (Hall d Hin)) as (_ & _ & Hr & Hlt).
    rewrite (Hl d Hin) in Hr, Hlt. auto.
  - intros Hor.
    assert (Hno : ~ gate_open cfg (Wallet.walletState (wallet s))).
    { intros (Hr & g & Hg' & Hlt). rewrite Hg in Hg'. injection Hg' as <-.
      destruct Hor as [Hf|Hle]; [congruence|lia]. }
    destruct (Hshut Hno) as (-> & Hm & Ho & Hw).
    rewrite Hm. repeat split; assumption.
Qed.

(** ** Where a tick stops *)

(** X18: where a tick stops.  The loop goes on as long as the queue
    is not empty, fewer than [cwMaxPending] transactions are pending
    and the wallet state object the tick fetched when it began shows
    the wallet ready with a native balance above [cwMinGasAmount]:
    each claim it takes is the head of the queue at a moment when the
    three hold, and when the tick returns one of them fails.  That
    object is the wallet manager's state of the moment unless a
    [loadWalletState] has replaced it during the tick.  When nothing
    else happens during the tick, the claims taken are a prefix of the
    queue, in its order, and what is left is the rest of it. *)
Theorem processQueue_exit (sched : list (list Event)) (s s' : Sys) (minGas : Z)
    (log : list Dequeue) (view : View) :
  parseBigInt (cwMinGasAmount cfg) = Some minGas ->
  queueProcessing (mgr s) = false ->
  processQueue_during cfg w sched s = (log, view, s') ->
  Forall (fun d =>
            (exists rest, claimTxQueue (mgr (before d)) = taken d :: rest) /\
            pending_count (before d) < cwMaxPending cfg /\
            ready (seen_then d) = true /\
            minGas < nativeBalance (seen_then d)) log /\
  (claimTxQueue (mgr s') = [] \/
   cwMaxPending cfg <= pending_count s' \/
   ready (seen view s') = false \/
   nativeBalance (seen view s') <= minGas) /\
  (no_reload sched = true ->
   view = None /\
   Forall (fun d => seen_then d = Wallet.walletState (wallet (before d))) log) /\
  (sched = [] ->
   claimTxQueue (mgr s) = map taken log ++ claimTxQueue (mgr s')).
Proof.
  intros Hg Hqp Hrun.
  destruct (processQueue_during_post _ _ _ _ _ _ Hg Hrun) as (Hall & _ & Hlive & Hex & _).
  split; [|split; [|split]].
  - eapply Forall_impl; [exact Hall|]. intros d Hd.
    exact (through_gate_balance minGas d Hg Hd).
  - destruct (Hex Hqp) as [He|[Hp|Hno]]; [now left|right; now left|].
    right. right.
    destruct (ready (seen view s')) eqn:Hr; [|now left]. right.
    destruct (Z.le_gt_cases (nativeBalance (seen view s')) minGas) as [Hle|Hlt];
      [exact Hle|].
    exfalso. apply Hno. split; [exact Hr|]. exists minGas. split; [exact Hg|lia].
  - intros Hno. destruct (Hlive Hno) as [Hl ->]. split; [reflexivity|exact Hl].
  - intros ->. revert Hrun. unfold processQueue_during. rewrite Hqp.
    cbn [processQueue_loop_during snd].
    match goal with |- context [processQueue_quiet cfg w ?n ?st] =>
      pose proof (processQueue_quiet_fifo n (fst st) (snd st)) as Hf;
      cbn [fst snd] in Hf;
      assert (Hf' : claimTxQueue (mgr s)
                    = map taken (snd (processQueue_quiet cfg w n st))
                      ++ claimTxQueue (mgr (snd (snd (fst (processQueue_quiet cfg w n st))))))
        by exact Hf;
      clear Hf;
      destruct (processQueue_quiet cfg w n st) as [[o [view' s2]] log']
    end.
    cbn [fst snd] in Hf'.
    destruct (notify_mgr s2) as (Hm & _).
    destruct o; intros [= <- <- <-]; cbn; rewrite ?Hm; exact Hf'.
Qed.

(** ** What a round does to the claim it takes *)

Lemma alter3_lookup (r : ref) (l : list ClaimInfo) (f1 f2 f3 : ClaimInfo -> ClaimInfo) :
  (r < length l)%nat ->
  alter f3 r (alter f2 r (alter f1 r l)) !!! r = f3 (f2 (f1 (l !!! r))).
Proof.
  intros Hlt. rewrite !lookup_total_alter_same by (rewrite ?length_alter; exact Hlt).
  reflexivity.
Qed.

(** X22: the outcome of a round for the claim it takes, when nothing
    else happens while it waits for the chain.  The claim ends in one
    of these ways.  It is [PENDING] under the hash of its transaction
    and waits for [getTx]; or sending threw and it is [FAILED] with a
    "Processing Exception"; or the transfer returned an empty hash, in
    which case it is [FAILED] at once with "Transaction hash is
    undefined" and its session leaves [claimTxDict], while its entry
    under the empty key stays in [pendingTxQueue]; or the wallet
    manager has no query client, in which case it is [FAILED] at once
    with a [TypeError], its entry leaves [pendingTxQueue] again and its
    session leaves [claimTxDict].  The two checks at the head of
    [processQueueTx] read the wallet manager's state of the moment: as
    long as that is the object the loop tested, they do not fire; once
    a [loadWalletState] has replaced it during the tick, they can, and
    the claim is then [FAILED] with "Network RPC is currently
    unreachable." or "Faucet wallet is out of gas funds.", nothing
    being sent. *)
Theorem processQueue_round_outcome (view view' : View) (s s' : Sys) (r : ref)
    (rest : list ref) (d : list Dequeue) :
  processQueue_round_during cfg w [] (view, s) = (Again, (view', s'), d) ->
  claimTxQueue (mgr s) = r :: rest ->
  (r < length (objects s))%nat ->
  (queryClient s = true /\
   claimStatus (claim (deref s' r)) = PENDING /\
   exists h, txHash (claim (deref s' r)) = Some h /\ h <> ""%string /\
             pendingTxQueue (mgr s') !! h = Some r /\
             watchers s' = watchers s ++ [r]) \/
  (claimStatus (claim (deref s' r)) = FAILED /\
   (exists ex, txError (claim (deref s' r)) = Some ("Processing Exception: " +:+ ex)%string) /\
   pendingTxQueue (mgr s') = pendingTxQueue (mgr s) /\
   claimTxDict (mgr s') = claimTxDict (mgr s)) \/
  (claimStatus (claim (deref s' r)) = FAILED /\
   txError (claim (deref s' r))
     = Some "Transaction Error: Error: Transaction hash is undefined"%string /\
   pendingTxQueue (mgr s') !! ""%string = Some r /\
   claimTxDict (mgr s') = delete (session (deref s r)) (claimTxDict (mgr s))) \/
  (queryClient s = false /\
   claimStatus (claim (deref s' r)) = FAILED /\
   txError (claim (deref s' r))
     = Some "Transaction Error: TypeError: Cannot read properties of undefined (reading 'getTx')"%string /\
   (exists h, txHash (claim (deref s' r)) = Some h /\ h <> ""%string /\
              pendingTxQueue (mgr s') !! h = None) /\
   watchers s' = watchers s /\
   claimTxDict (mgr s') = delete (session (deref s r)) (claimTxDict (mgr s))) \/
  ((exists ws, view = Some ws) /\
   (ready (Wallet.walletState (wallet s)) = false /\
    txError (claim (deref s' r)) = Some "Network RPC is currently unreachable."%string \/
    ready (Wallet.walletState (wallet s)) = true /\
    (exists g, parseBigInt (cwMinGasAmount cfg) = Some g /\
               nativeBalance (Wallet.walletState (wallet s)) <= g) /\
    txError (claim (deref s' r)) = Some "Faucet wallet is out of gas funds."%string) /\
   claimStatus (claim (deref s' r)) = FAILED /\
   pendingTxQueue (mgr s') = pendingTxQueue (mgr s) /\
   claimTxDict (mgr s') = claimTxDict (mgr s) /\
   wallet s' = wallet s).
Proof.
  intros Hrd Hq Hlt.
  pose proof (processQueue_round_during_spec _ _ _ _ _ _ _ Hrd)
    as (c & rest' & _ & _ & _ & (Hr & g & Hpg & Hgt) & _).
  assert (Hlk : forall f1 f2 f3 : ClaimInfo -> ClaimInfo,
            alter f3 r (alter f2 r (alter f1 r (objects s))) !!! r
            = f3 (f2 (f1 (objects s !!! r)))).
  { intros. now apply alter3_lookup. }
  revert Hrd. unfold processQueue_round_during.
  destruct (_ <? _); [|discriminate]. rewrite Hq.
  destruct (gate_shut cfg (seen view s)) as [e|[|]]; try discriminate.
  rewrite processQueueTx_quiet.
  unfold processQueueTx, Wallet.getWalletState. cbn [wallet upd_mgr].
  rewrite (BigInt_parse _ _ Hpg).
  destruct (ready (Wallet.walletState (wallet s))) eqn:Hlive; cbn [negb].
  2:{ intros [= <- <- <-]. do 4 right.
      split.
      { destruct view as [ws|]; [eauto|]. cbn in Hr. congruence. }
      unfold updateClaimData, mutate, deref. cbn.
      rewrite !lookup_total_alter_same by (rewrite ?length_alter; exact Hlt). cbn.
      repeat split; auto. }
  destruct (Z.leb_spec (nativeBalance (Wallet.walletState (wallet s))) g) as [Hle|Hgt'].
  { intros [= <- <- <-]. do 4 right.
    split.
    { destruct view as [ws|]; [eauto|]. cbn in Hgt. lia. }
    unfold updateClaimData, mutate, deref. cbn.
    rewrite !lookup_total_alter_same by (rewrite ?length_alter; exact Hlt). cbn.
    split; [right; eauto|]. repeat split; auto. }
  destruct (Wallet.sendTokens _ _ _ _ _) as [[ex|res] wl'].
  - intros [= <- <- <-]. right. left.
    unfold updateClaimData, mutate, deref. cbn.
    rewrite !lookup_total_alter_same by (rewrite ?length_alter; exact Hlt). cbn.
    repeat split; eauto.
  - unfold awaitTxConfirmation, updateClaimData, put_pending, mutate, deref. cbn.
    rewrite !Hlk. cbn.
    destruct (String.eqb_spec (tr_txHash res) "") as [He|Hne]; cbn.
    + intros [= <- <- <-]. right. right. left.
      unfold confirmation_failed, delete_pending, updateClaimData, mutate, deref. cbn.
      rewrite !Hlk. cbn. rewrite He. cbn.
      rewrite !lookup_total_alter_same by (rewrite ?length_alter; exact Hlt). cbn.
      repeat split; auto. apply lookup_insert_eq.
    + destruct (queryClient s) eqn:Hqc.
      * intros [= <- <- <-]. left.
        unfold deref. cbn. rewrite !Hlk. cbn.
        split; [reflexivity|]. split; [reflexivity|]. exists (tr_txHash res).
        repeat split; auto. apply lookup_insert_eq.
      * intros [= <- <- <-]. do 3 right. left.
        unfold confirmation_failed, delete_pending, updateClaimData, mutate, deref. cbn.
        rewrite !Hlk. cbn.
        destruct (String.eqb_spec (tr_txHash res) "") as [He|_]; [contradiction|]. cbn.
        rewrite !lookup_total_alter_same by (rewrite ?length_alter; exact Hlt). cbn.
        split; [reflexivity|]. split; [reflexivity|]. split; [reflexivity|].
        split; [|split; reflexivity].
        exists (tr_txHash res). repeat split; auto. apply lookup_delete_eq.
Qed.

End InterleavedTick.

(** * The further properties at work *)

Lemma executeContract_accounting_witness :
  let w := Scenario.wallet_of Scenario.funded in
  exists res w',
    Wallet.executeContract Scenario.chain_ok "cosmos1treasury" deposit
      (Wallet.gasFee Scenario.cfg) w = (inr res, w') /\
    exists c rest f,
      fee_amount (Wallet.gasFee Scenario.cfg) = c :: rest /\
      parseBigInt (coin_amount c) = Some f /\
      Wallet.walletState w' =
        {| ready := true;
           sequence := sequence (Wallet.walletState w) + 1;
           balance := balance (Wallet.walletState w);
           nativeBalance := nativeBalance (Wallet.walletState w) - f |} /\
      Wallet.requests w' =
        Wallet.requests w ++
          [Execute (Wallet.walletAddress w) "cosmos1treasury" deposit
             (Wallet.gasFee Scenario.cfg)] /\
      receipt_fee (txPromise res) = f.
Proof.
  intros w. eexists _, _. split; [lazy; reflexivity|].
  eapply (executeContract_accounting Scenario.chain_ok "cosmos1treasury" deposit
            (Wallet.gasFee Scenario.cfg) w).
  lazy; reflexivity.
Defined.

Lemma sendTokens_cases_witness :
  let w := Scenario.wallet_of Scenario.funded in
  (parseBigInt "500" = Some 500 /\ parseBigInt (cwGasAmount Scenario.cfg) = Some 200) /\
  exists res,
    fst (Wallet.sendTokens Scenario.cfg Scenario.chain_ok "cosmos1a" "500" w) = inr res /\
    tr_txHash res = "TX0"%string /\ receipt_fee (txPromise res) = 200.
Proof.
  intros w. split; [split; reflexivity|].
  exact (proj2 (proj2 (sendTokens_cases Scenario.cfg Scenario.chain_ok "cosmos1a" "500" w
                         500 200 eq_refl eq_refl))
           eq_refl first_tx eq_refl).
Defined.

Lemma sendTokens_unreadable_amount_witness :
  let w := Scenario.wallet_of Scenario.funded in
  (ready (Wallet.walletState w) = true /\ parseBigInt "1.5" = None /\
   Scenario.chain_ok (Wallet.requests w)
     (Wallet.sendTokens_request Scenario.cfg w "cosmos1a" "1.5") = inr first_tx) /\
  Wallet.walletState (snd (Wallet.sendTokens Scenario.cfg Scenario.chain_ok "cosmos1a" "1.5" w))
  = {| ready := true; sequence := 8; balance := 100000; nativeBalance := 100000 |}.
Proof.
  intros w. split; [repeat split; reflexivity|].
  exact (proj1 (proj2 (sendTokens_unreadable_amount Scenario.cfg Scenario.chain_ok
                         "cosmos1a" "1.5" w first_tx eq_refl eq_refl eq_refl))).
Defined.

Lemma updateFaucetStatus_not_error_witness :
  let s := Scenario.boot Scenario.funded in
  (FaucetStatus.updateFaucetStatus Scenario.cfg (Wallet.walletState (ClaimManager.wallet s))
   = inr (EmptyString, FaucetStatus.INFO) /\ FaucetStatus.INFO <> FaucetStatus.ERROR) /\
  gas_available Scenario.cfg s.
Proof.
  intros s. split; [split; [reflexivity|discriminate]|].
  exact (proj1 (updateFaucetStatus_not_error Scenario.cfg s EmptyString FaucetStatus.INFO
                  eq_refl ltac:(discriminate))).
Defined.

Lemma loadWalletState_published_witness :
  let w := Scenario.wallet_of Scenario.funded in
  (parseBigInt (cwMinBalance Scenario.cfg) = Some 0 /\
   parseBigInt (cwMinGasAmount Scenario.cfg) = Some 1000 /\
   parseBigInt (cwLowBalanceThreshold Scenario.cfg) = Some 0) /\
  snd (FaucetStatus.loadWalletState Scenario.cfg (Some (8, 10000, 99800)) w)
  = Wallet.loadWalletState (Some (8, 10000, 99800)) w.
Proof.
  intros w. split; [repeat split; reflexivity|].
  exact (proj1 (loadWalletState_published Scenario.cfg (Some (8, 10000, 99800)) w 0 1000 0
                  eq_refl eq_refl eq_refl)).
Defined.

Lemma loadWalletState_unreadable_threshold_witness :
  let w := Scenario.wallet_of Scenario.funded in
  parseBigInt (cwMinBalance cfg_unreadable) = None /\
  FaucetStatus.loadWalletState cfg_unreadable (Some (8, 10000, 99800)) w
  = (inr ("Cannot connect to network"%string, FaucetStatus.ERROR),
     Wallet.set_walletState FaucetStatus.not_ready w).
Proof.
  intros w. split; [reflexivity|].
  exact (loadWalletState_unreadable_threshold cfg_unreadable (Some (8, 10000, 99800)) w
           eq_refl).
Defined.

Lemma tryRefillWallet_attempt_cooldown_witness :
  let s := Scenario.boot Scenario.funded in
  let first :=
    Refill.tryRefillWallet Scenario.cfg Scenario.chain_ok 5000 5001 (inr 0)
      (Some (8, 10000, 99800)) s Refill.fresh in
  (cwRefillEnabled Scenario.cfg = true /\
   truthy (cwRefillContract Scenario.cfg) = true /\
   Refill.cooled_down Scenario.cfg 5000 Refill.fresh = true /\
   5000 <> 0 /\ 5030 - 5000 < 60) /\
  Refill.tryRefillWallet Scenario.cfg Scenario.chain_ok 5030 5031 (inr 0)
    (Some (8, 10000, 99800)) (fst first) (snd first) = first.
Proof.
  intros s first. split; [repeat split; try reflexivity; discriminate|].
  exact (tryRefillWallet_attempt_cooldown Scenario.cfg Scenario.chain_ok 5000 5001 5030 5031
           (inr 0) (inr 0) (Some (8, 10000, 99800)) (Some (8, 10000, 99800)) s Refill.fresh
           eq_refl eq_refl eq_refl ltac:(discriminate) eq_refl).
Defined.

Lemma getRefillState_cooldown_witness :
  let s := Scenario.boot Scenario.funded in
  let rf := {| Refill.lastRefillTime := 5001; Refill.lastRefillTry := 5000;
               Refill.isRefilling := false |} in
  RefillInfo.cooldownRemaining (RefillInfo.getRefillState Scenario.cfg 6001 rf) = 2600 /\
  Refill.tryRefillWallet Scenario.cfg Scenario.chain_ok 6001 6002 (inr 0)
    (Some (8, 10000, 99800)) s rf = (s, rf).
Proof.
  intros s rf. split; [reflexivity|].
  exact (proj2 (proj2 (getRefillState_cooldown Scenario.cfg Scenario.chain_ok 6001 6002
                         (inr 0) (Some (8, 10000, 99800)) s rf)) eq_refl).
Defined.

Lemma executeOverflow_debits_witness :
  let w := Scenario.wallet_of Scenario.funded in
  (cwRefillContract Scenario.cfg = Some "cosmos1treasury"%string /\
   ready (Wallet.walletState w) = true) /\
  nativeBalance
    (Wallet.walletState (snd (Refill.executeOverflow Scenario.cfg Scenario.chain_ok
                                (Z_toString 90000) w)))
  = 10000.
Proof.
  intros w. split; [split; reflexivity|].
  rewrite (executeOverflow_debits Scenario.cfg Scenario.chain_ok 90000 w "cosmos1treasury"
             first_tx eq_refl ltac:(discriminate) eq_refl eq_refl).
  reflexivity.
Defined.


Lemma tryRefillWallet_rejected_witness :
  let s := Scenario.boot Scenario.funded in
  let r := Refill.tryRefillWallet Scenario.cfg Scenario.chain_down 5000 5001 (inr 0)
             (Some (8, 10000, 99800)) s Refill.fresh in
  (forall sent rq, exists e, Scenario.chain_down sent rq = inl e) /\
  Refill.lastRefillTime (snd r) = 0 /\
  Wallet.walletState (ClaimManager.wallet (fst r)) = Scenario.funded.
Proof.
  intros s r.
  assert (H : forall sent rq, exists e, Scenario.chain_down sent rq = inl e)
    by (intros sent rq; eexists; reflexivity).
  split; [exact H|].
  exact (tryRefillWallet_rejected Scenario.cfg Scenario.chain_down 5000 5001 (inr 0)
           (Some (8, 10000, 99800)) s Refill.fresh H).
Defined.

Lemma active_clients_unconfirmed_witness :
  let s := Scenario.boot Scenario.funded in
  let evs :=
    [Subscribe {| Hub.socket := 1; Hub.claimIdx := 1 |};
     CreateClaim 1700000000 (Scenario.claimable "S1" "cosmos1alice" "1000") "";
     Tick;
     Subscribe {| Hub.socket := 2; Hub.claimIdx := 2 |};
     GetTx 0%nat (Scenario.found 100);
     Tick] in
  unconfirmed_clients (ClaimManager.hub s) = true /\
  unconfirmed_clients (ClaimManager.hub (run Scenario.cfg Scenario.world evs s)) = true.
Proof.
  intros s evs. split; [reflexivity|].
  exact (active_clients_unconfirmed Scenario.cfg Scenario.world evs s eq_refl).
Defined.


Lemma getQueuedAmount_grows_witness :
  let s := step Scenario.cfg Scenario.world (Scenario.boot Scenario.funded)
             (CreateClaim 1700000000 (Scenario.claimable "A" "cosmos1alice" "500") "") in
  let sd := Scenario.claimable "B" "cosmos1bob" "600" in
  exists r ci s',
    (ClaimManager.createSessionClaim Scenario.cfg Scenario.world 1700000001 sd "" s
       = (inr (r, ci), s') /\
     Forall (fun x => (x < length (ClaimManager.objects s))%nat)
       (ClaimManager.claimTxQueue (ClaimManager.mgr s)) /\
     ClaimManager.getQueuedAmount s = inr 500 /\
     parseBigInt (amount ci) = Some 600) /\
    ClaimManager.getQueuedAmount s' = inr (500 + 600).
Proof.
  intros s sd. eexists _, _, _.
  assert (Hwf : Forall (fun x => (x < length (ClaimManager.objects s))%nat)
                  (ClaimManager.claimTxQueue (ClaimManager.mgr s)))
    by (apply (bool_decide_unpack _); vm_compute; exact I).
  split; [split; [lazy; reflexivity|split; [exact Hwf|split; reflexivity]]|].
  eapply (getQueuedAmount_grows Scenario.cfg Scenario.world 1700000001 sd "" s _ _ _ 500 600);
    [lazy; reflexivity|exact Hwf|reflexivity|reflexivity].
Defined.

Lemma processQueue_chain_rejects_witness :
  let s := two_queued Scenario.world_down in
  ((forall sent rq, exists e, ClaimManager.chain Scenario.world_down sent rq = inl e) /\
   ClaimManager.queueProcessing (ClaimManager.mgr s) = false /\
   gas_available Scenario.cfg s /\
   pending_count s < cwMaxPending Scenario.cfg /\
   Forall (fun r => (r < length (ClaimManager.objects s))%nat)
     (ClaimManager.claimTxQueue (ClaimManager.mgr s))) /\
  ClaimManager.claimTxQueue
    (ClaimManager.mgr (ClaimManager.processQueue Scenario.cfg Scenario.world_down s)) = [] /\
  Forall (fun r =>
            claimStatus
              (claim (ClaimManager.deref
                        (ClaimManager.processQueue Scenario.cfg Scenario.world_down s) r))
            = FAILED)
    (ClaimManager.claimTxQueue (ClaimManager.mgr s)).
Proof.
  intros s.
  assert (H1 : forall sent rq, exists e,
                 ClaimManager.chain Scenario.world_down sent rq = inl e)
    by (intros sent rq; eexists; reflexivity).
  assert (H2 : gas_available Scenario.cfg s)
    by (split; [reflexivity|exists 1000; split; reflexivity]).
  assert (H3 : pending_count s < cwMaxPending Scenario.cfg) by reflexivity.
  assert (H4 : Forall (fun r => (r < length (ClaimManager.objects s))%nat)
                 (ClaimManager.claimTxQueue (ClaimManager.mgr s)))
    by (apply (bool_decide_unpack _); vm_compute; exact I).
  split; [exact (conj H1 (conj eq_refl (conj H2 (conj H3 H4))))|].
  destruct (processQueue_chain_rejects Scenario.cfg Scenario.world_down H1 s eq_refl H2 H3 H4)
    as (Ha & Hb & _).
  split; assumption.
Defined.

Lemma getTx_resolved_settles_witness :
  let s := Scenario.one_sent in
  let s' := ClaimManager.getTx_resolved Scenario.cfg 0%nat (Scenario.found 100) s in
  (0%nat ∈ ClaimManager.watchers s /\ (0 < length (ClaimManager.objects s))%nat) /\
  claimStatus (claim (ClaimManager.deref s' 0%nat)) = CONFIRMED /\
  ClaimManager.claimTxDict (ClaimManager.mgr s')
    = delete (session (ClaimManager.deref s 0%nat))
        (ClaimManager.claimTxDict (ClaimManager.mgr s)).
Proof.
  intros s s'.
  assert (H1 : 0%nat ∈ ClaimManager.watchers s)
    by (apply (bool_decide_unpack _); vm_compute; exact I).
  assert (H2 : (0 < length (ClaimManager.objects s))%nat)
    by (apply (bool_decide_unpack _); vm_compute; exact I).
  split; [split; assumption|].
  destruct (getTx_resolved_settles Scenario.cfg 0%nat (Scenario.found 100) s H1 H2)
    as (Ha & Hb & _).
  split; assumption.
Defined.

Lemma historyTxDict_slot_shared_witness :
  let s := Scenario.two_sent in
  (1%nat ∈ ClaimManager.watchers s /\ 0%nat ∈ ClaimManager.watchers s /\ 1%nat <> 0%nat) /\
  ClaimManager.historyTxDict
    (ClaimManager.mgr
       (ClaimManager.getTx_resolved Scenario.cfg 0%nat (Scenario.found 100)
          (ClaimManager.getTx_resolved Scenario.cfg 1%nat (Scenario.found 101) s)))
  = <[sequence (Wallet.walletState (ClaimManager.wallet s)) := 0%nat]>
      (ClaimManager.historyTxDict (ClaimManager.mgr s)).
Proof.
  intros s.
  assert (H1 : 1%nat ∈ ClaimManager.watchers s)
    by (apply (bool_decide_unpack _); vm_compute; exact I).
  assert (H0 : 0%nat ∈ ClaimManager.watchers s)
    by (apply (bool_decide_unpack _); vm_compute; exact I).
  split; [repeat split; try assumption; discriminate|].
  exact (proj1 (proj2 (historyTxDict_slot_shared Scenario.cfg 1%nat 0%nat
                         (Scenario.found 101) (Scenario.found 100) s H1 H0
                         ltac:(discriminate)))).
Defined.

Lemma initialize_stops_at_missing_claim_witness :
  let s := Scenario.boot Scenario.funded in
  let l1 := [Scenario.claiming "S3" 7 PROCESSING None] in
  let l2 := [Scenario.claiming "S4" 8 PENDING (Some "AB"%string)] in
  (ClaimManager.initialized (ClaimManager.mgr s) = false /\
   Session.claim no_claim_record = None /\
   Forall (fun x => Session.claim x <> None) l1) /\
  ClaimManager.initialize (l1 ++ no_claim_record :: l2) s
  = (Some (JsError "TypeError: Cannot read properties of undefined (reading 'claimStatus')"),
     snd (snd (ClaimManager.restoreSessions l1
                 (0, ClaimManager.upd_mgr (ClaimManager.set_initialized true) s)))) /\
  fst (ClaimManager.restoreSessions l1
         (0, ClaimManager.upd_mgr (ClaimManager.set_initialized true) s)) = None /\
  ClaimManager.lastClaimTxIdx
    (ClaimManager.mgr (snd (ClaimManager.initialize (l1 ++ no_claim_record :: l2) s)))
  = ClaimManager.lastClaimTxIdx (ClaimManager.mgr s).
Proof.
  intros s l1 l2.
  assert (H : Forall (fun x => Session.claim x <> None) l1)
    by (repeat constructor; discriminate).
  split; [repeat split; try reflexivity; exact H|].
  exact (initialize_stops_at_missing_claim l1 l2 no_claim_record s eq_refl eq_refl H).
Defined.

Lemma createSessionClaim_prefix_only_witness :
  let s := Scenario.boot Scenario.funded in
  let sd := Scenario.claimable "S1" "cosmos" "1000" in
  (Session.status sd = Session.CLAIMABLE /\
   parseBigInt (Session.dropAmount sd) = Some 1000 /\
   parseBigInt (cwMinAmount Scenario.cfg) = Some 10 /\
   parseBigInt (cwMaxAmount Scenario.cfg) = Some 1000000 /\
   10 <= 1000 <= 1000000 /\
   Session.targetAddr sd = (cwAddressPrefix Scenario.cfg +:+ "")%string /\
   ClaimManager.claimTxDict (ClaimManager.mgr s) !! Session.sessionId sd = None) /\
  (exists ci s',
     ClaimManager.createSessionClaim Scenario.cfg Scenario.world 1700000000 sd "" s
       = (inr (length (ClaimManager.objects s), ci), s') /\
     target ci = (cwAddressPrefix Scenario.cfg +:+ "")%string) /\
  isValidAddress (Session.targetAddr sd) (cwAddressPrefix Scenario.cfg) = false.
Proof.
  intros s sd.
  assert (Hr : 10 <= 1000 <= 1000000) by lia.
  split; [repeat split; try reflexivity; apply Hr|].
  exact (createSessionClaim_prefix_only Scenario.cfg Scenario.world 1700000000 sd "" "" s
           1000 10 1000000 eq_refl eq_refl eq_refl eq_refl Hr eq_refl eq_refl
           (fun ci => eq_refl) (fun x => eq_refl)).
Defined.

(** ** The tick among other activity *)

Lemma processQueue_gas_gate_witness :
  let s := two_queued Scenario.world in
  let res := Interleaved.processQueue_during Scenario.cfg Scenario.world
               [[LoadWalletState None]] s in
  let s0 := snd (ClaimManager.createSessionClaim Scenario.cfg Scenario.world 1700000000
                   (Scenario.claimable "S2" "cosmos1user" "500") ""
                   (Scenario.boot Scenario.drained)) in
  let res0 := Interleaved.processQueue_during Scenario.cfg Scenario.world
                [[LoadWalletState (Some (8, 100000, 100000))]] s0 in
  parseBigInt (cwMinGasAmount Scenario.cfg) = Some 1000 /\
  map Interleaved.taken (fst (fst res)) = [0; 1]%nat /\
  Forall (fun d =>
            (exists rest,
               ClaimManager.claimTxQueue (ClaimManager.mgr (Interleaved.before d))
               = Interleaved.taken d :: rest) /\
            ready (Interleaved.seen_then d) = true /\
            1000 < nativeBalance (Interleaved.seen_then d)) (fst (fst res)) /\
  nativeBalance (Wallet.walletState (ClaimManager.wallet s0)) <= 1000 /\
  ClaimManager.claimTxQueue (ClaimManager.mgr s0) = [0%nat] /\
  fst (fst res0) = [] /\
  ClaimManager.claimTxQueue (ClaimManager.mgr (snd res0)) = [0%nat].
Proof.
  intros s res s0 res0.
  assert (Hle : nativeBalance (Wallet.walletState (ClaimManager.wallet s0)) <= 1000)
    by (vm_compute; discriminate).
  split; [reflexivity|]. split; [vm_compute; reflexivity|]. split.
  - exact (proj1 (processQueue_gas_gate Scenario.cfg Scenario.world
                    [[LoadWalletState None]] s (snd res) 1000 (fst (fst res))
                    (snd (fst res)) eq_refl ltac:(vm_compute; reflexivity))).
  - split; [exact Hle|]. split; [reflexivity|].
    destruct (processQueue_gas_gate Scenario.cfg Scenario.world
                [[LoadWalletState (Some (8, 100000, 100000))]] s0 (snd res0) 1000
                (fst (fst res0)) (snd (fst res0)) eq_refl ltac:(vm_compute; reflexivity))
      as (_ & _ & _ & Hshut).
    destruct (Hshut (or_intror Hle)) as (Hlog & Hq & _).
    split; [exact Hlog|]. rewrite Hq. reflexivity.
Defined.

Lemma stale_gate_dequeues_offline :
  let s := two_queued Scenario.world in
  let res := Interleaved.processQueue_during Scenario.cfg Scenario.world
               [[LoadWalletState None]] s in
  let res' := Interleaved.processQueue_during Scenario.cfg Scenario.world
                [[LoadWalletState (Some (8, 99300, 1000))]] s in
  parseBigInt (cwMinGasAmount Scenario.cfg) = Some 1000 /\
  ClaimManager.claimTxQueue (ClaimManager.mgr s) = [0; 1]%nat /\
  (exists d1 d2,
     fst (fst res) = [d1; d2] /\ Interleaved.taken d2 = 1%nat /\
     ready (Wallet.walletState (ClaimManager.wallet (Interleaved.before d2))) = false /\
     ClaimManager.claimTxQueue (ClaimManager.mgr (Interleaved.before d2)) = [1%nat] /\
     ClaimManager.claimTxQueue (ClaimManager.mgr (snd res)) = [] /\
     claimStatus (claim (ClaimManager.deref (snd res) 1%nat)) = FAILED /\
     txError (claim (ClaimManager.deref (snd res) 1%nat))
       = Some "Network RPC is currently unreachable."%string) /\
  (exists d1 d2,
     fst (fst res') = [d1; d2] /\ Interleaved.taken d2 = 1%nat /\
     nativeBalance (Wallet.walletState (ClaimManager.wallet (Interleaved.before d2)))
       <= 1000 /\
     ClaimManager.claimTxQueue (ClaimManager.mgr (Interleaved.before d2)) = [1%nat] /\
     ClaimManager.claimTxQueue (ClaimManager.mgr (snd res')) = [] /\
     claimStatus (claim (ClaimManager.deref (snd res') 1%nat)) = FAILED /\
     txError (claim (ClaimManager.deref (snd res') 1%nat))
       = Some "Faucet wallet is out of gas funds."%string).
Proof.
  split; [reflexivity|]. split; [reflexivity|]. split.
  - eexists _, _. split; [vm_compute; reflexivity|].
    repeat split; vm_compute; reflexivity.
  - eexists _, _. split; [vm_compute; reflexivity|].
    repeat split; vm_compute; solve [reflexivity | discriminate].
Qed.

Lemma processQueue_exit_witness :
  let s := two_queued Scenario.world in
  let res := Interleaved.processQueue_during Scenario.cfg Scenario.world [] s in
  (parseBigInt (cwMinGasAmount Scenario.cfg) = Some 1000 /\
   ClaimManager.queueProcessing (ClaimManager.mgr s) = false) /\
  ClaimManager.claimTxQueue (ClaimManager.mgr s) = [0; 1]%nat /\
  map Interleaved.taken (fst (fst res)) = [0; 1]%nat /\
  ClaimManager.claimTxQueue (ClaimManager.mgr s)
  = map Interleaved.taken (fst (fst res))
    ++ ClaimManager.claimTxQueue (ClaimManager.mgr (snd res)) /\
  (ClaimManager.claimTxQueue (ClaimManager.mgr (snd res)) = [] \/
   cwMaxPending Scenario.cfg <= pending_count (snd res) \/
   ready (seen (snd (fst res)) (snd res)) = false \/
   nativeBalance (seen (snd (fst res)) (snd res)) <= 1000).
Proof.
  intros s res.
  split; [split; reflexivity|]. split; [reflexivity|].
  split; [vm_compute; reflexivity|].
  destruct (processQueue_exit Scenario.cfg Scenario.world [] s (snd res) 1000
              (fst (fst res)) (snd (fst res)) eq_refl eq_refl
              ltac:(vm_compute; reflexivity))
    as (_ & Hex & _ & Hfifo).
  split; [exact (Hfifo eq_refl)|exact Hex].
Defined.

Lemma processQueue_round_outcome_witness :
  let s := two_queued Scenario.world in
  let res := Interleaved.processQueue_round_during Scenario.cfg Scenario.world []
               (None, s) in
  let s' := snd (snd (fst res)) in
  (fst (fst res) = ClaimManager.Again /\
   ClaimManager.claimTxQueue (ClaimManager.mgr s) = [0; 1]%nat /\
   (0 < length (ClaimManager.objects s))%nat) /\
  claimStatus (claim (ClaimManager.deref s' 0%nat)) = PENDING /\
  txHash (claim (ClaimManager.deref s' 0%nat)) = Some "TX0"%string /\
  ((ClaimManager.queryClient s = true /\
    claimStatus (claim (ClaimManager.deref s' 0%nat)) = PENDING /\
    exists h, txHash (claim (ClaimManager.deref s' 0%nat)) = Some h /\ h <> ""%string /\
              ClaimManager.pendingTxQueue (ClaimManager.mgr s') !! h = Some 0%nat /\
              ClaimManager.watchers s' = ClaimManager.watchers s ++ [0%nat]) \/
   (claimStatus (claim (ClaimManager.deref s' 0%nat)) = FAILED /\
    (exists ex, txError (claim (ClaimManager.deref s' 0%nat))
                = Some ("Processing Exception: " +:+ ex)%string) /\
    ClaimManager.pendingTxQueue (ClaimManager.mgr s')
      = ClaimManager.pendingTxQueue (ClaimManager.mgr s) /\
    ClaimManager.claimTxDict (ClaimManager.mgr s')
      = ClaimManager.claimTxDict (ClaimManager.mgr s)) \/
   (claimStatus (claim (ClaimManager.deref s' 0%nat)) = FAILED /\
    txError (claim (ClaimManager.deref s' 0%nat))
      = Some "Transaction Error: Error: Transaction hash is undefined"%string /\
    ClaimManager.pendingTxQueue (ClaimManager.mgr s') !! ""%string = Some 0%nat /\
    ClaimManager.claimTxDict (ClaimManager.mgr s')
      = delete (session (ClaimManager.deref s 0%nat))
          (ClaimManager.claimTxDict (ClaimManager.mgr s))) \/
   (ClaimManager.queryClient s = false /\
    claimStatus (claim (ClaimManager.deref s' 0%nat)) = FAILED /\
    txError (claim (ClaimManager.deref s' 0%nat))
      = Some "Transaction Error: TypeError: Cannot read properties of undefined (reading 'getTx')"%string /\
    (exists h, txHash (claim (ClaimManager.deref s' 0%nat)) = Some h /\ h <> ""%string /\
               ClaimManager.pendingTxQueue (ClaimManager.mgr s') !! h = None) /\
    ClaimManager.watchers s' = ClaimManager.watchers s /\
    ClaimManager.claimTxDict (ClaimManager.mgr s')
      = delete (session (ClaimManager.deref s 0%nat))
          (ClaimManager.claimTxDict (ClaimManager.mgr s))) \/
   ((exists ws, (None : View) = Some ws) /\
    (ready (Wallet.walletState (ClaimManager.wallet s)) = false /\
     txError (claim (ClaimManager.deref s' 0%nat))
       = Some "Network RPC is currently unreachable."%string \/
     ready (Wallet.walletState (ClaimManager.wallet s)) = true /\
     (exists g, parseBigInt (cwMinGasAmount Scenario.cfg) = Some g /\
                nativeBalance (Wallet.walletState (ClaimManager.wallet s)) <= g) /\
     txError (claim (ClaimManager.deref s' 0%nat))
       = Some "Faucet wallet is out of gas funds."%string) /\
    claimStatus (claim (ClaimManager.deref s' 0%nat)) = FAILED /\
    ClaimManager.pendingTxQueue (ClaimManager.mgr s')
      = ClaimManager.pendingTxQueue (ClaimManager.mgr s) /\
    ClaimManager.claimTxDict (ClaimManager.mgr s')
      = ClaimManager.claimTxDict (ClaimManager.mgr s) /\
    ClaimManager.wallet s' = ClaimManager.wallet s)).
Proof.
  intros s res s'.
  assert (H2 : (0 < length (ClaimManager.objects s))%nat)
    by (apply (bool_decide_unpack _); vm_compute; exact I).
  split; [split; [vm_compute; reflexivity|split; [reflexivity|exact H2]]|].
  split; [vm_compute; reflexivity|]. split; [vm_compute; reflexivity|].
  exact (processQueue_round_outcome Scenario.cfg Scenario.world None (fst (snd (fst res)))
           s s' 0%nat [1%nat] (snd res)
           ltac:(vm_compute; reflexivity) eq_refl H2).
Defined.
